(** * FPA-MED backend: the RAG engine and its HTTP handlers

    A shallow embedding of [backend/rag_engine.py] (class [RAGEngine]) and of
    the request handlers of [backend/main.py], with the properties of the
    design specification stated and settled against it.

    Conventions of the embedding:
    - a Python [float] is a binary64 value, modelled by Rocq's primitive
      [float] (same format, same rounding); what its additions and
      divisions round is stated over the real numbers ([F2R], [rounds_to]);
    - a Python [str] is a [string], one [ascii] per code point (code points
      below 256);
    - a Python [dict] is an association list in insertion order ([PyDict]);
    - a [pathlib.Path] is the list of its components ([PathLib]);
    - a value that [json.load] returns is a [PyValue];
    - a method of [RAGEngine] is a function from the machine state (the engine
      object, the manifest files, the log of provider calls, the standard
      output) to an outcome and a new state; an exception is the outcome
      [Raise]. *)

From Stdlib Require Import Reals Lra.
From Stdlib Require Import Bool List ZArith QArith Lia Lqa String Ascii.
From Stdlib Require Import Permutation Sorted.
From Stdlib Require Import Floats.
Import ListNotations.

Set Implicit Arguments.

(* ================================================================= *)
(** * Part I: the program *)

(* ================================================================= *)
(** ** Binary64 comparisons *)

(** Python compares floats with the IEEE-754 predicates, which are the
    primitive comparisons of [float]; their specification is [SFcompare] on
    the view [Prim2SF] of a float. *)
Module Float64.

Definition SFis_nan (a : spec_float) : bool :=
  match a with S754_nan => true | _ => false end.

End Float64.

(* ================================================================= *)
(** ** Distance to similarity *)

(** [search_cases], lines 259-262:
    [similarity = 1.0 / (1.0 + distance)]. *)
Definition similarity (distance : float) : float :=
  (1 / (1 + distance))%float.

(** The same expression over exact rationals: what the rule computes when no
    rounding takes place. *)
Definition similarity_exact (distance : Q) : Q := 1 / (1 + distance).

(** The rational value of a finite binary64 number. *)
Definition float_value (x : float) : option Q :=
  match Prim2SF x with
  | S754_zero _ => Some 0%Q
  | S754_finite s m e =>
      let v := match e with
               | Zneg p => Qmake (Zpos m) (2 ^ p)
               | _ => inject_Z (Zpos m * 2 ^ e)
               end in
      Some (if s then Qopp v else v)
  | _ => None
  end.

(* ================================================================= *)
(** ** Python strings *)

Module PyStr.

Open Scope string_scope.

(** [str.isspace] on one character, for code points below 256: the ASCII
    controls 9-13 and 28-31, the space, NEL (133) and the no-break space
    (160). *)
Definition isspace (c : ascii) : bool :=
  let n := nat_of_ascii c in
  ((9 <=? n) && (n <=? 13) || (28 <=? n) && (n <=? 32)
   || (n =? 133) || (n =? 160))%nat.

Fixpoint lstrip (s : string) : string :=
  match s with
  | EmptyString => EmptyString
  | String c s' => if isspace c then lstrip s' else s
  end.

Fixpoint rstrip (s : string) : string :=
  match s with
  | EmptyString => EmptyString
  | String c s' =>
      match rstrip s' with
      | EmptyString => if isspace c then EmptyString else String c EmptyString
      | r => String c r
      end
  end.

(** [s.strip()] *)
Definition strip (s : string) : string := rstrip (lstrip s).

(** Truth value of a string: [bool(s)]. *)
Definition truthy (s : string) : bool :=
  match s with EmptyString => false | _ => true end.

(** A string is blank when it is empty or holds whitespace only. *)
Fixpoint blank (s : string) : bool :=
  match s with
  | EmptyString => true
  | String c s' => isspace c && blank s'
  end.

(** [s[:n]] for [n >= 0]. *)
Fixpoint take (n : nat) (s : string) : string :=
  match n, s with
  | S n', String c s' => String c (take n' s')
  | _, _ => EmptyString
  end.

(** [s.startswith(p)] *)
Definition startswith (s p : string) : bool := String.prefix p s.

End PyStr.

(* ================================================================= *)
(** ** Python dictionaries *)

(** A [dict] with string keys: the association list of its items in
    insertion order, each key at most once.  Assigning to a key that is
    present keeps its position, assigning to a new key appends it. *)
Module PyDict.

Section Dict.
Variable V : Type.

Definition t := list (string * V).

Definition empty : t := [].

(** [d.get(k)] *)
Fixpoint get (k : string) (d : t) : option V :=
  match d with
  | [] => None
  | (k', v) :: d' => if String.eqb k k' then Some v else get k d'
  end.

(** [k in d] *)
Definition mem (k : string) (d : t) : bool :=
  match get k d with Some _ => true | None => false end.

(** [d[k] = v] *)
Fixpoint set (k : string) (v : V) (d : t) : t :=
  match d with
  | [] => [(k, v)]
  | (k', v') :: d' =>
      if String.eqb k k' then (k, v) :: d' else (k', v') :: set k v d'
  end.

(** [del d[k]] for a key that is present. *)
Fixpoint del (k : string) (d : t) : t :=
  match d with
  | [] => []
  | (k', v') :: d' =>
      if String.eqb k k' then d' else (k', v') :: del k d'
  end.

(** [d.keys()] and [d.items()] *)
Definition keys (d : t) : list string := map fst d.
Definition items (d : t) : list (string * V) := d.

(** [d.update(other)] *)
Definition update (d other : t) : t :=
  fold_left (fun acc kv => set (fst kv) (snd kv) acc) other d.

End Dict.

Arguments empty {V}.

End PyDict.

(* ================================================================= *)
(** ** Paths *)

(** A relative [pathlib.Path] as the list of its components:
    [Path("./data/cases")] is [["data"; "cases"]] and [Path(".")] is [[]]. *)
Module PathLib.

Definition Path := list string.

(** [p.parent]; the parent of [Path(".")] is itself. *)
Definition parent (p : Path) : Path := removelast p.

(** [p / name], for a name that is one component of a path; pathlib cuts
    a name with a separator into several components and passes over an
    empty name and ".", which [single_component] excludes. *)
Definition joinpath (p : Path) (name : string) : Path := p ++ [name].

Fixpoint has_separator (name : string) : bool :=
  match name with
  | EmptyString => false
  | String c rest => Ascii.eqb c "/"%char || has_separator rest
  end.

Definition single_component (name : string) : bool :=
  negb (has_separator name) && negb (String.eqb name EmptyString)
  && negb (String.eqb name "."%string).

(** [p.name] *)
Definition name (p : Path) : string := last p EmptyString.

Definition eqb (p q : Path) : bool :=
  if list_eq_dec string_dec p q then true else false.

End PathLib.

(* ================================================================= *)
(** ** Python lists: slicing and sorting *)

Module PyList.

Section Lists.
Variable A : Type.

(** [l[:k]] for any integer [k]: the first [k] items when [k >= 0], all
    but the last [-k] items when [k < 0]. *)
Definition slice_to (k : Z) (l : list A) : list A :=
  if (0 <=? k)%Z then firstn (Z.to_nat k) l
  else firstn (List.length l - Z.to_nat (- k)) l.

(** [sorted(l, key=key, reverse=reverse)] on float keys.  CPython's sort is
    stable, also with [reverse=True], and compares keys with [<] only;
    whenever [<] orders the keys totally (no NaN among them) its result is
    the one of this stable insertion sort.  [insert x l] puts [x], which
    stood before the items of [l], in front of the first item that need
    not precede it. *)
Variable key : A -> float.
Variable reverse : bool.

Definition precedes (y x : A) : bool :=
  if reverse then (key x <? key y)%float else (key y <? key x)%float.

Fixpoint insert (x : A) (l : list A) : list A :=
  match l with
  | [] => [x]
  | y :: l' => if precedes y x then y :: insert x l' else x :: l
  end.

Definition sorted (l : list A) : list A := fold_right insert [] l.

End Lists.

End PyList.

(* ================================================================= *)
(** ** Data model *)

Import PathLib.
Open Scope string_scope.

Definition Metadata := PyDict.t string.
Definition Embedding := list float.

(** A document as [SimpleDirectoryReader] yields it: one per text file, one
    per page of a PDF file, each with the [file_name] of its file. *)
Record Document := {
  doc_text : string;
  doc_metadata : Metadata
}.

(** A stored fragment of the [forensic_cases] collection. *)
Record Node := {
  node_text : string;
  node_metadata : Metadata;
  node_embedding : Embedding
}.

Record NodeWithScore := {
  nws_text : string;
  nws_metadata : Metadata;
  nws_score : float
}.

(** One row of [collection.query(..., include=['metadatas', 'documents',
    'distances'])]: the entries at one index of the three parallel lists. *)
Record Hit := {
  hit_metadata : Metadata;
  hit_document : string;
  hit_distance : float
}.

(** An item of the ingestion manifest. *)
Record ManifestEntry := {
  entry_case_id : string;
  entry_file_name : string;
  entry_ingested_at : Path
}.

Definition Manifest := PyDict.t ManifestEntry.

(** What [.ingestion_manifest.json] holds at a path: nothing (no file), text
    that [json.load] rejects, or a JSON object.  (A file holding another
    JSON value is not modelled.) *)
Inductive ManifestFile :=
| Absent
| Unparsable
| Parsed (manifest : Manifest).

(** A value as [json.load] returns it: [None], a [bool], an [int], a
    [float], a [str], a [list] or a [dict]. *)
Unset Elimination Schemes.
Inductive PyValue :=
| PyNone
| PyBool (b : bool)
| PyInt (n : Z)
| PyFloat (x : float)
| PyString (s : string)
| PyArray (items : list PyValue)
| PyObject (items : list (string * PyValue)).
Set Elimination Schemes.

(** [len(v)]; [None] stands for the [TypeError] of a value without
    length. *)
Definition py_len (v : PyValue) : option nat :=
  match v with
  | PyString s => Some (String.length s)
  | PyArray items => Some (List.length items)
  | PyObject items => Some (List.length items)
  | _ => None
  end.

(** What a field of type [str] of a pydantic model takes: a [str]. *)
Definition as_str (v : PyValue) : option string :=
  match v with
  | PyString s => Some s
  | _ => None
  end.

(** What a field of type [List[str]] takes: a [list] of [str]. *)
Fixpoint all_str (items : list PyValue) : option (list string) :=
  match items with
  | [] => Some []
  | v :: rest =>
      match as_str v, all_str rest with
      | Some s, Some l => Some (s :: l)
      | _, _ => None
      end
  end.

(** Line 307 and the field [key_findings: List[str]]: what [v[:5]] gives
    the model, when it is a [list] of [str]; the slice of a [str] is a
    [str], which the field does not take, and the other values have no
    slice. *)
Definition first_findings (v : PyValue) : option (list string) :=
  match v with
  | PyArray items => all_str (firstn 5 items)
  | _ => None
  end.

(** The object of a case's [metadata.json], as far as the engine reads it:
    the value under each of the six keys, [None] for a key that the object
    does not have. *)
Record CaseMetadata := {
  meta_case_id : option PyValue;
  meta_title : option PyValue;
  meta_date : option PyValue;
  meta_summary : option PyValue;
  meta_key_findings : option PyValue;
  meta_documents : option PyValue
}.

(** [metadata.json] of a case: there is no such file; the file cannot be
    opened, [json.load] rejects it or the value loaded is not an object, so
    that the first [metadata.get] raises; or an object is loaded. *)
Inductive MetadataFile :=
| NoMetadata
| BadMetadata
| GoodMetadata (metadata : CaseMetadata).

(** models.py *)
Record Source := {
  source_doc_id : string;
  source_snippet : string;
  source_relevance_score : float
}.

Record CaseSearchResult := {
  result_case_id : string;
  result_title : string;
  result_relevance_score : float;
  result_summary : string;
  result_key_findings : list string;
  result_document_count : Z
}.

Record QueryRequest := { request_query : string; request_case_id : option string }.
Record CaseSearchRequest := { request_description : string }.

Record QueryMetadata := { total_chunks_retrieved : nat; processing_time_ms : Z }.

Record QueryResult := {
  answer : string;
  sources : list Source;
  metadata : QueryMetadata
}.

Record IngestResult := { ingested : nat; skipped : nat }.

(** Exceptions. *)
Inductive Exn :=
| RuntimeError (msg : string)
| ExternalError (msg : string)
| HTTPException (status_code : Z) (detail : string).

Definition str_exn (e : Exn) : string :=
  match e with
  | RuntimeError msg => msg
  | ExternalError msg => msg
  | HTTPException _ detail => detail
  end.

Inductive Outcome (A : Type) :=
| Return (a : A)
| Raise (e : Exn).

Arguments Return {A} a.
Arguments Raise {A} e.

(** Calls that leave the process. *)
Inductive ExternalCall :=
| EmbeddingCall (text : string)
| CompletionCall (query : string)
| StoreQueryCall (n_results : nat)
| StoreAddCall (nodes : nat).

(** Lines written by [print]. *)
Inductive Output :=
| SkippingLine (file_name : string)
| IngestedLine (file_name : string)
| ManifestLoadWarning
| ManifestSaveWarning
| MetadataErrorLine (case_id : string)
| ClearedLine (entries : nat) (case_id : string)
| ClearNoteLine
| NoManifestLine
| ClearErrorLine (case_id : string).

(** The collaborators of the engine and the files it only reads. *)
Record Env := {
  (* Settings.embed_model.get_text_embedding *)
  get_text_embedding : string -> Outcome Embedding;
  (* Settings.llm, through the query engine's response synthesis *)
  complete : string -> list string -> Outcome string;
  (* the metric of the collection *)
  distance : Embedding -> Embedding -> float;
  (* the score the retriever reports for a distance *)
  native_score : float -> float;
  (* how an inserted document's text is cut into fragments *)
  node_parser : string -> list string;
  (* SimpleDirectoryReader(input_dir=case_dir, ...).load_data() *)
  load_data : Path -> Outcome (list Document);
  (* the failure of the store on a query, if it fails: str(e) *)
  query_failure : Embedding -> nat -> option string;
  (* DATA_DIR/<case_id>/metadata.json *)
  read_metadata : string -> MetadataFile;
  (* str(e) of the exception that lines 302-309 raise on a title, a summary
     and key findings from which no CaseSearchResult can be made *)
  result_error : PyValue -> PyValue -> PyValue -> string;
  (* number of entries of DATA_DIR/<case_id> matching '*.*', when the
     directory exists *)
  glob_count : string -> option Z;
  (* whether a manifest file can be written at a path *)
  writable : Path -> bool;
  (* config.TOP_K_RETRIEVAL *)
  TOP_K_RETRIEVAL : nat;
  (* round(x, 1) *)
  round1 : float -> float;
  (* wall-clock time of a query, in milliseconds *)
  elapsed_ms : Z
}.

(** config.DATA_DIR = "./data/cases" *)
Definition DATA_DIR : Path := ["data"; "cases"].

(** The engine object: [self._initialized] and the content of
    [self.chroma_collection], in insertion order. *)
Record RAGEngine := {
  initialized : bool;
  chroma_collection : list Node
}.

(** The state a method runs in. *)
Record Machine := {
  self : RAGEngine;
  files : Path -> ManifestFile;
  calls : list ExternalCall;
  stdout : list Output
}.

(** ** A state and exception monad *)

Definition M (A : Type) : Type := Machine -> Outcome A * Machine.

Definition ret {A : Type} (a : A) : M A := fun m => (Return a, m).

Definition raise {A : Type} (e : Exn) : M A := fun m => (Raise e, m).

Definition bind {A B : Type} (c : M A) (k : A -> M B) : M B :=
  fun m =>
    match c m with
    | (Return a, m') => k a m'
    | (Raise e, m') => (Raise e, m')
    end.

Declare Scope monad_scope.
Delimit Scope monad_scope with monad.
Notation "x <- c ;; k" := (bind c (fun x => k))
  (at level 61, c at next level, right associativity) : monad_scope.
Notation "c ;;; k" := (bind c (fun _ => k))
  (at level 61, right associativity) : monad_scope.
Open Scope monad_scope.

(** [try: c except Exception as e: handler e] *)
Definition try_except {A : Type} (c : M A) (handler : Exn -> M A) : M A :=
  fun m =>
    match c m with
    | (Return a, m') => (Return a, m')
    | (Raise e, m') => handler e m'
    end.

Definition print (line : Output) : M unit :=
  fun m => (Return tt,
            {| self := self m; files := files m; calls := calls m;
               stdout := stdout m ++ [line] |}).

Definition log_call (c : ExternalCall) : M unit :=
  fun m => (Return tt,
            {| self := self m; files := files m; calls := calls m ++ [c];
               stdout := stdout m |}).

Definition external {A : Type} (c : ExternalCall) (r : Outcome A) : M A :=
  log_call c ;;; (fun m => (r, m)).

Definition get_self : M RAGEngine := fun m => (Return (self m), m).

Definition read_file (p : Path) : M ManifestFile :=
  fun m => (Return (files m p), m).

Definition write_file (p : Path) (content : ManifestFile) : M unit :=
  fun m => (Return tt,
            {| self := self m;
               files := fun q => if PathLib.eqb q p then content else files m q;
               calls := calls m; stdout := stdout m |}).

Definition add_nodes (nodes : list Node) : M unit :=
  fun m => (Return tt,
            {| self := {| initialized := initialized (self m);
                          chroma_collection := chroma_collection (self m) ++ nodes |};
               files := files m; calls := calls m; stdout := stdout m |}).

Fixpoint mapM {A B : Type} (f : A -> M B) (l : list A) : M (list B) :=
  match l with
  | [] => ret []
  | x :: l' => y <- f x ;; ys <- mapM f l' ;; ret (y :: ys)
  end.

(* ================================================================= *)
(** ** The collaborators *)

Section Engine.

Variable env : Env.

Definition embed (text : string) : M Embedding :=
  external (EmbeddingCall text) (get_text_embedding env text).

Definition hit_of (query_embedding : Embedding) (n : Node) : Hit :=
  {| hit_metadata := node_metadata n;
     hit_document := node_text n;
     hit_distance := distance env query_embedding (node_embedding n) |}.

(** Modelled from the spec: the Vector Store's [query] (section 4.1), which
    ChromaDB implements: up to [n_results] eligible fragments by ascending
    distance, ties in insertion order, all of them when fewer are eligible;
    a failure of the store on the query surfaces as an error. *)
Definition collection_query (query_embedding : Embedding) (n_results : nat)
    (eligible : Node -> bool) : M (list Hit) :=
  e <- get_self ;;
  external (StoreQueryCall n_results)
    (match query_failure env query_embedding n_results with
     | Some msg => Raise (ExternalError msg)
     | None =>
         Return (firstn n_results
                   (PyList.sorted hit_distance false
                      (map (hit_of query_embedding)
                           (filter eligible (chroma_collection e)))))
     end).

(** Modelled from the spec: the Vector Store's [count] (section 4.1). *)
Definition collection_count (e : RAGEngine) : nat :=
  List.length (chroma_collection e).

(** Modelled from the spec: the Vector Store's [insert] (section 4.1) behind
    LlamaIndex's [index.insert(doc)], which cuts the document into fragments,
    embeds each and adds them with the document's metadata; duplicates are
    never rejected. *)
Definition index_insert (doc : Document) : M unit :=
  let texts := node_parser env (doc_text doc) in
  embeddings <- mapM embed texts ;;
  log_call (StoreAddCall (List.length texts)) ;;;
  add_nodes (map (fun te => {| node_text := fst te;
                               node_metadata := doc_metadata doc;
                               node_embedding := snd te |})
                 (combine texts embeddings)).

Definition case_id_filter (case_id : string) (n : Node) : bool :=
  match PyDict.get "case_id" (node_metadata n) with
  | Some c => String.eqb c case_id
  | None => false
  end.

(** Modelled from the spec: the query engine of LlamaIndex
    ([query_engine.query], section 4.4 steps 2, 3 and 5): embed the query,
    retrieve the [TOP_K_RETRIEVAL] nearest fragments, filtered by case when a
    filter is given, and have the completion provider answer from them. *)
Definition query_engine_query (filters : option string) (query_text : string)
    : M (string * list NodeWithScore) :=
  query_embedding <- embed query_text ;;
  hits <- collection_query query_embedding (TOP_K_RETRIEVAL env)
            (match filters with
             | Some case_id => case_id_filter case_id
             | None => fun _ => true
             end) ;;
  response <- external (CompletionCall query_text)
                (complete env query_text (map hit_document hits)) ;;
  ret (response,
       map (fun h => {| nws_text := hit_document h;
                        nws_metadata := hit_metadata h;
                        nws_score := native_score env (hit_distance h) |}) hits).

(* ================================================================= *)
(** ** [RAGEngine] *)

Definition check_initialized (msg : string) : M unit :=
  e <- get_self ;;
  if initialized e then ret tt else raise (RuntimeError msg).

(** [RAGEngine.query], line 145:
    [node.text[:200] + "..." if len(node.text) > 200 else node.text]. *)
Definition snippet_of (text : string) : string :=
  if (200 <? String.length text)%nat then PyStr.take 200 text ++ "..."
  else text.

Definition source_of (node : NodeWithScore) : Source :=
  {| source_doc_id :=
       match PyDict.get "file_name" (nws_metadata node) with
       | Some f => f
       | None => "unknown"
       end;
     source_snippet := snippet_of (nws_text node);
     source_relevance_score := nws_score node |}.

(** [RAGEngine.query] *)
Definition query (query_text : string) (case_id : option string) : M QueryResult :=
  check_initialized "RAG engine not initialized. Call initialize() first." ;;;
  let filters :=
    match case_id with
    | Some c => if PyStr.truthy c then Some c else None
    | None => None
    end in
  response <- query_engine_query filters query_text ;;
  let sources := map source_of (snd response) in
  ret {| answer := fst response;
         sources := sources;
         metadata := {| total_chunks_retrieved := List.length sources;
                        processing_time_ms := elapsed_ms env |} |}.

(** [RAGEngine.get_document_count] *)
Definition get_document_count (m : Machine) : nat :=
  if negb (initialized (self m)) then 0%nat
  else collection_count (self m).

(** [RAGEngine.search_cases], lines 249-267: one pass over the rows of the
    query result, keeping per case the highest similarity and the text of
    the row that brought it.  The distances are those of the store's
    metric, which are not negative; at the distance -1.0, where Python's
    division by zero raises, the binary64 quotient is infinite. *)
Definition dedup_step (acc : PyDict.t float * PyDict.t string) (h : Hit)
    : PyDict.t float * PyDict.t string :=
  let '(case_scores, case_texts) := acc in
  match PyDict.get "case_id" (hit_metadata h) with
  | None => acc
  | Some case_id =>
      if negb (PyStr.truthy case_id) then acc
      else
        let similarity := similarity (hit_distance h) in
        if match PyDict.get case_id case_scores with
           | None => true
           | Some best => (best <? similarity)%float
           end
        then (PyDict.set case_id similarity case_scores,
              PyDict.set case_id (hit_document h) case_texts)
        else acc
  end.

Definition deduplicate (pool : list Hit) : PyDict.t float * PyDict.t string :=
  fold_left dedup_step pool (PyDict.empty, PyDict.empty).

(** Line 271:
    [sorted(case_scores.items(), key=lambda x: x[1], reverse=True)[:top_k]]. *)
Definition sorted_cases (case_scores : PyDict.t float) (top_k : Z)
    : list (string * float) :=
  PyList.slice_to top_k (PyList.sorted snd true (PyDict.items case_scores)).

Definition or_default {A : Type} (o : option A) (d : A) : A :=
  match o with Some a => a | None => d end.

(** Lines 274-310: the result for one retained case.  The four
    assignments of lines 290-293 are made one after the other inside the
    [try]: when the last one raises ([len] of a value without length) the
    first three stand.  [CaseSearchResult] is constructed outside the
    [try]: a title or a summary that is not a [str], or key findings whose
    first five are not a [list] of [str], raise. *)
Definition case_result (case_texts : PyDict.t string) (item : string * float)
    : M CaseSearchResult :=
  let '(case_id, score) := item in
  let summary := PyStr.take 300 (or_default (PyDict.get case_id case_texts) "") in
  loaded <-
    match read_metadata env case_id with
    | NoMetadata => ret (PyString case_id, PyString summary, PyArray [], 0%Z)
    | BadMetadata =>
        print (MetadataErrorLine case_id) ;;;
        ret (PyString case_id, PyString summary, PyArray [], 0%Z)
    | GoodMetadata md =>
        let title := or_default (meta_title md) (PyString case_id) in
        let summary := or_default (meta_summary md) (PyString summary) in
        let key_findings := or_default (meta_key_findings md) (PyArray []) in
        match py_len (or_default (meta_documents md) (PyArray [])) with
        | Some n => ret (title, summary, key_findings, Z.of_nat n)
        | None =>
            print (MetadataErrorLine case_id) ;;;
            ret (title, summary, key_findings, 0%Z)
        end
    end ;;
  let '(title, summary, key_findings, doc_count) := loaded in
  let doc_count :=
    match glob_count env case_id with
    | Some n => if (doc_count =? 0)%Z then Z.max 0 (n - 1) else doc_count
    | None => doc_count
    end in
  match as_str title, as_str summary, first_findings key_findings with
  | Some title, Some summary, Some key_findings =>
      ret {| result_case_id := case_id;
             result_title := title;
             result_relevance_score := round1 env (score * 100)%float;
             result_summary := summary;
             result_key_findings := key_findings;
             result_document_count := doc_count |}
  | _, _, _ =>
      raise (ExternalError (result_error env title summary key_findings))
  end.

(** The ranking of a candidate pool: lines 249-312. *)
Definition rank_pool (pool : list Hit) (top_k : Z) : M (list CaseSearchResult) :=
  let '(case_scores, case_texts) := deduplicate pool in
  mapM (case_result case_texts) (sorted_cases case_scores top_k).

(** [RAGEngine.search_cases].  The test of line 253 on [query_results['ids']]
    holds for every answer of the store to one query embedding (a list of one
    list) and is left out. *)
Definition search_cases (description : string) (top_k : Z) : M (list CaseSearchResult) :=
  check_initialized "RAG engine not initialized. Call initialize() first." ;;;
  description_embedding <- embed description ;;
  e <- get_self ;;
  query_results <- collection_query description_embedding
                     (Nat.min 50 (collection_count e)) (fun _ => true) ;;
  rank_pool query_results top_k.

(** [RAGEngine.ingest_documents], line 355: [f"{case_id}_{file_name}"]. *)
Definition doc_key (case_id file_name : string) : string :=
  case_id ++ "_" ++ file_name.

Definition file_name_of (doc : Document) : string :=
  or_default (PyDict.get "file_name" (doc_metadata doc)) "unknown".

(** Line 333. *)
Definition ingest_manifest_path (case_dir : Path) : Path :=
  joinpath (parent (parent case_dir)) ".ingestion_manifest.json".

(** Lines 352-379: the loop over the documents, with the local variables
    [manifest], [ingested_count] and [skipped_count] threaded through. *)
Fixpoint ingest_loop (case_dir : Path) (case_id : string)
    (metadata : option Metadata) (force_reingest : bool)
    (documents : list Document) (manifest : Manifest)
    (ingested_count skipped_count : nat) : M (Manifest * IngestResult) :=
  match documents with
  | [] => ret (manifest, {| ingested := ingested_count; skipped := skipped_count |})
  | doc :: rest =>
      let file_name := file_name_of doc in
      let doc_key := doc_key case_id file_name in
      if PyDict.mem doc_key manifest && negb force_reingest then
        print (SkippingLine file_name) ;;;
        ingest_loop case_dir case_id metadata force_reingest rest manifest
          ingested_count (S skipped_count)
      else
        let md := PyDict.set "case_id" case_id (doc_metadata doc) in
        (* [if metadata:] an empty dict updates nothing *)
        let md := match metadata with
                  | Some extra => PyDict.update md extra
                  | None => md
                  end in
        index_insert {| doc_text := doc_text doc; doc_metadata := md |} ;;;
        let manifest :=
          PyDict.set doc_key
            {| entry_case_id := case_id;
               entry_file_name := file_name;
               entry_ingested_at := case_dir |} manifest in
        print (IngestedLine file_name) ;;;
        ingest_loop case_dir case_id metadata force_reingest rest manifest
          (S ingested_count) skipped_count
  end.

(** [RAGEngine.ingest_documents] *)
Definition ingest_documents (case_dir : Path) (case_id : string)
    (metadata : option Metadata) (force_reingest : bool) : M IngestResult :=
  check_initialized "RAG engine not initialized. Call initialize() first." ;;;
  let manifest_path := ingest_manifest_path case_dir in
  content <- read_file manifest_path ;;
  manifest <-
    match content with
    | Absent => ret PyDict.empty
    | Unparsable => print ManifestLoadWarning ;;; ret PyDict.empty
    | Parsed manifest => ret manifest
    end ;;
  documents <- (fun m => (load_data env case_dir, m)) ;;
  done <- ingest_loop case_dir case_id metadata force_reingest documents
            manifest 0 0 ;;
  (if writable env manifest_path
   then write_file manifest_path (Parsed (fst done))
   else print ManifestSaveWarning) ;;;
  ret (snd done).

(** Lines 443 and 421. *)
Definition clear_manifest_path : Path :=
  joinpath DATA_DIR ".ingestion_manifest.json".

(** Line 449. *)
Definition keys_to_remove (case_id : string) (manifest : Manifest) : list string :=
  filter (fun k => PyStr.startswith k (case_id ++ "_")) (PyDict.keys manifest).

(** Lines 450-451. *)
Definition remove_keys (keys : list string) (manifest : Manifest) : Manifest :=
  fold_left (fun d k => PyDict.del k d) keys manifest.

(** [RAGEngine.clear_case_documents] *)
Definition clear_case_documents (case_id : string) : M nat :=
  check_initialized "RAG engine not initialized." ;;;
  content <- read_file clear_manifest_path ;;
  match content with
  | Absent => print NoManifestLine ;;; ret 0%nat
  | Unparsable => print (ClearErrorLine case_id) ;;; ret 0%nat
  | Parsed manifest =>
      let keys := keys_to_remove case_id manifest in
      if writable env clear_manifest_path then
        write_file clear_manifest_path (Parsed (remove_keys keys manifest)) ;;;
        print (ClearedLine (List.length keys) case_id) ;;;
        print ClearNoteLine ;;;
        ret (List.length keys)
      else
        print (ClearErrorLine case_id) ;;; ret 0%nat
  end.

(* ================================================================= *)
(** ** The request handlers of main.py *)

(** The module-level [rag_engine] (None until start-up has run) and the rest
    of the state. *)
Record Server := {
  rag_engine : option RAGEngine;
  server_files : Path -> ManifestFile;
  server_calls : list ExternalCall;
  server_stdout : list Output
}.

Definition machine_of (e : RAGEngine) (s : Server) : Machine :=
  {| self := e; files := server_files s; calls := server_calls s;
     stdout := server_stdout s |}.

Definition server_of (m : Machine) : Server :=
  {| rag_engine := Some (self m); server_files := files m;
     server_calls := calls m; server_stdout := stdout m |}.

(** Runs a method of the engine inside [try: ... except Exception as e: raise
    HTTPException(500, prefix + str(e))]. *)
Definition call_engine {A : Type} (prefix : string) (e : RAGEngine) (c : M A)
    (s : Server) : Outcome A * Server :=
  match c (machine_of e s) with
  | (Return a, m) => (Return a, server_of m)
  | (Raise ex, m) => (Raise (HTTPException 500 (prefix ++ str_exn ex)), server_of m)
  end.

(** [query_documents] *)
Definition query_documents (request : QueryRequest) (s : Server)
    : Outcome QueryResult * Server :=
  match rag_engine s with
  | None => (Raise (HTTPException 503 "RAG engine not initialized"), s)
  | Some e =>
      if negb (PyStr.truthy (request_query request))
         || negb (PyStr.truthy (PyStr.strip (request_query request)))
      then (Raise (HTTPException 400 "Query cannot be empty"), s)
      else call_engine "Query failed: " e
             (query (request_query request) (request_case_id request)) s
  end.

(** [search_cases] of main.py: the handler of [/search-cases]. *)
Definition search_cases_handler (request : CaseSearchRequest) (s : Server)
    : Outcome (list CaseSearchResult) * Server :=
  match rag_engine s with
  | None => (Raise (HTTPException 503 "RAG engine not initialized"), s)
  | Some e =>
      if negb (PyStr.truthy (request_description request))
         || negb (PyStr.truthy (PyStr.strip (request_description request)))
      then (Raise (HTTPException 400 "Description cannot be empty"), s)
      else call_engine "Case search failed: " e
             (search_cases (request_description request) 5) s
  end.

End Engine.


(* ================================================================= *)
(** ** More of Python's strings and paths *)

Module PyText.

(** [c.lower()] for a code point below 256: the ASCII capitals and the
    capitals of Latin-1 (192-222 but the multiplication sign 215). *)
Definition lower_char (c : ascii) : ascii :=
  let n := nat_of_ascii c in
  if ((65 <=? n) && (n <=? 90)
      || (192 <=? n) && (n <=? 222) && negb (n =? 215))%nat
  then ascii_of_nat (n + 32) else c.

(** [s.lower()] *)
Fixpoint lower (s : string) : string :=
  match s with
  | EmptyString => EmptyString
  | String c s' => String (lower_char c) (lower s')
  end.

(** [s * n] *)
Fixpoint times (s : string) (n : nat) : string :=
  match n with
  | O => EmptyString
  | S n' => s ++ times s n'
  end.

(** [x in l] for a list (or a set) of strings. *)
Definition mem (x : string) (l : list string) : bool :=
  existsb (String.eqb x) l.

(** [str(p)] for a relative path: its components joined by the separator;
    [str(Path("."))] is ["."]. *)
Definition str_path (p : PathLib.Path) : string :=
  match p with
  | [] => "."
  | _ => String.concat "/" p
  end.

End PyText.

(* ================================================================= *)
(** ** models.py: the other models *)

Record Case := {
  case_case_id : string;
  case_title : string;
  case_date : string;
  case_document_count : Z
}.

Record HealthResponse := {
  health_status : string;
  health_vector_db : string;
  health_documents_loaded : nat
}.

(** [force_reingest] and [clear_first] default to [False], [metadata] to
    [None]. *)
Record IngestRequest := {
  ingest_case_id : string;
  ingest_metadata : option Metadata;
  ingest_force_reingest : bool;
  ingest_clear_first : bool
}.

Record IngestResponse := {
  ingest_status : string;
  documents_added : nat;
  documents_skipped : nat
}.

(* ================================================================= *)
(** ** case_schema.py: the models of a metadata file *)

Module CaseSchema.

Record DocumentMetadata := {
  filename : string;
  type : string;
  date : string;
  description : string
}.

Record CaseMetadata := {
  case_id : string;
  title : string;
  defendant : string;
  case_date : string;
  court : string;
  evaluator : string;
  question : string;
  summary : option string;
  documents : list DocumentMetadata;
  key_findings : list string
}.

(** What [json.load] and the construction [CaseMetadata] from the loaded
    value make of a metadata file, before the validators of the source have their say:
    - the text is not JSON;
    - another exception is raised (the value is not an object, the file
      cannot be read);
    - a field is missing or has not its declared type: the error lines as
      lines 113-116 render them, and the values of the fields [summary],
      [documents.type] and [key_findings] that are handed to their
      validators all the same;
    - every field has its declared type; the validators of [summary] and of
      [key_findings] are called when the file gives the field, not on its
      default. *)
Inductive Loaded :=
| InvalidJSON (msg : string)
| Failure (msg : string)
| IllTyped (errors : list string) (handed_summary : option (option string))
           (handed_types : list string)
           (handed_key_findings : option (list string))
| WellTyped (fields : CaseMetadata) (summary_given key_findings_given : bool).

(** The answer of a validator: the value it returns or the [ValueError] it
    raises. *)
Inductive Validated (A : Type) :=
| Accepted (v : A)
| ValueError (msg : string).

Arguments Accepted {A} v.
Arguments ValueError {A} msg.

End CaseSchema.

(* ================================================================= *)
(** ** The console *)

Inductive Level := INFO | WARNING | ERROR.

(** The records of the loggers of ingest.py and case_schema.py, by the line
    that writes them; [Message] is a record of fixed text. *)
Inductive LogRecord :=
| Message (text : string)
(* ingest.py *)
| CaseDirectoryNotFound (case_dir : Path)          (* 81 *)
| PathNotDirectory (case_dir : Path)               (* 84 *)
| ValidatingCase (case_id : string)                (* 106 *)
| ValidStructure                                   (* 111 *)
| ValidationFailed                                 (* 114 *)
| ValidationErrorItem (error : string)             (* 116 *)
| ProcessingCase (case_id : string)                (* 137 *)
| NoDocumentsFound (case_id : string)              (* 149 *)
| FoundDocuments (n : nat)                         (* 152 *)
| IngestedDocuments (n : nat)                      (* 169 *)
| SkippedDocuments (n : nat)                       (* 171 *)
| IngestionError (case_id : string) (e : string)   (* 176 *)
| CasesProcessed (n : nat)                         (* 184 *)
| CasesSuccessful (n : nat)                        (* 185 *)
| CasesFailed (n : nat)                            (* 186 *)
| DocumentsIngested (n : nat)                      (* 187 *)
| DocumentsSkipped (n : nat)                       (* 188 *)
| TotalChunks (n : nat)                            (* 189 *)
| FoundCaseDirectories (n : nat)                   (* 213 *)
| ValidCases (valid total : nat)                   (* 226 *)
(* case_schema.py *)
| NonStandardType (v : string)                     (* 32-35 *)
| NoSummary                                        (* 66-69 *)
| NoKeyFindings                                    (* 77-80 *)
| MissingDocumentFile (filename : string)          (* 168-170 *)
| UnlistedDocuments (names : list string).         (* 183-185 *)

(** A line of the console: a line printed by a method of Part I's engine, a
    line printed by [clear_all_documents] or at start-up, or a record of a
    logger. *)
Inductive Line :=
| Printed (line : Output)
| ClearedAllLine                                   (* rag_engine.py 425 *)
| ClearAllErrorLine (e : string)                   (* rag_engine.py 428 *)
| InitializingLine                                 (* main.py 31 *)
| InitializedLine                                  (* main.py 34 *)
| Logged (level : Level) (record : LogRecord).

(* ================================================================= *)
(** ** The host: what the rest of the program reads outside itself *)

(** The file system, the metadata files as case_schema.py loads them, and
    the calls that administer the store.  A file name or case identifier is
    joined to a directory as one component of the path. *)
Record Host := {
  (* p.exists(), p.is_dir(), p.is_file() *)
  path_exists : Path -> bool;
  path_is_dir : Path -> bool;
  path_is_file : Path -> bool;
  (* the names of p.iterdir(), in its order *)
  path_iterdir : Path -> Outcome (list string);
  (* the names of p.glob(pattern), in its order; glob passes over what it
     cannot read and does not raise *)
  path_glob : Path -> string -> list string;
  (* f.suffix of a file name *)
  name_suffix : string -> string;
  (* p.unlink() *)
  path_unlink : Path -> Outcome unit;
  (* json.load and the construction of CaseMetadata on a metadata file *)
  load_case_metadata : Path -> CaseSchema.Loaded;
  (* err['msg'] of the ValueError that a validator raises *)
  value_error_msg : string -> string;
  (* lines 64-101 of initialize: the settings, the client, the collection,
     the index and the query engine *)
  connect : Outcome unit;
  (* the content of the collection "forensic_cases" that initialize opens *)
  stored : list Node;
  (* chroma_client.delete_collection("forensic_cases") *)
  delete_collection : Outcome unit;
  (* lines 401-418 of clear_all_documents, after the deletion:
     create_collection and the vector store, the storage context, the index
     and the query engine made on the new collection *)
  recreate_collection : Outcome unit;
  (* _original_contextsize *)
  original_contextsize : string -> Outcome Z
}.

(** The state of the process: the engine object that the module (main.py)
    or the script (ingest.py) holds, [None] before it is made; the manifest
    files; the provider calls; the console. *)
Record World := {
  world_engine : option RAGEngine;
  world_files : Path -> ManifestFile;
  world_calls : list ExternalCall;
  console : list Line
}.

Definition W (A : Type) : Type := World -> Outcome A * World.

Definition wret {A : Type} (a : A) : W A := fun w => (Return a, w).

Definition wraise {A : Type} (e : Exn) : W A := fun w => (Raise e, w).

Definition wbind {A B : Type} (c : W A) (k : A -> W B) : W B :=
  fun w =>
    match c w with
    | (Return a, w') => k a w'
    | (Raise e, w') => (Raise e, w')
    end.

Declare Scope world_scope.
Delimit Scope world_scope with world.
Notation "x <- c ;; k" := (wbind c (fun x => k))
  (at level 61, c at next level, right associativity) : world_scope.
Notation "c ;;; k" := (wbind c (fun _ => k))
  (at level 61, right associativity) : world_scope.

(** [try: c except Exception as e: handler e] *)
Definition wtry {A : Type} (c : W A) (handler : Exn -> W A) : W A :=
  fun w =>
    match c w with
    | (Return a, w') => (Return a, w')
    | (Raise e, w') => handler e w'
    end.

Definition emit (line : Line) : W unit :=
  fun w => (Return tt,
            {| world_engine := world_engine w; world_files := world_files w;
               world_calls := world_calls w;
               console := (console w ++ [line])%list |}).

(** [logger.info], [logger.warning], [logger.error] *)
Definition logger (level : Level) (record : LogRecord) : W unit :=
  emit (Logged level record).

Definition of_outcome {A : Type} (r : Outcome A) : W A := fun w => (r, w).

Definition get_engine : W (option RAGEngine) :=
  fun w => (Return (world_engine w), w).

Definition set_engine (e : RAGEngine) : W unit :=
  fun w => (Return tt,
            {| world_engine := Some e; world_files := world_files w;
               world_calls := world_calls w; console := console w |}).

(** The machine that a method of the engine [e] runs in, its output empty,
    and the state of the process after the run: the lines the method printed
    come last on the console. *)
Definition machine_in (e : RAGEngine) (w : World) : Machine :=
  {| self := e; files := world_files w; calls := world_calls w; stdout := [] |}.

Definition world_after (w : World) (m : Machine) : World :=
  {| world_engine := Some (self m); world_files := files m;
     world_calls := calls m;
     console := (console w ++ map Printed (stdout m))%list |}.

(** [rag_engine.method(...)]: the call of a method of Part I on the engine
    of the process; on [None] Python raises [AttributeError]. *)
Definition invoke {A : Type} (method : string) (c : M A) : W A :=
  fun w =>
    match world_engine w with
    | None =>
        (Raise (ExternalError
                  ("'NoneType' object has no attribute '" ++ method ++ "'")), w)
    | Some e =>
        (fst (c (machine_in e w)), world_after w (snd (c (machine_in e w))))
    end.

(** [for x in l: f x] *)
Fixpoint for_each {A : Type} (f : A -> W unit) (l : list A) : W unit :=
  match l with
  | [] => wret tt
  | x :: l' => wbind (f x) (fun _ => for_each f l')
  end.

(* ================================================================= *)
(** ** The rest of rag_engine.py *)

Section Program.

Variable env : Env.
Variable host : Host.

Local Open Scope world_scope.

(** [_patched_contextsize], lines 19-25. *)
Definition _patched_contextsize (modelname : string) : Outcome Z :=
  if PyStr.startswith modelname "claude-sonnet-4" then Return 200000%Z
  else if PyStr.startswith modelname "claude-opus-4" then Return 200000%Z
  else original_contextsize host modelname.

(** [RAGEngine()]: an engine that is not initialised.  Its
    [chroma_collection] stands for the collection that [initialize] will
    open. *)
Definition new_engine : RAGEngine :=
  {| initialized := false; chroma_collection := stored host |}.

Definition set_initialized : M unit :=
  fun m => (Return tt,
            {| self := {| initialized := true;
                          chroma_collection := chroma_collection (self m) |};
               files := files m; calls := calls m; stdout := stdout m |}).

(** [RAGEngine.initialize] *)
Definition initialize : M unit :=
  (e <- get_self ;;
   if initialized e then ret tt
   else (fun m => (connect host, m)) ;;; set_initialized)%monad.

(** [RAGEngine.get_cases], lines 177-210: the case of one directory. *)
Definition glob_all (name : string) : Z := or_default (glob_count env name) 0%Z.

Definition basic_case (name : string) (doc_count : Z) : Case :=
  {| case_case_id := name; case_title := name; case_date := "Unknown";
     case_document_count := doc_count |}.

(** Lines 180-200.  [Case] is constructed inside the [try]: whatever
    raises there (a value without length under 'documents', a case
    identifier, title or date that is not a [str]) leads to the basic case
    of the [except] branch. *)
Definition case_of_directory (name : string) : Case :=
  match read_metadata env name with
  | GoodMetadata md =>
      match as_str (or_default (meta_case_id md) (PyString name)),
            as_str (or_default (meta_title md) (PyString name)),
            as_str (or_default (meta_date md) (PyString "Unknown")),
            py_len (or_default (meta_documents md) (PyArray [])) with
      | Some case_id, Some title, Some date, Some n =>
          {| case_case_id := case_id; case_title := title; case_date := date;
             case_document_count := Z.of_nat n |}
      | _, _, _, _ => basic_case name (Z.max 0 (glob_all name - 1))
      end
  | BadMetadata => basic_case name (Z.max 0 (glob_all name - 1))
  | NoMetadata => basic_case name (glob_all name)
  end.

(** Lines 173-210: the loop over the entries of [DATA_DIR], with the local
    variable [cases] threaded through. *)
Fixpoint get_cases_loop (names : list string) (cases : list Case) : list Case :=
  match names with
  | [] => cases
  | name :: rest =>
      if negb (path_is_dir host (joinpath DATA_DIR name))
      then get_cases_loop rest cases
      else get_cases_loop rest (cases ++ [case_of_directory name])%list
  end.

(** [RAGEngine.get_cases] *)
Definition get_cases : Outcome (list Case) :=
  if negb (path_exists host DATA_DIR) then Return []
  else
    match path_iterdir host DATA_DIR with
    | Raise e => Raise e
    | Return names => Return (get_cases_loop names [])
    end.

Definition set_collection (nodes : list Node) : M unit :=
  fun m => (Return tt,
            {| self := {| initialized := initialized (self m);
                          chroma_collection := nodes |};
               files := files m; calls := calls m; stdout := stdout m |}).

(** [RAGEngine.clear_all_documents].  Once the deletion has gone through
    the collection holds nothing.  When lines 401-418 then fail, the method
    returns [False] as for every exception, and the engine is left with
    handles on what has been deleted: what its methods do on them is not
    modelled, and the model shows an engine whose collection is empty. *)
Definition clear_all_documents : W bool :=
  invoke "clear_all_documents" (check_initialized "RAG engine not initialized.") ;;;
  wtry
    (of_outcome (delete_collection host) ;;;
     invoke "clear_all_documents" (set_collection []) ;;;
     of_outcome (recreate_collection host) ;;;
     content <- invoke "clear_all_documents" (read_file clear_manifest_path) ;;
     match content with
     | Absent => wret tt
     | _ =>
         of_outcome (path_unlink host clear_manifest_path) ;;;
         invoke "clear_all_documents" (write_file clear_manifest_path Absent)
     end ;;;
     emit ClearedAllLine ;;;
     wret true)
    (fun e => emit (ClearAllErrorLine (str_exn e)) ;;; wret false).

(* ================================================================= *)
(** ** The rest of main.py *)

(** [lifespan], lines 29-34: start-up. *)
Definition lifespan_startup : W unit :=
  emit InitializingLine ;;;
  set_engine new_engine ;;;
  invoke "initialize" initialize ;;;
  emit InitializedLine.

(** [health_check] *)
Definition health_check : W HealthResponse :=
  rag_engine <- get_engine ;;
  match rag_engine with
  | None => wraise (HTTPException 503 "RAG engine not initialized")
  | Some _ =>
      doc_count <- invoke "get_document_count"
                     (fun m => (Return (get_document_count m), m)) ;;
      wret {| health_status := "ok"; health_vector_db := "connected";
              health_documents_loaded := doc_count |}
  end.

(** [list_cases] *)
Definition list_cases : W (list Case) :=
  rag_engine <- get_engine ;;
  match rag_engine with
  | None => wraise (HTTPException 503 "RAG engine not initialized")
  | Some _ =>
      wtry (of_outcome get_cases)
        (fun e => wraise (HTTPException 500
                            ("Failed to list cases: " ++ str_exn e)))
  end.

(** [ingest_documents] of main.py: the handler of [/ingest]. *)
Definition ingest_documents_handler (request : IngestRequest) : W IngestResponse :=
  rag_engine <- get_engine ;;
  match rag_engine with
  | None => wraise (HTTPException 503 "RAG engine not initialized")
  | Some _ =>
      wtry
        ((if ingest_clear_first request then
            success <- clear_all_documents ;;
            if negb success
            then wraise (HTTPException 500 "Failed to clear vector store")
            else wret tt
          else wret tt) ;;;
         let case_dir := joinpath DATA_DIR (ingest_case_id request) in
         if negb (path_exists host case_dir)
         then wraise (HTTPException 404
                        ("Case directory not found: " ++ ingest_case_id request))
         else
           result <- invoke "ingest_documents"
                       (ingest_documents env case_dir (ingest_case_id request)
                          (ingest_metadata request)
                          (ingest_force_reingest request)) ;;
           wret {| ingest_status := "success";
                   documents_added := ingested result;
                   documents_skipped := skipped result |})
        (fun e =>
           match e with
           | HTTPException _ _ => wraise e
           | _ => wraise (HTTPException 500 ("Ingestion failed: " ++ str_exn e))
           end)
  end.

(* ================================================================= *)
(** ** case_schema.py *)

(** [DocumentMetadata.validate_type]: the value is returned whatever it is;
    a type outside the list is logged. *)
Definition allowed_types : list string :=
  ["evaluation_report"; "testimony"; "correspondence"; "risk_assessment";
   "civil_commitment"].

Definition validate_type (v : string) : W string :=
  (if negb (PyText.mem v allowed_types)
   then logger WARNING (NonStandardType v) else wret tt) ;;;
  wret v.

(** [CaseMetadata.validate_case_id] *)
Definition validate_case_id (v : string) : CaseSchema.Validated string :=
  if negb (PyStr.startswith v "case_")
  then CaseSchema.ValueError "case_id must start with 'case_'"
  else CaseSchema.Accepted v.

(** [CaseMetadata.warn_if_no_summary] *)
Definition warn_if_no_summary (v : option string) : W (option string) :=
  (if match v with
      | None => true
      | Some s => negb (PyStr.truthy s) || negb (PyStr.truthy (PyStr.strip s))
      end
   then logger WARNING NoSummary else wret tt) ;;;
  wret v.

(** [CaseMetadata.warn_if_no_findings] *)
Definition warn_if_no_findings (v : list string) : W (list string) :=
  (if (List.length v =? 0)%nat then logger WARNING NoKeyFindings else wret tt) ;;;
  wret v.

(** The validators that only warn, in the order of the fields: [summary],
    the [type] of each document, [key_findings]. *)
Definition run_warnings (handed_summary : option (option string))
    (handed_types : list string) (handed_key_findings : option (list string))
    : W unit :=
  match handed_summary with
  | Some v => warn_if_no_summary v ;;; wret tt
  | None => wret tt
  end ;;;
  for_each (fun v => validate_type v ;;; wret tt) handed_types ;;;
  match handed_key_findings with
  | Some v => warn_if_no_findings v ;;; wret tt
  | None => wret tt
  end.

(** [validate_case_metadata] *)
Definition validate_case_metadata (metadata_file : Path)
    : W (bool * option CaseSchema.CaseMetadata * list string) :=
  if negb (path_exists host metadata_file)
  then wret (false, None, ["metadata.json not found"])
  else
    match load_case_metadata host metadata_file with
    | CaseSchema.InvalidJSON msg =>
        wret (false, None, ["Invalid JSON: " ++ msg])
    | CaseSchema.Failure msg =>
        wret (false, None, ["Validation error: " ++ msg])
    | CaseSchema.IllTyped errors handed_summary handed_types handed_key_findings =>
        run_warnings handed_summary handed_types handed_key_findings ;;;
        wret (false, None, errors)
    | CaseSchema.WellTyped fields summary_given key_findings_given =>
        run_warnings
          (if summary_given then Some (CaseSchema.summary fields) else None)
          (map CaseSchema.type (CaseSchema.documents fields))
          (if key_findings_given then Some (CaseSchema.key_findings fields)
           else None) ;;;
        match validate_case_id (CaseSchema.case_id fields) with
        | CaseSchema.Accepted _ => wret (true, Some fields, [])
        | CaseSchema.ValueError msg =>
            wret (false, None, ["case_id: " ++ value_error_msg host msg])
        end
    end.

Definition allowed_extensions : list string := [".txt"; ".pdf"; ".docx"].

(** Lines 174-177: the documents found in the directory. *)
Definition actual_docs (case_dir : Path) (names : list string) : list string :=
  filter (fun f => path_is_file host (joinpath case_dir f)
                   && PyText.mem (PyText.lower (name_suffix host f))
                        allowed_extensions
                   && negb (String.eqb f "metadata.json")) names.

(** [validate_case_directory] *)
Definition validate_case_directory (case_dir : Path) (case_id : string)
    : W (bool * list string) :=
  if negb (path_exists host case_dir)
  then wret (false, ["Case directory does not exist: " ++ PyText.str_path case_dir])
  else if negb (path_is_dir host case_dir)
  then wret (false, ["Case path is not a directory: " ++ PyText.str_path case_dir])
  else
    let metadata_file := joinpath case_dir "metadata.json" in
    if negb (path_exists host metadata_file)
    then wret (false, ["metadata.json file not found in case directory"])
    else
      checked <- validate_case_metadata metadata_file ;;
      let '(is_valid, metadata_obj, metadata_errors) := checked in
      if negb is_valid then wret (false, metadata_errors)
      else
        match metadata_obj with
        | None =>
            wraise (ExternalError "'NoneType' object has no attribute 'case_id'")
        | Some metadata_obj =>
            let errors :=
              if negb (String.eqb (CaseSchema.case_id metadata_obj) case_id)
              then ["case_id in metadata.json ('"
                    ++ CaseSchema.case_id metadata_obj
                    ++ "') does not match directory name ('" ++ case_id ++ "')"]
              else [] in
            for_each
              (fun doc =>
                 if negb (path_exists host
                            (joinpath case_dir (CaseSchema.filename doc)))
                 then logger WARNING
                        (MissingDocumentFile (CaseSchema.filename doc))
                 else wret tt)
              (CaseSchema.documents metadata_obj) ;;;
            names <- of_outcome (path_iterdir host case_dir) ;;
            let listed_filenames :=
              map CaseSchema.filename (CaseSchema.documents metadata_obj) in
            let unlisted_docs :=
              filter (fun f => negb (PyText.mem f listed_filenames))
                     (actual_docs case_dir names) in
            match unlisted_docs with
            | [] => wret tt
            | _ => logger WARNING (UnlistedDocuments unlisted_docs)
            end ;;;
            wret ((List.length errors =? 0)%nat, errors)
        end.

(* ================================================================= *)
(** ** ingest.py *)

(** The arguments that [parse_arguments] returns. *)
Record Args := {
  args_case : option string;
  args_force : bool;
  args_clear : bool;
  args_validate_only : bool
}.

(** [get_case_directories] *)
Definition get_case_directories (data_path : Path) (case_filter : option string)
    : W (list Path) :=
  match case_filter with
  | Some (String c f) =>
      let case_dir := joinpath data_path (String c f) in
      if negb (path_exists host case_dir)
      then logger ERROR (CaseDirectoryNotFound case_dir) ;;; wret []
      else if negb (path_is_dir host case_dir)
      then logger ERROR (PathNotDirectory case_dir) ;;; wret []
      else wret [case_dir]
  | _ =>
      names <- of_outcome (path_iterdir host data_path) ;;
      wret (filter (path_is_dir host) (map (joinpath data_path) names))
  end.

(** [validate_cases], lines 104-116: the loop, with the local variable
    [valid_cases] threaded through. *)
Fixpoint validate_cases_loop (case_dirs valid_cases : list Path) : W (list Path) :=
  match case_dirs with
  | [] => wret valid_cases
  | case_dir :: rest =>
      let case_id := name case_dir in
      logger INFO (ValidatingCase case_id) ;;;
      checked <- validate_case_directory case_dir case_id ;;
      if fst checked then
        logger INFO ValidStructure ;;;
        validate_cases_loop rest (valid_cases ++ [case_dir])%list
      else
        logger ERROR ValidationFailed ;;;
        for_each (fun error => logger ERROR (ValidationErrorItem error))
                 (snd checked) ;;;
        validate_cases_loop rest valid_cases
  end.

(** [validate_cases] *)
Definition validate_cases (case_dirs : list Path) : W (list Path) :=
  validate_cases_loop case_dirs [].

(** The counters of [ingest_cases]. *)
Record Tally := {
  total_ingested : nat;
  total_skipped : nat;
  successful_cases : nat;
  failed_cases : nat
}.

(** Lines 140-146: the documents of a case directory. *)
Definition found_documents (case_dir : Path) : list string :=
  filter (fun d => negb (String.eqb d "metadata.json"))
         (path_glob host case_dir "*.txt" ++ path_glob host case_dir "*.pdf"
          ++ path_glob host case_dir "*.docx")%list.

(** [ingest_cases], lines 135-178: the loop, with the counters threaded
    through. *)
Fixpoint ingest_cases_loop (case_dirs : list Path) (force_reingest : bool)
    (t : Tally) : W Tally :=
  match case_dirs with
  | [] => wret t
  | case_dir :: rest =>
      let case_id := name case_dir in
      logger INFO (ProcessingCase case_id) ;;;
      match found_documents case_dir with
      | [] =>
          logger WARNING (NoDocumentsFound case_id) ;;;
          ingest_cases_loop rest force_reingest t
      | documents =>
          logger INFO (FoundDocuments (List.length documents)) ;;;
          t' <- wtry
                  (result <- invoke "ingest_documents"
                               (ingest_documents env case_dir case_id None
                                  force_reingest) ;;
                   (if (0 <? ingested result)%nat
                    then logger INFO (IngestedDocuments (ingested result))
                    else wret tt) ;;;
                   (if (0 <? skipped result)%nat
                    then logger INFO (SkippedDocuments (skipped result))
                    else wret tt) ;;;
                   wret {| total_ingested := total_ingested t + ingested result;
                           total_skipped := total_skipped t + skipped result;
                           successful_cases := successful_cases t + 1;
                           failed_cases := failed_cases t |})
                  (fun e =>
                     logger ERROR (IngestionError case_id (str_exn e)) ;;;
                     wret {| total_ingested := total_ingested t;
                             total_skipped := total_skipped t;
                             successful_cases := successful_cases t;
                             failed_cases := failed_cases t + 1 |}) ;;
          ingest_cases_loop rest force_reingest t'
      end
  end.

Definition rule (c : string) : LogRecord := Message (PyText.times c 70).

(** [ingest_cases] *)
Definition ingest_cases (case_dirs : list Path) (force_reingest : bool) : W unit :=
  t <- ingest_cases_loop case_dirs force_reingest
         {| total_ingested := 0; total_skipped := 0;
            successful_cases := 0; failed_cases := 0 |} ;;
  logger INFO (rule "=") ;;;
  logger INFO (Message "INGESTION COMPLETE") ;;;
  logger INFO (rule "-") ;;;
  logger INFO (CasesProcessed (successful_cases t + failed_cases t)) ;;;
  logger INFO (CasesSuccessful (successful_cases t)) ;;;
  logger INFO (CasesFailed (failed_cases t)) ;;;
  logger INFO (DocumentsIngested (total_ingested t)) ;;;
  logger INFO (DocumentsSkipped (total_skipped t)) ;;;
  count <- invoke "get_document_count"
             (fun m => (Return (get_document_count m), m)) ;;
  logger INFO (TotalChunks count) ;;;
  logger INFO (rule "=").

(** How [main] ends: it returns, or [sys.exit(code)] ends the script. *)
Inductive Exit :=
| Finished
| SystemExit (code : Z).

Definition banner (title : string) : W unit :=
  logger INFO (Message "") ;;;
  logger INFO (rule "=") ;;;
  logger INFO (Message title) ;;;
  logger INFO (rule "=").

(** [main], with the arguments that [parse_arguments] has read. *)
Definition main (args : Args) : W Exit :=
  logger INFO (Message "Starting document ingestion...") ;;;
  logger INFO (Message "Data directory: ./data/cases") ;;;
  if negb (path_exists host DATA_DIR) then
    logger ERROR (Message "Data directory not found: ./data/cases") ;;;
    wret (SystemExit 1)
  else
    case_dirs <- get_case_directories DATA_DIR (args_case args) ;;
    match case_dirs with
    | [] =>
        logger WARNING (Message "No case directories found") ;;;
        wret (SystemExit 0)
    | _ =>
        logger INFO (FoundCaseDirectories (List.length case_dirs)) ;;;
        banner "VALIDATING CASES" ;;;
        valid_cases <- validate_cases case_dirs ;;
        match valid_cases with
        | [] =>
            logger ERROR
              (Message "No valid cases found. Please fix validation errors.") ;;;
            wret (SystemExit 1)
        | _ =>
            logger INFO (ValidCases (List.length valid_cases)
                           (List.length case_dirs)) ;;;
            if args_validate_only args then
              logger INFO
                (Message "Validation complete (--validate-only flag set)") ;;;
              wret (SystemExit 0)
            else
              banner "INITIALIZING RAG ENGINE" ;;;
              set_engine new_engine ;;;
              invoke "initialize" initialize ;;;
              logger INFO (Message "RAG engine initialized") ;;;
              cleared <-
                (if args_clear args then
                   banner "CLEARING VECTOR STORE" ;;;
                   logger WARNING
                     (Message "This will delete all documents from the vector store!") ;;;
                   success <- clear_all_documents ;;
                   if success then
                     logger INFO (Message "Vector store cleared successfully") ;;;
                     wret true
                   else
                     logger ERROR (Message "Failed to clear vector store") ;;;
                     wret false
                 else wret true) ;;
              if negb cleared then wret (SystemExit 1)
              else
                banner "INGESTING DOCUMENTS" ;;;
                (if args_force args
                 then logger INFO
                        (Message "Force re-ingestion enabled (will re-ingest all documents)")
                 else wret tt) ;;;
                ingest_cases valid_cases (args_force args) ;;;
                wret Finished
        end
    end.

End Program.

(* ================================================================= *)
(** ** Notions used to state the properties *)

(** The case a row of the pool counts for: its [case_id] metadata, when
    present and not empty (lines 255-257). *)
Definition case_of (h : Hit) : option string :=
  match PyDict.get "case_id" (hit_metadata h) with
  | Some c => if PyStr.truthy c then Some c else None
  | None => None
  end.

(** The case identifiers of a pool, each once, in the order of their first
    rows. *)
Definition first_seen (pool : list Hit) : list string :=
  fold_left
    (fun seen h =>
       match case_of h with
       | Some c => if existsb (String.eqb c) seen then seen else (seen ++ [c])%list
       | None => seen
       end)
    pool [].

(** The value that a case's metadata file holds under 'summary', if any. *)
Definition stored_summary (f : MetadataFile) : option PyValue :=
  match f with
  | GoodMetadata md => meta_summary md
  | _ => None
  end.

(** A value under a key that is absent or of the type that [take] reads. *)
Definition typed {A : Type} (take : PyValue -> option A) (o : option PyValue)
    : bool :=
  match o with
  | Some v => match take v with Some _ => true | None => false end
  | None => true
  end.

(** The metadata files from which lines 302-309 can make a result: the
    title and the summary, when given, are of type [str], and the first
    five key findings, when given, a [list] of [str]. *)
Definition presentable (f : MetadataFile) : bool :=
  match f with
  | GoodMetadata md =>
      typed as_str (meta_title md) && typed as_str (meta_summary md)
      && typed first_findings (meta_key_findings md)
  | _ => true
  end.

(** A pool whose distances are numbers. *)
Definition numeric (pool : list Hit) : Prop :=
  Forall (fun h => is_nan (hit_distance h) = false) pool.

(** A pool whose distances are not negative, as those of the collection's
    metric (the squared L2 distance) are. *)
Definition nonnegative (pool : list Hit) : Prop :=
  Forall (fun h => (0 <=? hit_distance h)%float = true) pool.

(** A function of floats that keeps their order, as [round(x, 1)] does. *)
Definition monotone (f : float -> float) : Prop :=
  forall x y, (x <=? y)%float = true -> (f x <=? f y)%float = true.

(** What a run of a method leaves alone. *)
Definition same_store (m m' : Machine) : Prop :=
  chroma_collection (self m') = chroma_collection (self m).

Definition same_engine_and_files (m m' : Machine) : Prop :=
  self m' = self m /\ (forall p, files m' p = files m p) /\ calls m' = calls m.

(** [best_hit pool c s text]: among the rows of [pool] that count for the
    case [c], the row with similarity [s] and text [text] is the first one of
    highest similarity: rows of the case before it are strictly less similar,
    rows of the case after it are at most as similar. *)
Definition best_hit (pool : list Hit) (c : string) (s : float) (text : string) : Prop :=
  exists before h after,
    pool = (before ++ h :: after)%list /\
    case_of h = Some c /\
    s = similarity (hit_distance h) /\
    text = hit_document h /\
    (forall h', In h' before -> case_of h' = Some c ->
                (similarity (hit_distance h') <? s)%float = true) /\
    (forall h', In h' after -> case_of h' = Some c ->
                (similarity (hit_distance h') <=? s)%float = true).

(** Descending order of float keys. *)
Definition descending {A : Type} (key : A -> float) : list A -> Prop :=
  StronglySorted (fun a b => (key b <=? key a)%float = true).

(** [reports env case_texts item r]: the result [r] is the one built for
    the retained case [item]: its identifier, its similarity on the scale of
    line 305, [round(score * 100, 1)], and, when the case's metadata brings no
    summary, the first 300 characters of the retained text. *)
Definition reports (env : Env) (case_texts : PyDict.t string)
    (item : string * float) (r : CaseSearchResult) : Prop :=
  result_case_id r = fst item /\
  result_relevance_score r = round1 env (snd item * 100)%float /\
  (stored_summary (read_metadata env (fst item)) = None ->
   result_summary r
   = PyStr.take 300 (or_default (PyDict.get (fst item) case_texts) "")).

(** A computation preserves a relation between the states before and after
    it, whatever its outcome; it succeeds when it never raises. *)
Definition preserves {A : Type} (F : Machine -> Machine -> Prop) (c : M A) : Prop :=
  forall m, F m (snd (c m)).

Definition succeeds {A : Type} (c : M A) : Prop :=
  forall m, exists a, fst (c m) = Return a.

(** The files, the output and the engine's flag are as before. *)
Definition same_files_output_flag (m m' : Machine) : Prop :=
  files m' = files m /\ stdout m' = stdout m /\
  initialized (self m') = initialized (self m).

(** The embedding provider answers every request. *)
Definition provider_answers (env : Env) : Prop :=
  forall text, exists e, get_text_embedding env text = Return e.

(** The manifest key of a document under a case. *)
Definition key_of (case_id : string) (doc : Document) : string :=
  doc_key case_id (file_name_of doc).

(** A computation reads the engine only: its outcome and the engine it
    leaves depend on nothing else in the state. *)
Definition reads_engine_only {A : Type} (c : M A) : Prop :=
  forall m1 m2, self m1 = self m2 ->
    fst (c m1) = fst (c m2) /\ self (snd (c m1)) = self (snd (c m2)).

(** Whether a manifest key is taken to belong to a case (line 449). *)
Definition matches_case (case_id : string) (item : string * ManifestEntry) : bool :=
  PyStr.startswith (fst item) (case_id ++ "_").

(** Nothing but the file at [path] (and the output) has changed. *)
Definition only_file_changed (path : Path) (m m' : Machine) : Prop :=
  self m' = self m /\ calls m' = calls m /\
  forall p, p <> path -> files m' p = files m p.

(* ================================================================= *)
(** ** Numbers of a binary format and their rounding *)

(** The notions in which the arithmetic of [similarity] is stated: the real
    number a float stands for and the rounding to nearest, ties to even, that
    [SpecFloat]'s operations perform. *)

Definition bpow (e : Z) : R := powerRZ 2 e.

(** The value of the mantissa [m] at the exponent [e]. *)
Definition F2R (m e : Z) : R := (IZR m * bpow e)%R.

(** [rounds x k n]: on the grid of step [2^k] the integer [n] is nearest to
    [x], ties going to the even one. *)
Definition rounds (x : R) (k n : Z) : Prop :=
  ((IZR n - /2) * bpow k <= x <= (IZR n + /2) * bpow k)%R /\
  (x = ((IZR n - /2) * bpow k)%R \/ x = ((IZR n + /2) * bpow k)%R ->
   Z.even n = true).

(** [cexp prec emax x k]: [k] is the exponent of the format at [x]. *)
Definition cexp (prec emax : Z) (x : R) (k : Z) : Prop :=
  exists e, (x < bpow e)%R /\ SpecFloat.fexp prec emax e = k /\
            ((bpow (e - 1) <= x)%R \/ k = SpecFloat.emin prec emax).

(** [inbetween a b x l]: the location [l] tells where [x] lies between [a]
    and [b]. *)
Definition inbetween (a b x : R) (l : location) : Prop :=
  match l with
  | loc_Exact => x = a
  | loc_Inexact Lt => (a < x < (a + b) / 2)%R
  | loc_Inexact Eq => x = ((a + b) / 2)%R
  | loc_Inexact Gt => ((a + b) / 2 < x < b)%R
  end.

(** [represents m e l x]: the mantissa [m] at the exponent [e], with the
    location [l], is the truncation of [x]. *)
Definition represents (m e : Z) (l : location) (x : R) : Prop :=
  inbetween (F2R m e) (F2R (m + 1) e) x l.

(** [rounded_to emax r n k]: the float [r] stands for the grid point
    [n * 2^k]: a positive zero when [n = 0], a positive finite float of that
    value, or the positive infinity when the value reaches [2^emax]. *)
Definition rounded_to (emax : Z) (r : spec_float) (n k : Z) : Prop :=
  match r with
  | S754_zero s => s = false /\ n = 0%Z
  | S754_finite s m e => s = false /\ F2R (Zpos m) e = F2R n k
  | S754_infinity s => s = false /\ (bpow emax <= F2R n k)%R
  | S754_nan => False
  end.

(** [rounds_to prec emax r x]: the float [r] is the rounding of the number
    [x]. *)
Definition rounds_to (prec emax : Z) (r : spec_float) (x : R) : Prop :=
  exists n k, cexp prec emax x k /\ rounds x k n /\ (0 <= n)%Z /\
              rounded_to emax r n k.

(** The float [1.0]. *)
Definition SFone : spec_float := S754_finite false 4503599627370496 (-52).

(** The float [100.0]. *)
Definition SFhundred : spec_float := S754_finite false 7036874417766400 (-46).

(** The largest finite float. *)
Definition max_float : float := 0x1.fffffffffffffp+1023%float.

(* ================================================================= *)
(** ** More notions *)

(** The metadata that [ingest_documents] attaches to a document before it is
    inserted (lines 364-366). *)
Definition attached_metadata (case_id : string) (metadata : option Metadata)
    (doc : Document) : Metadata :=
  let md := PyDict.set "case_id" case_id (doc_metadata doc) in
  match metadata with
  | Some extra => PyDict.update md extra
  | None => md
  end.

(** The collection has only grown: the fragments [new] came after those it
    held. *)
Definition appended (m m' : Machine) (new : list Node) : Prop :=
  chroma_collection (self m') = (chroma_collection (self m) ++ new)%list.

(** The collection has only grown, the files and the engine's flag are as
    before. *)
Definition grows (m m' : Machine) : Prop :=
  (exists new, appended m m' new) /\
  files m' = files m /\
  initialized (self m') = initialized (self m).

(** The manifest that a run of [ingest_documents] starts from. *)
Definition loaded_manifest (f : ManifestFile) : Manifest :=
  match f with
  | Parsed manifest => manifest
  | _ => PyDict.empty
  end.

(** The fragments that the insertion of a document's text yields. *)
Definition fragments_of (env : Env) (documents : list Document) : list string :=
  flat_map (fun doc => node_parser env (doc_text doc)) documents.

(** An outcome that is a value or an [HTTPException] with one of the given
    status codes. *)
Definition answers {A : Type} (codes : list Z) (o : Outcome A) : Prop :=
  match o with
  | Return _ => True
  | Raise (HTTPException code _) => In code codes
  | Raise _ => False
  end.

(** An outcome that is a value or an [HTTPException]. *)
Definition http_only {A : Type} (o : Outcome A) : Prop :=
  match o with
  | Return _ => True
  | Raise (HTTPException _ _) => True
  | Raise _ => False
  end.

(** The engine after [clear_all_documents]. *)
Definition emptied : RAGEngine :=
  {| initialized := true; chroma_collection := [] |}.

(** A computation that, beyond the console, leaves the process as it was and
    whose outcome does not depend on the state it runs in: it reads the
    host only. *)
Definition detached {A : Type} (c : W A) : Prop :=
  (forall w, world_engine (snd (c w)) = world_engine w /\
             world_files (snd (c w)) = world_files w /\
             world_calls (snd (c w)) = world_calls w) /\
  (forall w1 w2, fst (c w1) = fst (c w2)).

Definition blank_world : World :=
  {| world_engine := None; world_files := fun _ => Absent;
     world_calls := []; console := [] |}.

(** The case directories that [validate_case_directory] accepts. *)
Definition accepted (host : Host) (case_dir : Path) : bool :=
  match fst (validate_case_directory host case_dir (name case_dir) blank_world) with
  | Return (true, _) => true
  | _ => false
  end.

(** The case directories in which [ingest_cases] finds documents. *)
Definition has_documents (host : Host) (case_dir : Path) : bool :=
  match found_documents host case_dir with
  | [] => false
  | _ => true
  end.

(* ================================================================= *)
(** ** Sample inputs *)

(** Concrete collaborators, files and states on which the properties below
    are exercised. *)
Module Sample.

(** [n] copies of a character. *)
Fixpoint replicate (n : nat) (c : ascii) : string :=
  match n with
  | O => EmptyString
  | S n' => String c (replicate n' c)
  end.

Definition case_dir : Path := ["data"; "cases"; "case_001"].

Definition document (file_name text : string) : Document :=
  {| doc_text := text; doc_metadata := [("file_name", file_name)] |}.

Definition documents : list Document :=
  [document "evaluation.txt" "Competency evaluation";
   document "testimony.txt" "Expert testimony"].

(** A toy embedding (the length of the text) and metric (the absolute
    difference); the rounding is left out of the sample. *)
Definition env : Env :=
  {| get_text_embedding := fun text =>
       Return [PrimFloat.of_uint63 (Uint63.of_Z (Z.of_nat (String.length text)))];
     complete := fun _ _ => Return "answer";
     distance := fun a b =>
       match a, b with
       | [x], [y] => PrimFloat.abs (x - y)
       | _, _ => 0%float
       end;
     native_score := fun d => (1 - d)%float;
     node_parser := fun text => [text];
     load_data := fun p =>
       if PathLib.eqb p case_dir then Return documents
       else Raise (ExternalError "No files found");
     query_failure := fun _ _ => None;
     read_metadata := fun _ => NoMetadata;
     result_error := fun _ _ _ => "validation error for CaseSearchResult";
     glob_count := fun _ => None;
     writable := fun _ => true;
     TOP_K_RETRIEVAL := 5;
     round1 := fun x => x;
     elapsed_ms := 12 |}.

Definition node (case_id file_name text : string) (e : float) : Node :=
  {| node_text := text;
     node_metadata := [("file_name", file_name); ("case_id", case_id)];
     node_embedding := [e] |}.

Definition no_files : Path -> ManifestFile := fun _ => Absent.

Definition machine (nodes : list Node) (fs : Path -> ManifestFile) : Machine :=
  {| self := {| initialized := true; chroma_collection := nodes |};
     files := fs; calls := []; stdout := [] |}.

Definition server (nodes : list Node) : Server :=
  {| rag_engine := Some {| initialized := true; chroma_collection := nodes |};
     server_files := no_files; server_calls := []; server_stdout := [] |}.

Definition entry (case_id file_name : string) : ManifestEntry :=
  {| entry_case_id := case_id; entry_file_name := file_name;
     entry_ingested_at := joinpath DATA_DIR case_id |}.

Definition hit (case_id text : string) (d : float) : Hit :=
  {| hit_metadata := [("case_id", case_id)]; hit_document := text;
     hit_distance := d |}.

(** The double nearest to 0.1, which is what Python reads [0.1] as. *)
Definition tenth : float := 0x1.999999999999ap-4%float.

(** The scenario of the specification: three rows of [case_001] at
    distances 0, 0.5 and 2, and one row of [case_002] at distance 0.1. *)
Definition scenario_pool : list Hit :=
  [hit "case_001" "first" 0; hit "case_001" "second" 0.5;
   hit "case_001" "third" 2; hit "case_002" "other" tenth].

(** A fragment of 201 characters. *)
Definition long_node : NodeWithScore :=
  {| nws_text := replicate 201 "a";
     nws_metadata := [("file_name", "evaluation.txt")];
     nws_score := 0.5%float |}.

(** Two cases whose identifiers and file names meet in one key. *)
Definition colliding_manifest : Manifest :=
  [(doc_key "case_1" "x.txt", entry "case_1" "x.txt");
   (doc_key "case_1_a" "y.txt", entry "case_1_a" "y.txt");
   (doc_key "case_2" "z.txt", entry "case_2" "z.txt")].

Definition manifest_at (p : Path) (manifest : Manifest) : Path -> ManifestFile :=
  fun q => if PathLib.eqb q p then Parsed manifest else Absent.

(** A directory holding a PDF of two pages: the reader yields one document
    per page, both under the file's name. *)
Definition pdf_dir : Path := ["data"; "cases"; "case_002"].

Definition pdf_documents : list Document :=
  [document "report.pdf" "Page one"; document "report.pdf" "Page two"].

Definition pdf_env : Env :=
  {| get_text_embedding := get_text_embedding env;
     complete := complete env;
     distance := distance env;
     native_score := native_score env;
     node_parser := node_parser env;
     load_data := fun p =>
       if PathLib.eqb p pdf_dir then Return pdf_documents
       else Raise (ExternalError "No files found");
     query_failure := query_failure env;
     read_metadata := read_metadata env;
     result_error := result_error env;
     glob_count := glob_count env;
     writable := writable env;
     TOP_K_RETRIEVAL := TOP_K_RETRIEVAL env;
     round1 := round1 env;
     elapsed_ms := elapsed_ms env |}.

(** The collaborators of [env] with an embedding provider that is out of
    reach. *)
Definition silent_env : Env :=
  {| get_text_embedding := fun _ =>
       Raise (ExternalError "embedding request failed");
     complete := complete env;
     distance := distance env;
     native_score := native_score env;
     node_parser := node_parser env;
     load_data := load_data env;
     query_failure := query_failure env;
     read_metadata := read_metadata env;
     result_error := result_error env;
     glob_count := glob_count env;
     writable := writable env;
     TOP_K_RETRIEVAL := TOP_K_RETRIEVAL env;
     round1 := round1 env;
     elapsed_ms := elapsed_ms env |}.

(** The collaborators of [env] when every [metadata.json] holds
    ['summary': null] beside a title, which case_schema.py accepts. *)
Definition null_summary_env : Env :=
  {| get_text_embedding := get_text_embedding env;
     complete := complete env;
     distance := distance env;
     native_score := native_score env;
     node_parser := node_parser env;
     load_data := load_data env;
     query_failure := query_failure env;
     read_metadata := fun _ =>
       GoodMetadata {| meta_case_id := None;
                       meta_title := Some (PyString "State v. Doe");
                       meta_date := None;
                       meta_summary := Some PyNone;
                       meta_key_findings := None;
                       meta_documents := None |};
     result_error := result_error env;
     glob_count := glob_count env;
     writable := writable env;
     TOP_K_RETRIEVAL := TOP_K_RETRIEVAL env;
     round1 := round1 env;
     elapsed_ms := elapsed_ms env |}.

End Sample.


(* ================================================================= *)
(** ** More sample inputs *)

Module Setup.

(** The collaborators of [Sample.env], with an embedding provider that
    fails on one text. *)
Definition flaky_env : Env :=
  {| get_text_embedding := fun text =>
       if String.eqb text "Expert testimony"
       then Raise (ExternalError "rate limit")
       else get_text_embedding Sample.env text;
     complete := complete Sample.env;
     distance := distance Sample.env;
     native_score := native_score Sample.env;
     node_parser := node_parser Sample.env;
     load_data := load_data Sample.env;
     query_failure := query_failure Sample.env;
     read_metadata := read_metadata Sample.env;
     result_error := result_error Sample.env;
     glob_count := glob_count Sample.env;
     writable := writable Sample.env;
     TOP_K_RETRIEVAL := TOP_K_RETRIEVAL Sample.env;
     round1 := round1 Sample.env;
     elapsed_ms := elapsed_ms Sample.env |}.

(** A manifest that lists both files of [Sample.case_dir]. *)
Definition full_manifest : Manifest :=
  [(doc_key "case_001" "evaluation.txt", Sample.entry "case_001" "evaluation.txt");
   (doc_key "case_001" "testimony.txt", Sample.entry "case_001" "testimony.txt")].

(** The fragments of the two documents of [Sample.case_dir], as a first run
    stores them. *)
Definition stored_nodes : list Node :=
  [{| node_text := "Competency evaluation";
      node_metadata := [("file_name", "evaluation.txt"); ("case_id", "case_001")];
      node_embedding := [21%float] |};
   {| node_text := "Expert testimony";
      node_metadata := [("file_name", "testimony.txt"); ("case_id", "case_001")];
      node_embedding := [16%float] |}].

(** A data directory with one case directory and one plain file. *)
Definition fields : CaseSchema.CaseMetadata :=
  {| CaseSchema.case_id := "case_001";
     CaseSchema.title := "State v. Doe";
     CaseSchema.defendant := "J. Doe";
     CaseSchema.case_date := "2023-01-15";
     CaseSchema.court := "Superior Court";
     CaseSchema.evaluator := "Dr. Roe";
     CaseSchema.question := "Competency to stand trial";
     CaseSchema.summary := Some "Competency evaluation of the defendant.";
     CaseSchema.documents :=
       [{| CaseSchema.filename := "evaluation.txt";
           CaseSchema.type := "evaluation_report";
           CaseSchema.date := "2023-01-10";
           CaseSchema.description := "Report" |}];
     CaseSchema.key_findings := ["Competent"] |}.

Definition host : Host :=
  {| path_exists := fun p =>
       existsb (PathLib.eqb p)
         [DATA_DIR; Sample.case_dir; joinpath Sample.case_dir "metadata.json";
          joinpath Sample.case_dir "evaluation.txt";
          joinpath Sample.case_dir "testimony.txt"; joinpath DATA_DIR "README.md"];
     path_is_dir := fun p => existsb (PathLib.eqb p) [DATA_DIR; Sample.case_dir];
     path_is_file := fun p =>
       existsb (PathLib.eqb p)
         [joinpath Sample.case_dir "metadata.json";
          joinpath Sample.case_dir "evaluation.txt";
          joinpath Sample.case_dir "testimony.txt"; joinpath DATA_DIR "README.md"];
     path_iterdir := fun p =>
       if PathLib.eqb p DATA_DIR then Return ["README.md"; "case_001"]
       else if PathLib.eqb p Sample.case_dir
       then Return ["metadata.json"; "evaluation.txt"; "testimony.txt"]
       else Raise (ExternalError "Not a directory");
     path_glob := fun p pattern =>
       if PathLib.eqb p Sample.case_dir && String.eqb pattern "*.txt"
       then ["evaluation.txt"; "testimony.txt"] else [];
     name_suffix := fun f =>
       if String.eqb f "metadata.json" then ".json"
       else if String.eqb f "README.md" then ".md" else ".txt";
     path_unlink := fun _ => Return tt;
     load_case_metadata := fun _ => CaseSchema.WellTyped fields true true;
     value_error_msg := fun msg => "Value error, " ++ msg;
     connect := Return tt;
     stored := stored_nodes;
     delete_collection := Return tt;
     recreate_collection := Return tt;
     original_contextsize := fun _ => Return 100000%Z |}.

(** The same data directory when the case directory holds its
    [metadata.json] and no document. *)
Definition bare_host : Host :=
  {| path_exists := fun p =>
       existsb (PathLib.eqb p)
         [DATA_DIR; Sample.case_dir; joinpath Sample.case_dir "metadata.json";
          joinpath DATA_DIR "README.md"];
     path_is_dir := path_is_dir host;
     path_is_file := fun p =>
       existsb (PathLib.eqb p)
         [joinpath Sample.case_dir "metadata.json"; joinpath DATA_DIR "README.md"];
     path_iterdir := fun p =>
       if PathLib.eqb p DATA_DIR then Return ["README.md"; "case_001"]
       else if PathLib.eqb p Sample.case_dir then Return ["metadata.json"]
       else Raise (ExternalError "Not a directory");
     path_glob := fun _ _ => [];
     name_suffix := name_suffix host;
     path_unlink := path_unlink host;
     load_case_metadata := load_case_metadata host;
     value_error_msg := value_error_msg host;
     connect := connect host;
     stored := [];
     delete_collection := delete_collection host;
     recreate_collection := recreate_collection host;
     original_contextsize := original_contextsize host |}.

(** The same host when the client deletes the collection and then fails
    to make it anew. *)
Definition stuck_host : Host :=
  {| path_exists := path_exists host;
     path_is_dir := path_is_dir host;
     path_is_file := path_is_file host;
     path_iterdir := path_iterdir host;
     path_glob := path_glob host;
     name_suffix := name_suffix host;
     path_unlink := path_unlink host;
     load_case_metadata := load_case_metadata host;
     value_error_msg := value_error_msg host;
     connect := connect host;
     stored := stored host;
     delete_collection := Return tt;
     recreate_collection :=
       Raise (ExternalError "Collection forensic_cases already exists");
     original_contextsize := original_contextsize host |}.

(** The collaborators of [Sample.env] over a case directory of three files
    and no [metadata.json]. *)
Definition plain_env : Env :=
  {| get_text_embedding := get_text_embedding Sample.env;
     complete := complete Sample.env;
     distance := distance Sample.env;
     native_score := native_score Sample.env;
     node_parser := node_parser Sample.env;
     load_data := load_data Sample.env;
     query_failure := query_failure Sample.env;
     read_metadata := fun _ => NoMetadata;
     result_error := result_error Sample.env;
     glob_count := fun _ => Some 3%Z;
     writable := writable Sample.env;
     TOP_K_RETRIEVAL := TOP_K_RETRIEVAL Sample.env;
     round1 := round1 Sample.env;
     elapsed_ms := elapsed_ms Sample.env |}.

(** A process whose engine is initialised. *)
Definition world (nodes : list Node) (fs : Path -> ManifestFile) : World :=
  {| world_engine := Some {| initialized := true; chroma_collection := nodes |};
     world_files := fs; world_calls := []; console := [] |}.

End Setup.
(* ================================================================= *)
(** * Part II: properties *)

(** ** Order of binary64 numbers *)

Module Float64Facts.

Import Float64.

Ltac sf_cases :=
  unfold SFleb, SFltb, SFeqb, SFcompare;
  repeat match goal with
         | x : spec_float |- _ => destruct x as [[|]|[|]| |[|] ? ?]
         end;
  cbn [negb];
  try change (PosDef.Pos.compare_cont Eq) with Pos.compare;
  repeat match goal with
         | |- context [Z.compare ?x ?y] => destruct (Z.compare_spec x y)
         | |- context [Pos.compare ?x ?y] => destruct (Pos.compare_spec x y)
         end;
  cbn [CompOpp];
  try congruence; try lia.


Lemma SFltb_trans (a b c : spec_float) :
  SFltb a b = true -> SFltb b c = true -> SFltb a c = true.
Proof. sf_cases. Qed.

Lemma SFltb_asym (a b : spec_float) : SFltb a b = true -> SFltb b a = false.
Proof. sf_cases. Qed.

Lemma SFltb_irrefl (a : spec_float) : SFltb a a = false.
Proof. sf_cases. Qed.

Lemma SFleb_total (a b : spec_float) :
  SFis_nan a = false -> SFis_nan b = false ->
  SFltb a b = false -> SFleb b a = true.
Proof. unfold SFis_nan. sf_cases. Qed.

Lemma SFleb_not_ltb (a b : spec_float) : SFleb a b = true -> SFltb b a = false.
Proof. sf_cases. Qed.

Lemma SFleb_trans (a b c : spec_float) :
  SFleb a b = true -> SFleb b c = true -> SFleb a c = true.
Proof. sf_cases. Qed.

Lemma SFltb_leb (a b : spec_float) : SFltb a b = true -> SFleb a b = true.
Proof. sf_cases. Qed.

Lemma SFleb_refl (a : spec_float) : SFis_nan a = false -> SFleb a a = true.
Proof. unfold SFis_nan. sf_cases. Qed.

Lemma SFis_nan_eqb (a : spec_float) : SFis_nan a = negb (SFeqb a a).
Proof. unfold SFis_nan. sf_cases; reflexivity. Qed.

(** The same facts on primitive floats. *)

Lemma is_nan_spec (x : float) : is_nan x = SFis_nan (Prim2SF x).
Proof. unfold is_nan. now rewrite eqb_spec, SFis_nan_eqb. Qed.

Lemma ltb_trans (x y z : float) :
  (x <? y)%float = true -> (y <? z)%float = true -> (x <? z)%float = true.
Proof. rewrite !ltb_spec. apply SFltb_trans. Qed.

Lemma ltb_asym (x y : float) :
  (x <? y)%float = true -> (y <? x)%float = false.
Proof. rewrite !ltb_spec. apply SFltb_asym. Qed.

Lemma ltb_irrefl (x : float) : (x <? x)%float = false.
Proof. rewrite ltb_spec. apply SFltb_irrefl. Qed.

Lemma leb_total (x y : float) :
  is_nan x = false -> is_nan y = false ->
  (x <? y)%float = false -> (y <=? x)%float = true.
Proof. rewrite !is_nan_spec, ltb_spec, leb_spec. apply SFleb_total. Qed.

Lemma leb_not_ltb (x y : float) :
  (x <=? y)%float = true -> (y <? x)%float = false.
Proof. rewrite ltb_spec, leb_spec. apply SFleb_not_ltb. Qed.

Lemma leb_trans (x y z : float) :
  (x <=? y)%float = true -> (y <=? z)%float = true -> (x <=? z)%float = true.
Proof. rewrite !leb_spec. apply SFleb_trans. Qed.

Lemma ltb_leb (x y : float) : (x <? y)%float = true -> (x <=? y)%float = true.
Proof. rewrite ltb_spec, leb_spec. apply SFltb_leb. Qed.

Lemma leb_refl (x : float) : is_nan x = false -> (x <=? x)%float = true.
Proof. rewrite is_nan_spec, leb_spec. apply SFleb_refl. Qed.

Lemma SFeqb_ltb_neq (a b s : spec_float) :
  SFeqb a s = true -> SFltb a b = true -> SFeqb b s = false.
Proof. sf_cases. Qed.

Lemma SFleb_ltb_trans (a b c : spec_float) :
  SFleb a b = true -> SFltb b c = true -> SFltb a c = true.
Proof. sf_cases. Qed.

Lemma eqb_ltb_neq (x y s : float) :
  (x =? s)%float = true -> (x <? y)%float = true -> (y =? s)%float = false.
Proof. rewrite !eqb_spec, ltb_spec. apply SFeqb_ltb_neq. Qed.

Lemma leb_ltb_trans (x y z : float) :
  (x <=? y)%float = true -> (y <? z)%float = true -> (x <? z)%float = true.
Proof. rewrite leb_spec, !ltb_spec. apply SFleb_ltb_trans. Qed.

Lemma SFltb_leb_trans (a b c : spec_float) :
  SFltb a b = true -> SFleb b c = true -> SFltb a c = true.
Proof. sf_cases. Qed.

Lemma ltb_leb_trans (x y z : float) :
  (x <? y)%float = true -> (y <=? z)%float = true -> (x <? z)%float = true.
Proof. rewrite leb_spec, !ltb_spec. apply SFltb_leb_trans. Qed.

Lemma SFleb_infinity (a : spec_float) :
  SFis_nan a = false -> SFleb a (S754_infinity false) = true.
Proof. unfold SFis_nan. sf_cases. Qed.

Lemma leb_infinity (x : float) :
  is_nan x = false -> (x <=? infinity)%float = true.
Proof. rewrite is_nan_spec, leb_spec. apply SFleb_infinity. Qed.

Lemma SFleb_not_nan (a b : spec_float) :
  SFleb a b = true -> SFis_nan a = false /\ SFis_nan b = false.
Proof. unfold SFis_nan. sf_cases; split; reflexivity. Qed.

Lemma leb_not_nan (x y : float) :
  (x <=? y)%float = true -> is_nan x = false /\ is_nan y = false.
Proof. rewrite !is_nan_spec, leb_spec. apply SFleb_not_nan. Qed.

(** *** Rounding never invents a NaN *)

Lemma shr_1_nonneg (mrs : shr_record) :
  (0 <= shr_m mrs)%Z -> (0 <= shr_m (shr_1 mrs))%Z.
Proof.
  destruct mrs as [m r s]; simpl.
  destruct m as [|[p|p|]|[p|p|]]; simpl; lia.
Qed.

Lemma iter_pos_shr_1_nonneg (p : positive) (mrs : shr_record) :
  (0 <= shr_m mrs)%Z -> (0 <= shr_m (iter_pos shr_1 p mrs))%Z.
Proof.
  revert mrs; induction p as [p IH|p IH|]; intros mrs H; simpl.
  - apply IH, IH, shr_1_nonneg, H.
  - apply IH, IH, H.
  - apply shr_1_nonneg, H.
Qed.

Lemma shr_fexp_nonneg (prec emax m e : Z) (l : location) :
  (0 <= m)%Z -> (0 <= shr_m (fst (shr_fexp prec emax m e l)))%Z.
Proof.
  intros H. unfold shr_fexp, shr.
  assert (H0 : (0 <= shr_m (shr_record_of_loc m l))%Z)
    by (destruct l as [|[ | | ]]; simpl; exact H).
  destruct (fexp prec emax (Zdigits2 m + e) - e)%Z; simpl; auto.
  apply iter_pos_shr_1_nonneg, H0.
Qed.

Lemma round_nearest_even_nonneg (m : Z) (l : location) :
  (0 <= m)%Z -> (0 <= round_nearest_even m l)%Z.
Proof.
  intros H. destruct l as [|[ | | ]]; simpl; try lia.
  destruct (Z.even m); lia.
Qed.

Lemma binary_round_aux_not_nan (prec emax : Z) (s : bool) (m e : Z) (l : location) :
  (0 <= m)%Z -> SFis_nan (binary_round_aux prec emax s m e l) = false.
Proof.
  intros H. unfold binary_round_aux.
  pose proof (shr_fexp_nonneg prec emax e l H) as H1.
  destruct (shr_fexp prec emax m e l) as [mrs' e']; simpl in H1.
  pose proof (shr_fexp_nonneg prec emax e' loc_Exact
                (round_nearest_even_nonneg (loc_of_shr_record mrs') H1)) as H2.
  destruct (shr_fexp prec emax (round_nearest_even (shr_m mrs') (loc_of_shr_record mrs')) e' loc_Exact)
    as [mrs'' e'']; simpl in H2.
  destruct (shr_m mrs'') as [|p|p]; simpl; try reflexivity.
  - destruct (e'' <=? emax - prec)%Z; reflexivity.
  - lia.
Qed.

Lemma binary_normalize_not_nan (prec emax m e : Z) (sz : bool) :
  SFis_nan (binary_normalize prec emax m e sz) = false.
Proof.
  unfold binary_normalize, binary_round.
  destruct m as [|p|p]; simpl; try reflexivity.
  - destruct (shl_align p e _) as [mz ez]. now apply binary_round_aux_not_nan.
  - destruct (shl_align p e _) as [mz ez]. now apply binary_round_aux_not_nan.
Qed.

Lemma SFadd_finite_not_nan (prec emax : Z) (s : bool) (m : positive) (e : Z) (y : spec_float) :
  SFis_nan y = false ->
  SFis_nan (SFadd prec emax (S754_finite s m e) y) = false.
Proof.
  destruct y as [sy|sy| |sy my ey]; simpl; intros H; try congruence.
  apply binary_normalize_not_nan.
Qed.

Lemma SFdiv_finite_not_nan (prec emax : Z) (s : bool) (m : positive) (e : Z) (y : spec_float) :
  SFis_nan y = false ->
  SFis_nan (SFdiv prec emax (S754_finite s m e) y) = false.
Proof.
  destruct y as [sy|sy| |sy my ey]; simpl; intros H; try congruence.
  unfold SFdiv_core_binary.
  set (s' := (e - ey - _)%Z).
  set (m' := match s' with Zpos _ => Z.shiftl (Zpos m) s' | Z0 => Zpos m | Zneg _ => 0%Z end).
  assert (Hm' : (0 <= m')%Z).
  { subst m'. destruct s'; try lia. apply Z.shiftl_nonneg. lia. }
  pose proof (Z_div_mod m' (Zpos my) eq_refl) as Hdiv.
  destruct (Z.div_eucl m' (Zpos my)) as [q r].
  apply binary_round_aux_not_nan.
  destruct Hdiv as [Heq Hr]. nia.
Qed.

End Float64Facts.

Lemma similarity_not_nan (distance : float) :
  is_nan distance = false -> is_nan (similarity distance) = false.
Proof.
  intros H. unfold similarity.
  rewrite Float64Facts.is_nan_spec in *.
  rewrite div_spec, add_spec.
  change (Prim2SF 1) with (S754_finite false 4503599627370496 (-52)).
  apply Float64Facts.SFdiv_finite_not_nan, Float64Facts.SFadd_finite_not_nan, H.
Qed.

(** ** Strings *)

Module PyStrFacts.

Import PyStr.

Lemma lstrip_blank (s : string) : blank s = true -> lstrip s = "".
Proof.
  induction s as [|c s IH]; simpl; [reflexivity|].
  intros H. apply andb_true_iff in H as [Hc Hs]. rewrite Hc. auto.
Qed.

Lemma rstrip_empty_blank (s : string) : rstrip s = "" -> blank s = true.
Proof.
  induction s as [|c s IH]; simpl; [reflexivity|].
  destruct (rstrip s) eqn:E; [|discriminate].
  destruct (isspace c); [|discriminate]. intros _. simpl. auto.
Qed.

Lemma lstrip_suffix_blank (s : string) : blank (lstrip s) = true -> blank s = true.
Proof.
  induction s as [|c s IH]; simpl; [reflexivity|].
  destruct (isspace c) eqn:E; simpl; [exact IH|].
  rewrite E. discriminate.
Qed.

(** [strip] returns the empty string exactly on blank strings. *)
Lemma strip_empty_iff (s : string) : strip s = "" <-> blank s = true.
Proof.
  unfold strip. split.
  - intros H. apply lstrip_suffix_blank, rstrip_empty_blank, H.
  - intros H. rewrite (lstrip_blank _ H). reflexivity.
Qed.

Lemma length_take (n : nat) (s : string) :
  String.length (take n s) = Nat.min n (String.length s).
Proof.
  revert s; induction n as [|n IH]; intros [|c s]; simpl; auto.
Qed.

Lemma take_all (n : nat) (s : string) :
  (String.length s <= n)%nat -> take n s = s.
Proof.
  revert s; induction n as [|n IH]; intros [|c s]; simpl; intros H;
    try reflexivity; try lia.
  f_equal. apply IH. lia.
Qed.

Lemma length_append (s t : string) :
  String.length (s ++ t) = (String.length s + String.length t)%nat.
Proof. induction s as [|c s IH]; simpl; auto. Qed.

Lemma prefix_append (p s : string) : String.prefix p (p ++ s) = true.
Proof.
  induction p as [|c p IH]; simpl.
  - destruct s; reflexivity.
  - destruct (ascii_dec c c) as [_|n]; [exact IH|congruence].
Qed.

End PyStrFacts.

(** ** Dictionaries *)

Module PyDictFacts.

Import PyDict.

Section Facts.

Variable V : Type.

Lemma get_set_same (k : string) (v : V) (d : t V) : get k (set k v d) = Some v.
Proof.
  induction d as [|[k' v'] d IH]; simpl.
  - now rewrite String.eqb_refl.
  - destruct (String.eqb k k') eqn:E; simpl.
    + now rewrite String.eqb_refl.
    + now rewrite E.
Qed.

Lemma get_set_other (k k0 : string) (v : V) (d : t V) :
  k0 <> k -> get k0 (set k v d) = get k0 d.
Proof.
  intros Hne. induction d as [|[k' v'] d IH]; simpl.
  - apply String.eqb_neq in Hne. now rewrite Hne.
  - destruct (String.eqb k k') eqn:E; simpl.
    + apply String.eqb_eq in E; subst k'.
      apply String.eqb_neq in Hne. now rewrite Hne.
    + destruct (String.eqb k0 k'); auto.
Qed.

Lemma mem_set_same (k : string) (v : V) (d : t V) : mem k (set k v d) = true.
Proof. unfold mem. now rewrite get_set_same. Qed.

Lemma mem_set_mono (k k0 : string) (v : V) (d : t V) :
  mem k0 d = true -> mem k0 (set k v d) = true.
Proof.
  unfold mem. destruct (string_dec k0 k) as [->|Hne].
  - now rewrite get_set_same.
  - now rewrite get_set_other.
Qed.

Lemma get_In (k : string) (v : V) (d : t V) : get k d = Some v -> In (k, v) d.
Proof.
  induction d as [|[k' v'] d IH]; simpl; [discriminate|].
  destruct (String.eqb k k') eqn:E.
  - apply String.eqb_eq in E; subst k'. intros [= ->]. now left.
  - intros H. right. auto.
Qed.

Lemma In_get (k : string) (v : V) (d : t V) :
  NoDup (keys d) -> In (k, v) d -> get k d = Some v.
Proof.
  induction d as [|[k' v'] d IH]; simpl; [tauto|].
  intros Hnd [[= -> ->]|Hin].
  - now rewrite String.eqb_refl.
  - inversion Hnd as [|? ? Hnotin Hnd']; subst.
    destruct (String.eqb k k') eqn:E.
    + apply String.eqb_eq in E; subst k'.
      exfalso. apply Hnotin. unfold keys. now apply (in_map fst) in Hin.
    + auto.
Qed.

Lemma mem_keys (k : string) (d : t V) : mem k d = true <-> In k (keys d).
Proof.
  unfold mem. induction d as [|[k' v'] d IH]; simpl.
  - split; [discriminate|tauto].
  - destruct (String.eqb k k') eqn:E.
    + apply String.eqb_eq in E; subst k'. split; auto.
    + apply String.eqb_neq in E. rewrite IH. split; [auto|].
      intros [->|H]; [congruence|exact H].
Qed.

Lemma keys_set (k : string) (v : V) (d : t V) :
  keys (set k v d) = if mem k d then keys d else (keys d ++ [k])%list.
Proof.
  unfold mem. induction d as [|[k' v'] d IH]; simpl; [reflexivity|].
  destruct (String.eqb k k') eqn:E; simpl.
  - apply String.eqb_eq in E. now subst.
  - rewrite IH. now destruct (get k d).
Qed.

Lemma NoDup_keys_set (k : string) (v : V) (d : t V) :
  NoDup (keys d) -> NoDup (keys (set k v d)).
Proof.
  intros H. rewrite keys_set. destruct (mem k d) eqn:E; [exact H|].
  apply NoDup_app; [exact H|repeat constructor; simpl; tauto|].
  intros x Hx [<-|[]]. apply mem_keys in Hx. congruence.
Qed.

Lemma mem_existsb (k : string) (d : t V) :
  mem k d = existsb (String.eqb k) (keys d).
Proof.
  unfold mem. induction d as [|[k' v'] d IH]; simpl; [reflexivity|].
  destruct (String.eqb k k'); [reflexivity|exact IH].
Qed.

Lemma mem_get_None (k : string) (d : t V) : get k d = None -> mem k d = false.
Proof. unfold mem. now intros ->. Qed.

Lemma mem_get_Some (k : string) (v : V) (d : t V) : get k d = Some v -> mem k d = true.
Proof. unfold mem. now intros ->. Qed.

End Facts.

End PyDictFacts.

(** ** Paths *)

Module PathLibFacts.

Import PathLib.

Lemma eqb_refl (p : Path) : eqb p p = true.
Proof. unfold eqb. destruct (list_eq_dec string_dec p p); congruence. Qed.

Lemma eqb_eq (p q : Path) : eqb p q = true <-> p = q.
Proof.
  unfold eqb. destruct (list_eq_dec string_dec p q); split; congruence.
Qed.

Lemma parent_joinpath (p : Path) (n : string) : parent (joinpath p n) = p.
Proof. apply removelast_last. Qed.

End PathLibFacts.
(* ================================================================= *)
(** ** Rounding to nearest: the arithmetic of [1.0 / (1.0 + distance)] *)

(** The operations of binary64 round the exact result to the nearest number
    of the format.  The facts below follow [SpecFloat]'s functions
    ([shr], [round_nearest_even], [binary_round_aux], [SFadd], [SFdiv]) and
    show that this rounding keeps the order of the exact results. *)

Module RoundingFacts.

Import Lra.
Local Open Scope R_scope.
Local Unset Implicit Arguments.

Lemma bpow_pos e : 0 < bpow e.
Proof. apply powerRZ_lt. lra. Qed.

Lemma bpow_add e1 e2 : bpow (e1 + e2) = bpow e1 * bpow e2.
Proof. apply powerRZ_add. lra. Qed.

Lemma bpow_succ e : bpow (e + 1) = 2 * bpow e.
Proof. rewrite bpow_add. unfold bpow at 2. simpl. lra. Qed.

Lemma bpow_IZR (p : Z) : (0 <= p)%Z -> bpow p = IZR (2 ^ p).
Proof.
  intros H. unfold bpow.
  rewrite (Zpower_nat_Zpower 2 p H).
  now rewrite (Zpower_nat_powerRZ_absolu 2 p H).
Qed.

Lemma bpow_ge_1 (p : Z) : (0 <= p)%Z -> 1 <= bpow p.
Proof.
  intros H. rewrite (bpow_IZR p H). apply IZR_le.
  pose proof (Z.pow_pos_nonneg 2 p). lia.
Qed.

Lemma bpow_le e1 e2 : (e1 <= e2)%Z -> bpow e1 <= bpow e2.
Proof.
  intros H. replace e2 with (e1 + (e2 - e1))%Z by lia.
  rewrite bpow_add.
  assert (1 <= bpow (e2 - e1)) by (apply bpow_ge_1; lia).
  pose proof (bpow_pos e1). nra.
Qed.

Lemma bpow_lt e1 e2 : (e1 < e2)%Z -> bpow e1 < bpow e2.
Proof.
  intros H. replace e2 with ((e1 + 1) + (e2 - e1 - 1))%Z by lia.
  rewrite bpow_add, bpow_succ.
  assert (1 <= bpow (e2 - e1 - 1)) by (apply bpow_ge_1; lia).
  pose proof (bpow_pos e1). nra.
Qed.

Lemma bpow_lt_inv e1 e2 : bpow e1 < bpow e2 -> (e1 < e2)%Z.
Proof.
  intros H. destruct (Z_lt_le_dec e1 e2) as [Hlt|Hle]; [exact Hlt|].
  apply bpow_le in Hle. lra.
Qed.

Lemma F2R_shift (m e s : Z) : (0 <= s)%Z -> F2R (m * 2 ^ s) e = F2R m (e + s).
Proof.
  intros H. unfold F2R. rewrite mult_IZR, bpow_add, <- (bpow_IZR s H). ring.
Qed.

Lemma F2R_le (m1 m2 e : Z) : (m1 <= m2)%Z -> F2R m1 e <= F2R m2 e.
Proof.
  intros H. unfold F2R. apply Rmult_le_compat_r.
  - apply Rlt_le, bpow_pos.
  - now apply IZR_le.
Qed.

Lemma F2R_lt (m1 m2 e : Z) : (m1 < m2)%Z -> F2R m1 e < F2R m2 e.
Proof.
  intros H. unfold F2R. apply Rmult_lt_compat_r.
  - apply bpow_pos.
  - now apply IZR_lt.
Qed.

Lemma F2R_le_inv (m1 m2 e : Z) : F2R m1 e <= F2R m2 e -> (m1 <= m2)%Z.
Proof.
  intros H. destruct (Z_le_gt_dec m1 m2) as [Hle|Hgt]; [exact Hle|].
  assert (F2R m2 e < F2R m1 e) by (apply F2R_lt; lia). lra.
Qed.

(* digits *)
Lemma digits2_pos_bounds (m : positive) :
  (2 ^ (Zpos (digits2_pos m) - 1) <= Zpos m < 2 ^ Zpos (digits2_pos m))%Z.
Proof.
  induction m as [m IH|m IH|]; cbn [digits2_pos].
  - rewrite Pos2Z.inj_succ.
    replace (Z.succ (Zpos (digits2_pos m)) - 1)%Z with (Zpos (digits2_pos m) - 1 + 1)%Z by lia.
    rewrite Z.pow_succ_r by lia.
    rewrite Z.pow_add_r by lia. change (2 ^ 1)%Z with 2%Z. lia.
  - rewrite Pos2Z.inj_succ.
    replace (Z.succ (Zpos (digits2_pos m)) - 1)%Z with (Zpos (digits2_pos m) - 1 + 1)%Z by lia.
    rewrite Z.pow_succ_r by lia.
    rewrite Z.pow_add_r by lia. change (2 ^ 1)%Z with 2%Z. lia.
  - cbn. lia.
Qed.

Lemma Zdigits2_bounds (m : Z) : (0 < m)%Z ->
  (2 ^ (Zdigits2 m - 1) <= m < 2 ^ Zdigits2 m)%Z.
Proof.
  destruct m as [|p|p]; try lia. intros _. apply digits2_pos_bounds.
Qed.

Lemma Zdigits2_nonneg (m : Z) : (0 <= Zdigits2 m)%Z.
Proof. destruct m; simpl; lia. Qed.

Lemma Zdigits2_unique (m d : Z) :
  (2 ^ (d - 1) <= m < 2 ^ d)%Z -> (0 < m)%Z -> (0 < d)%Z -> Zdigits2 m = d.
Proof.
  intros [H1 H2] Hm Hd.
  pose proof (Zdigits2_bounds m Hm) as [H3 H4].
  pose proof (Zdigits2_nonneg m) as H0.
  assert (Zdigits2 m <> 0)%Z.
  { intros E. rewrite E in H4. simpl in H4. lia. }
  destruct (Z.lt_trichotomy (Zdigits2 m) d) as [Hlt|[Heq|Hgt]]; [|exact Heq|].
  - assert (2 ^ Zdigits2 m <= 2 ^ (d - 1))%Z by (apply Z.pow_le_mono_r; lia). lia.
  - assert (2 ^ d <= 2 ^ (Zdigits2 m - 1))%Z by (apply Z.pow_le_mono_r; lia). lia.
Qed.

Section Rounding.

Variables prec emax : Z.
Hypothesis Hprec : (0 < prec)%Z.

Abbreviation emin := (SpecFloat.emin prec emax).
Abbreviation fexp := (SpecFloat.fexp prec emax).

Lemma fexp_mono (e1 e2 : Z) : (e1 <= e2)%Z -> (fexp e1 <= fexp e2)%Z.
Proof. unfold SpecFloat.fexp. lia. Qed.

Lemma fexp_emin (e : Z) : (emin <= fexp e)%Z.
Proof. unfold SpecFloat.fexp. lia. Qed.

Lemma fexp_above (e : Z) : (emin < fexp e)%Z -> fexp e = (e - prec)%Z.
Proof. unfold SpecFloat.fexp. lia. Qed.

Lemma IZR_half_le (n n' : Z) : IZR n - /2 <= IZR n' + /2 -> (n <= n' + 1)%Z.
Proof.
  intros H. apply le_IZR. rewrite plus_IZR. lra.
Qed.

Lemma rounds_le_same_grid (x y : R) (k n n' : Z) :
  x <= y -> rounds x k n -> rounds y k n' -> (n <= n')%Z.
Proof.
  intros Hxy [[Hx1 Hx2] Hxt] [[Hy1 Hy2] Hyt].
  pose proof (bpow_pos k) as Hu.
  assert (H : (n <= n' + 1)%Z).
  { apply IZR_half_le. apply (Rmult_le_reg_r (bpow k)); [exact Hu|lra]. }
  destruct (Z.eq_dec n (n' + 1)) as [E|NE]; [|lia].
  exfalso. subst n. rewrite plus_IZR in *.
  assert (Ex : x = (IZR n' + 1 - /2) * bpow k) by nra.
  assert (Ey : y = (IZR n' + /2) * bpow k) by nra.
  specialize (Hxt (or_introl Ex)). specialize (Hyt (or_intror Ey)).
  rewrite Z.even_add in Hxt. rewrite Hyt in Hxt. discriminate.
Qed.

Lemma rounds_below_grid_point (x : R) (k n N : Z) :
  rounds x k n -> x <= IZR N * bpow k -> (n <= N)%Z.
Proof.
  intros [[Hx1 Hx2] _] H. pose proof (bpow_pos k) as Hu.
  assert (IZR n - /2 <= IZR N).
  { apply (Rmult_le_reg_r (bpow k)); [exact Hu|lra]. }
  assert (IZR n < IZR N + 1) by lra.
  rewrite <- plus_IZR in H1. apply lt_IZR in H1. lia.
Qed.

Lemma rounds_above_grid_point (x : R) (k n N : Z) :
  rounds x k n -> IZR N * bpow k <= x -> (N <= n)%Z.
Proof.
  intros [[Hx1 Hx2] _] H. pose proof (bpow_pos k) as Hu.
  assert (IZR N <= IZR n + /2).
  { apply (Rmult_le_reg_r (bpow k)); [exact Hu|lra]. }
  assert (IZR N < IZR n + 1) by lra.
  rewrite <- plus_IZR in H1. apply lt_IZR in H1. lia.
Qed.

(** Rounding to nearest is monotone. *)
Lemma rounds_le (x y : R) (k k' n n' : Z) :
  x <= y -> cexp prec emax x k -> cexp prec emax y k' -> rounds x k n -> rounds y k' n' ->
  F2R n k <= F2R n' k'.
Proof.
  intros Hxy (e & He & Hk & Hx) (e' & He' & Hk' & Hy) Hr Hr'.
  assert (Hkk : (k <= k')%Z).
  { destruct (Z_le_gt_dec k k') as [H|H]; [exact H|]. exfalso.
    pose proof (fexp_emin e') as H0. rewrite Hk' in H0.
    destruct Hx as [Hx|Hx]; [|lia].
    assert (bpow (e - 1) < bpow e') by lra.
    apply bpow_lt_inv in H1.
    assert (fexp e <= fexp e')%Z by (apply fexp_mono; lia). lia. }
  destruct (Z.eq_dec k k') as [E|NE].
  - rewrite <- E in Hr' |- *. apply F2R_le. eapply rounds_le_same_grid; eassumption.
  - assert (Hlt : (k < k')%Z) by lia.
    pose proof (fexp_emin e) as H0. rewrite Hk in H0.
    assert (Hk'e : k' = (e' - prec)%Z).
    { rewrite <- Hk'. apply fexp_above. lia. }
    destruct Hy as [Hy|Hy]; [|lia].
    assert (Hee : (e < e')%Z).
    { destruct (Z_lt_le_dec e e') as [H|H]; [exact H|].
      assert (fexp e' <= fexp e)%Z by (apply fexp_mono; lia). lia. }
    apply Rle_trans with (bpow (e' - 1)).
    + (* n * 2^k <= 2^(e'-1) *)
      assert (Hn : (n <= 2 ^ (e' - 1 - k))%Z).
      { apply (rounds_below_grid_point x k); [exact Hr|].
        rewrite <- (bpow_IZR (e' - 1 - k)) by lia.
        rewrite <- bpow_add. replace (e' - 1 - k + k)%Z with (e' - 1)%Z by lia.
        apply Rle_trans with (bpow e); [lra|apply bpow_le; lia]. }
      apply Rle_trans with (F2R (2 ^ (e' - 1 - k)) k); [now apply F2R_le|].
      unfold F2R. rewrite <- (bpow_IZR (e' - 1 - k)) by lia.
      rewrite <- bpow_add. replace (e' - 1 - k + k)%Z with (e' - 1)%Z by lia.
      lra.
    + (* 2^(e'-1) <= n' * 2^k' *)
      assert (Hn : (2 ^ (e' - 1 - k') <= n')%Z).
      { apply (rounds_above_grid_point y k'); [exact Hr'|].
        rewrite <- (bpow_IZR (e' - 1 - k')) by lia.
        rewrite <- bpow_add. replace (e' - 1 - k' + k')%Z with (e' - 1)%Z by lia.
        exact Hy. }
      apply Rle_trans with (F2R (2 ^ (e' - 1 - k')) k'); [|now apply F2R_le].
      unfold F2R. rewrite <- (bpow_IZR (e' - 1 - k')) by lia.
      rewrite <- bpow_add. replace (e' - 1 - k' + k')%Z with (e' - 1)%Z by lia.
      lra.
Qed.

End Rounding.

Lemma represents_bounds (m e : Z) (l : location) (x : R) :
  represents m e l x -> F2R m e <= x < F2R (m + 1) e.
Proof.
  unfold represents, inbetween, F2R. rewrite plus_IZR.
  pose proof (bpow_pos e).
  destruct l as [|[| |]]; intros; nra.
Qed.

Lemma shr_1_represents (mrs : shr_record) (e : Z) (x : R) :
  (0 <= shr_m mrs)%Z ->
  represents (shr_m mrs) e (loc_of_shr_record mrs) x ->
  (0 <= shr_m (shr_1 mrs))%Z /\
  shr_m (shr_1 mrs) = (shr_m mrs / 2)%Z /\
  represents (shr_m (shr_1 mrs)) (e + 1) (loc_of_shr_record (shr_1 mrs)) x.
Proof.
  destruct mrs as [m r s]. cbn [shr_m].
  intros Hm H.
  assert (Hcases : (m = 0 \/ m = 1 \/ (exists p, m = Zpos (xO p)) \/ (exists p, m = Zpos (xI p)))%Z).
  { destruct m as [|[p|p|]|p]; try lia; eauto. }
  unfold represents, inbetween, F2R in *. rewrite bpow_succ.
  pose proof (bpow_pos e) as Hu. set (u := bpow e) in *.
  destruct Hcases as [->|[->|[[p ->]|[p ->]]]].
  - cbn [shr_1 shr_m loc_of_shr_record]. split; [lia|]. split; [reflexivity|].
    cbn in *. destruct r, s; cbn in *; lra.
  - cbn [shr_1 shr_m loc_of_shr_record]. split; [lia|]. split; [reflexivity|].
    cbn in *. destruct r, s; cbn in *; lra.
  - cbn [shr_1 shr_m loc_of_shr_record]. split; [lia|].
    split; [now rewrite Pos2Z.inj_xO, Z.mul_comm, Z.div_mul|].
    rewrite !plus_IZR in *. rewrite Pos2Z.inj_xO, mult_IZR in H.
    set (t := IZR (Z.pos p)) in *.
    destruct r, s; cbn in *; nra.
  - cbn [shr_1 shr_m loc_of_shr_record]. split; [lia|].
    split.
    { rewrite Pos2Z.inj_xI. apply Z.div_unique with 1%Z; lia. }
    rewrite !plus_IZR in *. rewrite Pos2Z.inj_xI, plus_IZR, mult_IZR in H.
    set (t := IZR (Z.pos p)) in *.
    destruct r, s; cbn in *; nra.
Qed.

Lemma iter_pos_nat {A : Type} (f : A -> A) (p : positive) (x : A) :
  iter_pos f p x = Nat.iter (Pos.to_nat p) f x.
Proof.
  revert x. induction p as [p IH|p IH|]; intros x; cbn [iter_pos].
  - rewrite !IH, Pos2Nat.inj_xI.
    replace (S (2 * Pos.to_nat p)) with (Pos.to_nat p + (Pos.to_nat p + 1))%nat by lia.
    rewrite Nat.iter_add, Nat.iter_add. reflexivity.
  - rewrite !IH, Pos2Nat.inj_xO.
    replace (2 * Pos.to_nat p)%nat with (Pos.to_nat p + Pos.to_nat p)%nat by lia.
    rewrite Nat.iter_add. reflexivity.
  - reflexivity.
Qed.

Lemma iter_shr_1_represents (n : nat) (mrs : shr_record) (e : Z) (x : R) :
  (0 <= shr_m mrs)%Z ->
  represents (shr_m mrs) e (loc_of_shr_record mrs) x ->
  (0 <= shr_m (Nat.iter n shr_1 mrs))%Z /\
  shr_m (Nat.iter n shr_1 mrs) = (shr_m mrs / 2 ^ Z.of_nat n)%Z /\
  represents (shr_m (Nat.iter n shr_1 mrs)) (e + Z.of_nat n)
    (loc_of_shr_record (Nat.iter n shr_1 mrs)) x.
Proof.
  intros Hm H. induction n as [|n (IH1 & IH2 & IH3)].
  - change (Nat.iter 0 shr_1 mrs) with mrs.
    rewrite Z.add_0_r. change (2 ^ Z.of_nat 0)%Z with 1%Z. rewrite Z.div_1_r. auto.
  - change (Nat.iter (S n) shr_1 mrs) with (shr_1 (Nat.iter n shr_1 mrs)).
    destruct (shr_1_represents _ _ _ IH1 IH3) as (H1 & H2 & H3).
    split; [exact H1|]. split.
    + rewrite H2, IH2, Nat2Z.inj_succ, Z.pow_succ_r by lia.
      rewrite Z.div_div by lia. f_equal. lia.
    + rewrite Nat2Z.inj_succ. replace (e + Z.succ (Z.of_nat n))%Z with (e + Z.of_nat n + 1)%Z by lia.
      exact H3.
Qed.

Lemma loc_of_shr_record_of_loc (m : Z) (l : location) :
  loc_of_shr_record (shr_record_of_loc m l) = l /\
  shr_m (shr_record_of_loc m l) = m.
Proof. destruct l as [|[| |]]; split; reflexivity. Qed.

(** Shifting to a coarser exponent keeps the represented number. *)
Lemma shr_represents (m e s : Z) (l : location) (x : R) :
  (0 <= m)%Z -> (0 <= s)%Z ->
  represents m e l x ->
  let r := shr (shr_record_of_loc m l) e s in
  snd r = (e + s)%Z /\
  shr_m (fst r) = (m / 2 ^ s)%Z /\
  represents (shr_m (fst r)) (e + s) (loc_of_shr_record (fst r)) x.
Proof.
  intros Hm Hs H.
  destruct (loc_of_shr_record_of_loc m l) as [Hl Hsm].
  destruct s as [|p|p]; [| |lia].
  - cbn. rewrite Z.add_0_r, Z.div_1_r, Hl, Hsm. auto.
  - cbn [shr fst snd]. rewrite iter_pos_nat.
    destruct (iter_shr_1_represents (Pos.to_nat p) (shr_record_of_loc m l) e x)
      as (H1 & H2 & H3).
    + rewrite Hsm. exact Hm.
    + rewrite Hl, Hsm. exact H.
    + rewrite positive_nat_Z, Hsm in *. auto.
Qed.

Lemma round_nearest_even_rounds (m k : Z) (l : location) (x : R) :
  represents m k l x ->
  rounds x k (round_nearest_even m l) /\
  (m <= round_nearest_even m l <= m + 1)%Z.
Proof.
  unfold represents, inbetween, rounds, F2R. rewrite plus_IZR.
  pose proof (bpow_pos k) as Hu. set (u := bpow k) in *.
  destruct l as [|[| |]]; cbn [round_nearest_even]; intros H.
  - split; [|lia]. split; [nra|]. intros [E|E]; nra.
  - destruct (Z.even m) eqn:Em.
    + split; [|lia]. split; [nra|]. intros _. exact Em.
    + split; [|lia]. rewrite plus_IZR. split; [nra|]. intros _.
      rewrite Z.even_add, Em. reflexivity.
  - split; [|lia]. split; [nra|]. intros [E|E]; nra.
  - split; [|lia]. rewrite plus_IZR. split; [nra|]. intros [E|E]; nra.
Qed.

Section Spec.

Variables prec emax : Z.
Hypothesis Hprec : (0 < prec)%Z.
Hypothesis Hemax : (prec < emax)%Z.

Abbreviation emin := (SpecFloat.emin prec emax).
Abbreviation fexp := (SpecFloat.fexp prec emax).

Lemma F2R_pow (d e : Z) : (0 <= d)%Z -> F2R (2 ^ d) e = bpow (d + e).
Proof. intros H. unfold F2R. now rewrite <- bpow_IZR, bpow_add. Qed.

Lemma shr_fexp_represents (m e : Z) (l : location) (x : R) :
  (0 <= m)%Z -> represents m e l x ->
  (e <= fexp (Zdigits2 m + e))%Z ->
  snd (shr_fexp prec emax m e l) = fexp (Zdigits2 m + e) /\
  shr_m (fst (shr_fexp prec emax m e l))
    = (m / 2 ^ (fexp (Zdigits2 m + e) - e))%Z /\
  represents (shr_m (fst (shr_fexp prec emax m e l))) (fexp (Zdigits2 m + e))
    (loc_of_shr_record (fst (shr_fexp prec emax m e l))) x.
Proof.
  intros Hm H He. unfold shr_fexp.
  destruct (shr_represents m e (fexp (Zdigits2 m + e) - e) l x Hm) as (H1 & H2 & H3);
    [lia|exact H|].
  replace (e + (fexp (Zdigits2 m + e) - e))%Z with (fexp (Zdigits2 m + e)) in * by lia.
  auto.
Qed.

Lemma shifted_below (m e : Z) :
  (0 <= m)%Z -> (e <= fexp (Zdigits2 m + e))%Z ->
  (0 <= m / 2 ^ (fexp (Zdigits2 m + e) - e) < 2 ^ prec)%Z.
Proof.
  intros Hm He. set (s := (fexp (Zdigits2 m + e) - e)%Z).
  assert (Hs : (0 <= s)%Z) by (unfold s; lia).
  assert (Hp : (0 < 2 ^ s)%Z) by (apply Z.pow_pos_nonneg; lia).
  split; [apply Z.div_pos; lia|].
  apply Z.div_lt_upper_bound; [exact Hp|].
  rewrite <- Z.pow_add_r by lia.
  destruct (Z.eq_dec m 0) as [->|Hne].
  - apply Z.pow_pos_nonneg; lia.
  - destruct (Zdigits2_bounds m) as [_ H]; [lia|].
    apply Z.lt_le_trans with (1 := H).
    apply Z.pow_le_mono_r; [lia|].
    unfold s, SpecFloat.fexp. lia.
Qed.

Lemma shifted_normal (m e : Z) :
  (0 <= m)%Z -> (e <= fexp (Zdigits2 m + e))%Z ->
  (emin < fexp (Zdigits2 m + e))%Z ->
  (2 ^ (prec - 1) <= m / 2 ^ (fexp (Zdigits2 m + e) - e))%Z.
Proof.
  intros Hm He Hk. set (s := (fexp (Zdigits2 m + e) - e)%Z).
  assert (Hs : (0 <= s)%Z) by (unfold s; lia).
  assert (Hp : (0 < 2 ^ s)%Z) by (apply Z.pow_pos_nonneg; lia).
  assert (Hd : (s = Zdigits2 m - prec)%Z).
  { unfold s. rewrite (fexp_above prec emax _ Hk). lia. }
  assert (Hm0 : (0 < m)%Z).
  { destruct (Z.eq_dec m 0) as [E|E]; [|lia]. subst m. cbn in Hd. lia. }
  destruct (Zdigits2_bounds m Hm0) as [H _].
  apply Z.div_le_lower_bound; [exact Hp|].
  rewrite <- Z.pow_add_r by lia.
  replace (s + (prec - 1))%Z with (Zdigits2 m - 1)%Z by lia. exact H.
Qed.

Lemma represents_cexp (m e : Z) (l : location) (x : R) :
  (0 <= m)%Z -> represents m e l x ->
  (e <= fexp (Zdigits2 m + e))%Z ->
  cexp prec emax x (fexp (Zdigits2 m + e)).
Proof.
  intros Hm H He. apply represents_bounds in H as [H1 H2].
  destruct (Z.eq_dec m 0) as [->|Hne].
  - cbn [Zdigits2] in *. rewrite Z.add_0_l in *.
    exists e. split.
    + unfold F2R in H2. cbn in H2. lra.
    + split; [reflexivity|]. right. unfold SpecFloat.fexp in *. lia.
  - assert (Hm0 : (0 < m)%Z) by lia.
    destruct (Zdigits2_bounds m Hm0) as [Hd1 Hd2].
    pose proof (Zdigits2_nonneg m) as Hd0.
    assert (Hd : (0 < Zdigits2 m)%Z).
    { destruct (Z.eq_dec (Zdigits2 m) 0) as [E|E]; [|lia].
      rewrite E in Hd2. cbn in Hd2. lia. }
    exists (Zdigits2 m + e)%Z. split; [|split; [reflexivity|left]].
    + apply Rlt_le_trans with (1 := H2).
      rewrite <- F2R_pow by lia. apply F2R_le. lia.
    + apply Rle_trans with (2 := H1).
      replace (Zdigits2 m + e - 1)%Z with ((Zdigits2 m - 1) + e)%Z by lia.
      rewrite <- F2R_pow by lia. now apply F2R_le.
Qed.

(** What [binary_round_aux] returns for a bracket of [x] that is fine
    enough: the nearest point [n * 2^k] of the format's grid at [x], as a
    zero, a finite float of that value, or an infinity when the value
    reaches [2^emax]. *)
Lemma binary_round_aux_spec (sx : bool) (mx ex : Z) (lx : location) (x : R) :
  (0 <= mx)%Z -> represents mx ex lx x ->
  (ex <= fexp (Zdigits2 mx + ex))%Z ->
  exists n k,
    cexp prec emax x k /\ rounds x k n /\ (0 <= n)%Z /\
    match binary_round_aux prec emax sx mx ex lx with
    | S754_zero s => s = sx /\ n = 0%Z
    | S754_finite s m e => s = sx /\ F2R (Zpos m) e = F2R n k
    | S754_infinity s => s = sx /\ bpow emax <= F2R n k
    | S754_nan => False
    end.
Proof.
  intros Hm Hrep He.
  set (k := fexp (Zdigits2 mx + ex)) in *.
  destruct (shr_fexp_represents mx ex lx x Hm Hrep He) as (H1 & H2 & H3).
  pose proof (shifted_below mx ex Hm He) as Hbelow.
  fold k in H1, H2, H3, Hbelow.
  unfold binary_round_aux.
  destruct (shr_fexp prec emax mx ex lx) as [mrs' e']. cbn [fst snd] in *. subst e'.
  destruct (round_nearest_even_rounds _ _ _ _ H3) as [Hr Hn].
  set (n := round_nearest_even (shr_m mrs') (loc_of_shr_record mrs')) in *.
  rewrite H2 in Hn.
  assert (Hn0 : (0 <= n <= 2 ^ prec)%Z) by lia.
  assert (Hk : (emin <= k)%Z) by apply fexp_emin.
  exists n, k. split; [now apply represents_cexp with (l := lx)|].
  split; [exact Hr|]. split; [lia|].
  (* the second normalisation *)
  assert (Hshift :
    (fexp (Zdigits2 n + k) <= k)%Z \/
    (n = 2 ^ prec /\ fexp (Zdigits2 n + k) = k + 1)%Z).
  { destruct (Z.eq_dec n 0) as [->|Hne0].
    - left. cbn [Zdigits2]. unfold SpecFloat.fexp. lia.
    - destruct (Zdigits2_bounds n) as [Hd1 Hd2]; [lia|].
      destruct (Z_le_gt_dec (Zdigits2 n) prec) as [Hle|Hgt].
      + left. unfold SpecFloat.fexp. lia.
      + right.
        assert (2 ^ prec <= 2 ^ (Zdigits2 n - 1))%Z
          by (apply Z.pow_le_mono_r; lia).
        assert (Hn2 : n = (2 ^ prec)%Z) by lia.
        split; [exact Hn2|].
        assert (Zdigits2 n = prec + 1)%Z.
        { apply Zdigits2_unique; try lia.
          replace (prec + 1 - 1)%Z with prec by lia. rewrite Hn2.
          split; [lia|]. apply Z.pow_lt_mono_r; lia. }
        unfold SpecFloat.fexp. lia. }
  unfold shr_fexp. fold n.
  destruct (loc_of_shr_record_of_loc n loc_Exact) as [_ Hsm].
  destruct Hshift as [Hle|[Hn2 Hk1]].
  - (* no shift *)
    assert (Hshr : shr (shr_record_of_loc n loc_Exact) k (fexp (Zdigits2 n + k) - k)
                   = (shr_record_of_loc n loc_Exact, k)).
    { unfold shr. destruct (fexp (Zdigits2 n + k) - k)%Z eqn:E; try reflexivity. lia. }
    rewrite Hshr. cbn [shr_record_of_loc shr_m].
    destruct n as [|p|p]; [auto| |lia].
    destruct (Z.leb_spec k (emax - prec)) as [Hfin|Hinf]; [auto|].
    split; [reflexivity|].
    assert (Hnorm : (2 ^ (prec - 1) <= Z.pos p)%Z).
    { pose proof (shifted_normal mx ex Hm He) as Hnm. fold k in Hnm.
      unfold SpecFloat.emin in *. lia. }
    apply Rle_trans with (F2R (2 ^ (prec - 1)) k); [|now apply F2R_le].
    rewrite F2R_pow by lia. apply bpow_le. lia.
  - (* the mantissa reached 2^prec: one more shift *)
    rewrite Hk1. replace (k + 1 - k)%Z with 1%Z by lia.
    destruct (shr_represents n k 1 loc_Exact (F2R n k)) as (E1 & E2 & E3);
      [lia|lia|reflexivity|].
    destruct (shr (shr_record_of_loc n loc_Exact) k 1) as [mrs'' e''].
    cbn [fst snd] in *. subst e''.
    assert (Hhalf : shr_m mrs'' = (2 ^ (prec - 1))%Z).
    { rewrite E2, Hn2. replace prec with ((prec - 1) + 1)%Z at 1 by lia.
      rewrite Z.pow_add_r by lia. apply Z.div_mul. discriminate. }
    assert (Hval : F2R (shr_m mrs'') (k + 1) = F2R n k).
    { rewrite Hhalf, Hn2, !F2R_pow by lia. f_equal. lia. }
    assert (Hpos : (0 < 2 ^ (prec - 1))%Z) by (apply Z.pow_pos_nonneg; lia).
    destruct (shr_m mrs'') as [|p|p]; [lia| |lia].
    destruct (Z.leb_spec (k + 1) (emax - prec)) as [Hfin|Hinf]; [auto|].
    split; [reflexivity|].
    rewrite Hn2, F2R_pow by lia. apply bpow_le. lia.
Qed.

End Spec.

Section Canonical.

Variables prec emax : Z.
Hypothesis Hprec : (0 < prec)%Z.
Hypothesis Hemax : (prec < emax)%Z.

Abbreviation emin := (SpecFloat.emin prec emax).
Abbreviation fexp := (SpecFloat.fexp prec emax).

Lemma bounded_canonical (m : positive) (e : Z) :
  bounded prec emax m e = true ->
  fexp (Zpos (digits2_pos m) + e) = e /\ (e <= emax - prec)%Z.
Proof.
  unfold bounded, canonical_mantissa. intros H.
  apply andb_true_iff in H as [H1 H2].
  apply Z.eqb_eq in H1. apply Z.leb_le in H2. auto.
Qed.

Lemma bounded_digits (m : positive) (e : Z) :
  bounded prec emax m e = true ->
  (Zpos (digits2_pos m) <= prec)%Z /\ (emin <= e)%Z /\
  (emin < e -> Zpos (digits2_pos m) = prec)%Z.
Proof.
  intros H. apply bounded_canonical in H as [H _].
  unfold SpecFloat.fexp in H. lia.
Qed.

Lemma F2R_pos_below (m : positive) (e : Z) :
  F2R (Zpos m) e < bpow (Zpos (digits2_pos m) + e).
Proof.
  rewrite <- F2R_pow by lia. apply F2R_lt.
  apply (digits2_pos_bounds m).
Qed.

Lemma F2R_pos_above (m : positive) (e : Z) :
  bpow (Zpos (digits2_pos m) - 1 + e) <= F2R (Zpos m) e.
Proof.
  pose proof (digits2_pos_bounds m) as [H _].
  rewrite <- F2R_pow by lia. now apply F2R_le.
Qed.

Lemma F2R_pos_gt_0 (m : positive) (e : Z) : 0 < F2R (Zpos m) e.
Proof.
  unfold F2R. apply Rmult_lt_0_compat; [now apply IZR_lt|apply bpow_pos].
Qed.

(** Of two floats of the format, the one with the smaller exponent is the
    smaller number. *)
Lemma canonical_lt_exp (m1 m2 : positive) (e1 e2 : Z) :
  bounded prec emax m1 e1 = true -> bounded prec emax m2 e2 = true ->
  (e1 < e2)%Z -> F2R (Zpos m1) e1 < F2R (Zpos m2) e2.
Proof.
  intros H1 H2 He.
  destruct (bounded_digits m1 e1 H1) as (Hd1 & Hmin1 & _).
  destruct (bounded_digits m2 e2 H2) as (_ & _ & Hd2).
  apply Rlt_le_trans with (1 := F2R_pos_below m1 e1).
  apply Rle_trans with (2 := F2R_pos_above m2 e2).
  apply bpow_le. rewrite Hd2 by lia. lia.
Qed.

Lemma canonical_le_iff (m1 m2 : positive) (e1 e2 : Z) :
  bounded prec emax m1 e1 = true -> bounded prec emax m2 e2 = true ->
  (F2R (Zpos m1) e1 <= F2R (Zpos m2) e2 <->
   SFleb (S754_finite false m1 e1) (S754_finite false m2 e2) = true).
Proof.
  intros H1 H2. unfold SFleb, SFcompare.
  change (PosDef.Pos.compare_cont Eq) with Pos.compare.
  destruct (Z.compare_spec e1 e2) as [E|E|E].
  - subst e2. destruct (Pos.compare_spec m1 m2) as [E|E|E]; split; intros H;
      try reflexivity; try discriminate.
    + subst. lra.
    + apply F2R_le. lia.
    + apply F2R_le_inv in H. lia.
  - split; [reflexivity|]. intros _.
    apply Rlt_le. now apply canonical_lt_exp.
  - split; [|discriminate]. intros H.
    pose proof (canonical_lt_exp m2 m1 e2 e1 H2 H1 E). lra.
Qed.

(** A float of the format is its own rounding. *)
Lemma canonical_rounds (m : positive) (e : Z) :
  bounded prec emax m e = true ->
  cexp prec emax (F2R (Zpos m) e) e /\ rounds (F2R (Zpos m) e) e (Zpos m).
Proof.
  intros H. destruct (bounded_canonical m e H) as [Hc _]. split.
  - exists (Zpos (digits2_pos m) + e)%Z.
    split; [apply F2R_pos_below|]. split; [exact Hc|]. left.
    replace (Z.pos (digits2_pos m) + e - 1)%Z
      with (Z.pos (digits2_pos m) - 1 + e)%Z by lia.
    apply F2R_pos_above.
  - unfold rounds, F2R. pose proof (bpow_pos e). split; [nra|].
    intros [E|E]; nra.
Qed.

Lemma bounded_below_emax (m : positive) (e : Z) :
  bounded prec emax m e = true -> F2R (Zpos m) e < bpow emax.
Proof.
  intros H. destruct (bounded_digits m e H) as (Hd & _ & _).
  destruct (bounded_canonical m e H) as [_ He].
  apply Rlt_le_trans with (1 := F2R_pos_below m e).
  apply bpow_le. lia.
Qed.

(** Roundings of ordered numbers are ordered floats. *)
Lemma rounded_to_le (r1 r2 : spec_float) (n1 k1 n2 k2 : Z) :
  SpecFloat.valid_binary prec emax r1 = true ->
  SpecFloat.valid_binary prec emax r2 = true ->
  rounded_to emax r1 n1 k1 -> rounded_to emax r2 n2 k2 ->
  F2R n1 k1 <= F2R n2 k2 ->
  SFleb r1 r2 = true.
Proof.
  intros V1 V2 R1 R2 Hle.
  destruct r1 as [s1|s1| |s1 m1 e1], r2 as [s2|s2| |s2 m2 e2];
    cbn [rounded_to] in R1, R2; try contradiction;
    destruct R1 as [-> R1], R2 as [-> R2]; try reflexivity.
  - (* infinity, zero *)
    exfalso. subst n2. unfold F2R at 2 in Hle. pose proof (bpow_pos emax). lra.
  - (* infinity, finite *)
    exfalso. pose proof (bounded_below_emax m2 e2 V2). lra.
  - (* finite, zero *)
    exfalso. subst n2. unfold F2R at 2 in Hle.
    pose proof (F2R_pos_gt_0 m1 e1). lra.
  - (* finite, finite *)
    apply canonical_le_iff; [exact V1|exact V2|lra].
Qed.

End Canonical.

Lemma Pos_iter_xO (m d : positive) :
  Zpos (Pos.iter xO m d) = (Zpos m * 2 ^ Zpos d)%Z /\
  Zpos (digits2_pos (Pos.iter xO m d)) = (Zpos (digits2_pos m) + Zpos d)%Z.
Proof.
  induction d as [|d [IH1 IH2]] using Pos.peano_ind.
  - cbn [Pos.iter digits2_pos]. split; [now rewrite Pos2Z.inj_xO; lia|].
    rewrite Pos2Z.inj_succ. lia.
  - rewrite Pos.iter_succ. cbn [digits2_pos]. split.
    + rewrite Pos2Z.inj_xO, IH1, Pos2Z.inj_succ, Z.pow_succ_r by lia. lia.
    + rewrite !Pos2Z.inj_succ, IH2. lia.
Qed.

Lemma shl_align_spec (mx : positive) (ex ex' : Z) :
  F2R (Zpos (fst (shl_align mx ex ex'))) (snd (shl_align mx ex ex'))
    = F2R (Zpos mx) ex /\
  snd (shl_align mx ex ex') = Z.min ex ex' /\
  (Zpos (digits2_pos (fst (shl_align mx ex ex'))) + snd (shl_align mx ex ex')
   = Zpos (digits2_pos mx) + ex)%Z.
Proof.
  unfold shl_align. destruct (ex' - ex)%Z as [|d|d] eqn:E; cbn [fst snd].
  - split; [reflexivity|]. split; lia.
  - split; [reflexivity|]. split; lia.
  - destruct (Pos_iter_xO mx d) as [H1 H2]. rewrite H1, H2.
    split; [|split; lia].
    rewrite F2R_shift by lia. f_equal. lia.
Qed.

Section Operations.

Variables prec emax : Z.
Hypothesis Hprec : (0 < prec)%Z.
Hypothesis Hemax : (prec < emax)%Z.

Abbreviation emin := (SpecFloat.emin prec emax).
Abbreviation fexp := (SpecFloat.fexp prec emax).

Lemma binary_round_aux_rounds_to (mx ex : Z) (lx : location) (x : R) :
  (0 <= mx)%Z -> represents mx ex lx x ->
  (ex <= fexp (Zdigits2 mx + ex))%Z ->
  rounds_to prec emax (binary_round_aux prec emax false mx ex lx) x.
Proof.
  intros Hm Hrep He.
  destruct (binary_round_aux_spec prec emax Hprec Hemax false mx ex lx x Hm Hrep He)
    as (n & k & Hc & Hr & Hn & Hres).
  exists n, k. split; [exact Hc|]. split; [exact Hr|]. split; [exact Hn|].
  unfold rounded_to.
  destruct (binary_round_aux prec emax false mx ex lx); exact Hres.
Qed.

Lemma binary_round_rounds_to (m : positive) (e : Z) :
  rounds_to prec emax (binary_round prec emax false m e) (F2R (Zpos m) e).
Proof.
  unfold binary_round.
  destruct (shl_align_spec m e (fexp (Zpos (digits2_pos m) + e))) as (H1 & H2 & H3).
  destruct (shl_align m e (fexp (Zpos (digits2_pos m) + e))) as [mz ez].
  cbn [fst snd] in *.
  apply binary_round_aux_rounds_to.
  - lia.
  - unfold represents, inbetween. now rewrite H1.
  - cbn [Zdigits2]. rewrite H3. lia.
Qed.

(** The sum of two positive floats is the rounding of the sum of their
    values. *)
Lemma SFadd_rounds_to (m1 m2 : positive) (e1 e2 : Z) :
  rounds_to prec emax (SFadd prec emax (S754_finite false m1 e1) (S754_finite false m2 e2))
    (F2R (Zpos m1) e1 + F2R (Zpos m2) e2).
Proof.
  cbn [SFadd cond_Zopp].
  destruct (shl_align_spec m1 e1 (Z.min e1 e2)) as (A1 & A2 & _).
  destruct (shl_align_spec m2 e2 (Z.min e1 e2)) as (B1 & B2 & _).
  destruct (shl_align m1 e1 (Z.min e1 e2)) as [a ea].
  destruct (shl_align m2 e2 (Z.min e1 e2)) as [b eb].
  cbn [fst snd] in *.
  replace ea with (Z.min e1 e2) in A1 by lia.
  replace eb with (Z.min e1 e2) in B1 by lia.
  rewrite <- A1, <- B1.
  replace (F2R (Z.pos a) (Z.min e1 e2) + F2R (Z.pos b) (Z.min e1 e2))
    with (F2R (Z.pos (a + b)) (Z.min e1 e2)).
  - change (Z.pos a + Z.pos b)%Z with (Z.pos (a + b)).
    cbn [binary_normalize]. apply binary_round_rounds_to.
  - unfold F2R. rewrite Pos2Z.inj_add, plus_IZR. ring.
Qed.

(** The location of a quotient's remainder. *)
Lemma new_location_represents (q r m2 e : Z) :
  (0 < m2)%Z -> (0 <= r < m2)%Z ->
  represents q e (new_location m2 r) ((IZR q + IZR r / IZR m2) * bpow e).
Proof.
  intros Hm2 Hr.
  assert (Hm2R : 0 < IZR m2) by now apply IZR_lt.
  pose proof (bpow_pos e) as Hu.
  set (t := IZR r / IZR m2).
  assert (Ht : t * IZR m2 = IZR r) by (unfold t; field; lra).
  assert (Hr0 : 0 <= IZR r) by (apply IZR_le; lia).
  assert (Hr1 : IZR r < IZR m2) by (apply IZR_lt; lia).
  assert (Ht0 : 0 <= t < 1) by (split; nra).
  unfold represents, inbetween, F2R. rewrite plus_IZR.
  assert (Hcmp : forall c, Z.compare (2 * r) m2 = c ->
            match c with
            | Lt => t < /2
            | Eq => t = /2
            | Gt => /2 < t
            end).
  { intros c Hc. destruct (Z.compare_spec (2 * r) m2) as [E|E|E]; subst c.
    - assert (2 * IZR r = IZR m2) by (rewrite <- E, mult_IZR; reflexivity). nra.
    - apply IZR_lt in E. rewrite mult_IZR in E. nra.
    - apply IZR_lt in E. rewrite mult_IZR in E. nra. }
  unfold new_location.
  destruct (Z.even m2) eqn:Ev.
  - unfold new_location_even.
    destruct (Z.eqb_spec r 0) as [->|Hne].
    + subst t. replace (0 / IZR m2) with 0 by (unfold Rdiv; ring). ring.
    + assert (0 < t).
      { assert (0 < IZR r) by (apply IZR_lt; lia). nra. }
      specialize (Hcmp _ eq_refl).
      destruct (Z.compare (2 * r) m2); nra.
  - unfold new_location_odd.
    destruct (Z.eqb_spec r 0) as [->|Hne].
    + subst t. replace (0 / IZR m2) with 0 by (unfold Rdiv; ring). ring.
    + assert (0 < t).
      { assert (0 < IZR r) by (apply IZR_lt; lia). nra. }
      assert (Hodd : (2 * r <> m2)%Z).
      { intros E. rewrite <- E, Z.even_mul in Ev. discriminate. }
      destruct (Z.compare_spec (2 * r + 1) m2) as [E|E|E].
      * assert (Z.compare (2 * r) m2 = Lt) by (apply Z.compare_lt_iff; lia).
        specialize (Hcmp _ H0). nra.
      * assert (Z.compare (2 * r) m2 = Lt) by (apply Z.compare_lt_iff; lia).
        specialize (Hcmp _ H0). nra.
      * assert (Z.compare (2 * r) m2 = Gt) by (apply Z.compare_gt_iff; lia).
        specialize (Hcmp _ H0). nra.
Qed.

Lemma SFdiv_core_binary_spec (m1 m2 : positive) (e1 e2 : Z) :
  let r := SFdiv_core_binary prec emax (Zpos m1) e1 (Zpos m2) e2 in
  (0 <= fst (fst r))%Z /\
  represents (fst (fst r)) (snd (fst r)) (snd r)
    (F2R (Zpos m1) e1 / F2R (Zpos m2) e2) /\
  (snd (fst r) <= fexp (Zdigits2 (fst (fst r)) + snd (fst r)))%Z.
Proof.
  unfold SFdiv_core_binary.
  set (d1 := Zdigits2 (Zpos m1)). set (d2 := Zdigits2 (Zpos m2)).
  set (E := (d1 + e1 - (d2 + e2))%Z).
  set (e' := Z.min (fexp E) (e1 - e2)).
  set (s := (e1 - e2 - e')%Z).
  assert (Hs : (0 <= s)%Z) by (unfold s, e'; lia).
  set (m' := match s with
             | Zpos _ => Z.shiftl (Zpos m1) s
             | Z0 => Zpos m1
             | Zneg _ => Z0
             end).
  assert (Hm' : m' = (Zpos m1 * 2 ^ s)%Z).
  { unfold m'. destruct s as [|p|p] eqn:Es.
    - cbn. lia.
    - now rewrite Z.shiftl_mul_pow2 by lia.
    - lia. }
  clearbody m'.
  pose proof (Z_div_mod m' (Zpos m2) ltac:(lia)) as Hdiv.
  destruct (Z.div_eucl m' (Zpos m2)) as [q r]. destruct Hdiv as [Hq Hr].
  cbn [fst snd].
  assert (Hpow : (0 < 2 ^ s)%Z) by (apply Z.pow_pos_nonneg; lia).
  assert (Hq0 : (0 <= q)%Z) by nia.
  split; [exact Hq0|]. split.
  - replace (F2R (Zpos m1) e1 / F2R (Zpos m2) e2)
      with ((IZR q + IZR r / IZR (Zpos m2)) * bpow e').
    + apply new_location_represents; lia.
    + unfold F2R.
      assert (H2 : 0 < IZR (Zpos m2)) by (apply IZR_lt; lia).
      pose proof (bpow_pos e2) as He2. pose proof (bpow_pos e') as He'.
      replace e1 with (s + (e' + e2))%Z at 1 by (unfold s; lia).
      rewrite !bpow_add, (bpow_IZR s Hs).
      assert (Hm : IZR (Zpos m1) * IZR (2 ^ s) = IZR (Zpos m2) * IZR q + IZR r).
      { rewrite <- !mult_IZR, <- plus_IZR. f_equal. lia. }
      transitivity ((IZR (Zpos m1) * IZR (2 ^ s)) * bpow e' / IZR (Zpos m2)).
      * rewrite Hm. field. lra.
      * field. split; lra.
  - destruct (Z_lt_le_dec e' E) as [Hlt|Hge].
    + (* the quotient has enough digits *)
      set (t := (d1 - 1 + s - d2)%Z).
      assert (Ht : (0 <= t)%Z) by (unfold t, s, E in *; lia).
      pose proof (Zdigits2_bounds (Zpos m1) ltac:(lia)) as [B1 _].
      pose proof (Zdigits2_bounds (Zpos m2) ltac:(lia)) as [_ B2].
      fold d1 in B1. fold d2 in B2.
      assert (Hd1 : (0 < d1)%Z) by (unfold d1; cbn; lia).
      assert (Hd2 : (0 < d2)%Z) by (unfold d2; cbn; lia).
      assert (Hp : (2 ^ t * 2 ^ d2 = 2 ^ (d1 - 1) * 2 ^ s)%Z).
      { rewrite <- !Z.pow_add_r by lia. f_equal. unfold t. lia. }
      assert (Hpt : (0 < 2 ^ t)%Z) by (apply Z.pow_pos_nonneg; lia).
      assert (Hqt : (2 ^ t <= q)%Z) by nia.
      assert (Hq1 : (0 < q)%Z) by lia.
      pose proof (Zdigits2_bounds q Hq1) as [_ B3].
      assert (Hdq : (t < Zdigits2 q)%Z).
      { destruct (Z_lt_le_dec t (Zdigits2 q)) as [L|L]; [exact L|].
        exfalso. pose proof (Zdigits2_nonneg q).
        assert (2 ^ Zdigits2 q <= 2 ^ t)%Z by (apply Z.pow_le_mono_r; lia).
        lia. }
      apply Z.le_trans with (SpecFloat.fexp prec emax E); [unfold e'; lia|].
      apply fexp_mono. unfold t, s, E in *. lia.
    + (* the quotient is below the smallest exponent *)
      apply Z.le_trans with (SpecFloat.emin prec emax); [|apply fexp_emin].
      assert (e' <= fexp E)%Z by (unfold e'; lia).
      unfold SpecFloat.fexp, SpecFloat.emin in *. lia.
Qed.

(** The quotient of two positive floats is the rounding of the quotient of
    their values. *)
Lemma SFdiv_rounds_to (m1 m2 : positive) (e1 e2 : Z) :
  rounds_to prec emax (SFdiv prec emax (S754_finite false m1 e1) (S754_finite false m2 e2))
    (F2R (Zpos m1) e1 / F2R (Zpos m2) e2).
Proof.
  cbn [SFdiv xorb].
  destruct (SFdiv_core_binary_spec m1 m2 e1 e2) as (H1 & H2 & H3).
  destruct (SFdiv_core_binary prec emax (Zpos m1) e1 (Zpos m2) e2) as [[q e'] l].
  cbn [fst snd] in *.
  now apply binary_round_aux_rounds_to.
Qed.

End Operations.

Section Order.

Variables prec emax : Z.
Hypothesis Hprec : (0 < prec)%Z.
Hypothesis Hemax : (prec < emax)%Z.

Lemma finite_rounds_to (m : positive) (e : Z) :
  bounded prec emax m e = true ->
  rounds_to prec emax (S754_finite false m e) (F2R (Zpos m) e).
Proof.
  intros H. destruct (canonical_rounds prec emax m e H) as [Hc Hr].
  exists (Zpos m), e. split; [exact Hc|]. split; [exact Hr|].
  split; [lia|]. split; reflexivity.
Qed.

(** The roundings of ordered numbers are ordered. *)
Lemma rounds_to_le (r1 r2 : spec_float) (x y : R) :
  SpecFloat.valid_binary prec emax r1 = true ->
  SpecFloat.valid_binary prec emax r2 = true ->
  rounds_to prec emax r1 x -> rounds_to prec emax r2 y -> x <= y ->
  SFleb r1 r2 = true.
Proof.
  intros V1 V2 (n1 & k1 & C1 & R1 & _ & T1) (n2 & k2 & C2 & R2 & _ & T2) Hxy.
  eapply rounded_to_le; try eassumption.
  eapply rounds_le; eassumption.
Qed.

(** A rounding is not below zero. *)
Lemma rounds_to_nonneg (r : spec_float) (x : R) :
  rounds_to prec emax r x ->
  SFleb (S754_zero false) r = true /\ SFleb r (S754_infinity false) = true.
Proof.
  intros (n & k & _ & _ & _ & T).
  destruct r as [s|s| |s m e]; cbn [rounded_to] in T; try contradiction;
    destruct T as [-> _]; split; reflexivity.
Qed.

End Order.

Lemma F2R_one : F2R 4503599627370496 (-52) = 1.
Proof.
  change 4503599627370496%Z with (1 * 2 ^ 52)%Z.
  rewrite F2R_shift by lia. unfold F2R, bpow. cbn. lra.
Qed.

Lemma prec_pos : (0 < prec)%Z.
Proof. reflexivity. Qed.

Lemma prec_lt_emax : (prec < emax)%Z.
Proof. reflexivity. Qed.

Lemma SFone_rounds_to : rounds_to prec emax SFone 1.
Proof.
  rewrite <- F2R_one. apply finite_rounds_to. reflexivity.
Qed.

(** [1.0 + s] is at least 1 for [s] not below zero. *)
Lemma add_one_ge_one (s : spec_float) :
  valid_binary s = true -> valid_binary (SF64add SFone s) = true ->
  SFleb (S754_zero false) s = true ->
  SFleb SFone (SF64add SFone s) = true.
Proof.
  intros V VA H.
  destruct s as [sg|sg| |sg m e]; try discriminate H.
  - reflexivity.
  - destruct sg; [discriminate H|reflexivity].
  - destruct sg; [discriminate H|].
    apply rounds_to_le with (prec := prec) (emax := emax) (x := 1)
      (y := F2R 4503599627370496 (-52) + F2R (Zpos m) e);
      try reflexivity.
    + exact VA.
    + exact SFone_rounds_to.
    + apply SFadd_rounds_to; reflexivity.
    + rewrite F2R_one. pose proof (F2R_pos_gt_0 m e). lra.
Qed.

(** [1.0 + s] grows with [s]. *)
Lemma add_one_mono (s1 s2 : spec_float) :
  valid_binary s1 = true -> valid_binary s2 = true ->
  valid_binary (SF64add SFone s1) = true ->
  valid_binary (SF64add SFone s2) = true ->
  SFleb (S754_zero false) s1 = true -> SFleb s1 s2 = true ->
  SFleb (SF64add SFone s1) (SF64add SFone s2) = true.
Proof.
  intros V1 V2 VA1 VA2 H0 H.
  destruct s1 as [sg1|sg1| |sg1 m1 e1]; try discriminate H0.
  - (* zero *)
    destruct s2 as [sg2|sg2| |sg2 m2 e2]; try discriminate H.
    + reflexivity.
    + destruct sg2; [discriminate H|reflexivity].
    + destruct sg2; [discriminate H|].
      apply (add_one_ge_one (S754_finite false m2 e2) V2 VA2). reflexivity.
  - (* infinity *)
    destruct sg1; [discriminate H0|].
    destruct s2 as [[]|[]| |[] m2 e2]; try discriminate H. reflexivity.
  - (* finite *)
    destruct sg1; [discriminate H0|].
    destruct s2 as [sg2|sg2| |sg2 m2 e2]; try discriminate H.
    + destruct sg2; [discriminate H|].
      change (SF64add SFone (S754_infinity false)) with (S754_infinity false).
      eapply rounds_to_nonneg.
      apply SFadd_rounds_to with (prec := prec) (emax := emax); reflexivity.
    + destruct sg2; [discriminate H|].
      apply rounds_to_le with (prec := prec) (emax := emax)
        (x := F2R 4503599627370496 (-52) + F2R (Zpos m1) e1)
        (y := F2R 4503599627370496 (-52) + F2R (Zpos m2) e2);
        try reflexivity.
      * exact VA1.
      * exact VA2.
      * apply SFadd_rounds_to; reflexivity.
      * apply SFadd_rounds_to; reflexivity.
      * apply (canonical_le_iff prec emax) in H; try assumption; try reflexivity.
        lra.
Qed.

(** [1.0 / a] shrinks as [a] grows from 1. *)
Lemma div_one_mono (a1 a2 : spec_float) :
  valid_binary a1 = true -> valid_binary a2 = true ->
  valid_binary (SF64div SFone a1) = true ->
  valid_binary (SF64div SFone a2) = true ->
  SFleb SFone a1 = true -> SFleb a1 a2 = true ->
  SFleb (SF64div SFone a2) (SF64div SFone a1) = true.
Proof.
  intros V1 V2 VD1 VD2 H1 H.
  destruct a1 as [sg1|sg1| |sg1 m1 e1]; try discriminate H1.
  - (* infinity *)
    destruct sg1; [discriminate H1|].
    destruct a2 as [[]|[]| |[] m2 e2]; try discriminate H. reflexivity.
  - (* finite *)
    destruct sg1; [discriminate H1|].
    apply (canonical_le_iff prec emax) in H1; try assumption; try reflexivity.
    rewrite F2R_one in H1.
    destruct a2 as [sg2|sg2| |sg2 m2 e2]; try discriminate H.
    + destruct sg2; [discriminate H|].
      change (SF64div SFone (S754_infinity false)) with (S754_zero false).
      eapply rounds_to_nonneg.
      apply SFdiv_rounds_to with (prec := prec) (emax := emax); reflexivity.
    + destruct sg2; [discriminate H|].
      apply (canonical_le_iff prec emax) in H; try assumption; try reflexivity.
      apply rounds_to_le with (prec := prec) (emax := emax)
        (x := F2R 4503599627370496 (-52) / F2R (Zpos m2) e2)
        (y := F2R 4503599627370496 (-52) / F2R (Zpos m1) e1);
        try reflexivity.
      * exact VD2.
      * exact VD1.
      * apply SFdiv_rounds_to; reflexivity.
      * apply SFdiv_rounds_to; reflexivity.
      * rewrite F2R_one. unfold Rdiv. rewrite !Rmult_1_l.
        apply Rinv_le_contravar; lra.
Qed.

(** In binary64 the similarity never grows with the distance. *)
Lemma similarity_decreasing (d1 d2 : float) :
  (0 <=? d1)%float = true -> (d1 <=? d2)%float = true ->
  (similarity d2 <=? similarity d1)%float = true.
Proof.
  rewrite !leb_spec. intros H0 H. unfold similarity.
  pose proof (Prim2SF_valid d1) as V1. pose proof (Prim2SF_valid d2) as V2.
  pose proof (Prim2SF_valid (1 + d1)) as VA1.
  pose proof (Prim2SF_valid (1 + d2)) as VA2.
  pose proof (Prim2SF_valid (1 / (1 + d1))) as VD1.
  pose proof (Prim2SF_valid (1 / (1 + d2))) as VD2.
  rewrite !div_spec in *. rewrite !add_spec in *.
  change (Prim2SF 1) with SFone in *.
  change (Prim2SF 0) with (S754_zero false) in H0.
  apply div_one_mono; try assumption.
  - now apply add_one_ge_one.
  - now apply add_one_mono.
Qed.

(** A finite float is at most the largest one. *)
Lemma le_max_float (d : float) :
  (d <? infinity)%float = true -> (d <=? max_float)%float = true.
Proof.
  rewrite ltb_spec, leb_spec. pose proof (Prim2SF_valid d) as V.
  change (Prim2SF infinity) with (S754_infinity false).
  change (Prim2SF max_float) with (S754_finite false 9007199254740991 971).
  destruct (Prim2SF d) as [[]|[]| |[] m e]; intros H;
    try discriminate H; try reflexivity.
  apply (canonical_le_iff prec emax); try reflexivity; try exact V.
  destruct (bounded_digits prec emax m e V) as (Hd & _ & _).
  destruct (bounded_canonical prec emax m e V) as [_ He].
  change (emax - prec)%Z with 971%Z in He. change prec with 53%Z in Hd.
  pose proof (digits2_pos_bounds m) as [_ Hm].
  assert (Hp : (2 ^ Zpos (digits2_pos m) <= 2 ^ 53)%Z)
    by (apply Z.pow_le_mono_r; lia).
  apply Rle_trans with (F2R 9007199254740991 e).
  - apply F2R_le. lia.
  - unfold F2R. apply Rmult_le_compat_l.
    + apply IZR_le. lia.
    + now apply bpow_le.
Qed.

Lemma F2R_hundred : F2R 7036874417766400 (-46) = 100.
Proof.
  change 7036874417766400%Z with (100 * 2 ^ 46)%Z.
  rewrite F2R_shift by lia. unfold F2R, bpow. cbn. lra.
Qed.

(** The product of a positive float and [100.0] is the rounding of the
    product of their values. *)
Lemma SFmul_hundred_rounds_to (m : positive) (e : Z) :
  rounds_to prec emax (SF64mul (S754_finite false m e) SFhundred)
    (F2R (Zpos m) e * 100).
Proof.
  unfold SF64mul, SFhundred. cbn [SFmul xorb].
  apply binary_round_aux_rounds_to; try reflexivity.
  - lia.
  - unfold represents, inbetween. rewrite <- F2R_hundred. unfold F2R.
    rewrite bpow_add, Pos2Z.inj_mul, mult_IZR. ring.
  - assert (Hd : (53 <= Zdigits2 (Z.pos (m * 7036874417766400)))%Z).
    { destruct (Zdigits2_bounds (Z.pos (m * 7036874417766400))) as [_ Hu];
        [lia|].
      assert (Hl : (2 ^ 52 < 2 ^ Zdigits2 (Z.pos (m * 7036874417766400)))%Z)
        by (eapply Z.le_lt_trans; [|exact Hu]; rewrite Pos2Z.inj_mul; nia).
      apply Z.pow_lt_mono_r_iff in Hl; [lia|lia|apply Zdigits2_nonneg]. }
    unfold SpecFloat.fexp. change prec with 53%Z. lia.
Qed.

(** [s * 100.0] grows with [s], from zero on. *)
Lemma mul_hundred_mono (s1 s2 : spec_float) :
  valid_binary s1 = true -> valid_binary s2 = true ->
  valid_binary (SF64mul s1 SFhundred) = true ->
  valid_binary (SF64mul s2 SFhundred) = true ->
  SFleb (S754_zero false) s1 = true -> SFleb s1 s2 = true ->
  SFleb (SF64mul s1 SFhundred) (SF64mul s2 SFhundred) = true.
Proof.
  intros V1 V2 VM1 VM2 H0 H.
  destruct s1 as [sg1|sg1| |sg1 m1 e1]; try discriminate H0.
  - (* zero *)
    destruct s2 as [sg2|sg2| |sg2 m2 e2]; try discriminate H.
    + destruct sg1, sg2; reflexivity.
    + destruct sg2; [discriminate H|]. destruct sg1; reflexivity.
    + destruct sg2; [destruct sg1; discriminate H|].
      pose proof (SFmul_hundred_rounds_to m2 e2) as Hr.
      apply (rounds_to_nonneg prec emax) in Hr as [Hr _].
      destruct (SF64mul (S754_finite false m2 e2) SFhundred) as [s|s| |s m e];
        destruct sg1; try exact Hr; try discriminate Hr.
  - (* infinity *)
    destruct sg1; [discriminate H0|].
    destruct s2 as [[]|[]| |[] m2 e2]; try discriminate H. reflexivity.
  - (* finite *)
    destruct sg1; [discriminate H0|].
    destruct s2 as [sg2|sg2| |sg2 m2 e2]; try discriminate H.
    + destruct sg2; [discriminate H|].
      change (SF64mul (S754_infinity false) SFhundred) with (S754_infinity false).
      eapply rounds_to_nonneg. apply SFmul_hundred_rounds_to.
    + destruct sg2; [discriminate H|].
      apply rounds_to_le with (prec := prec) (emax := emax)
        (x := F2R (Zpos m1) e1 * 100) (y := F2R (Zpos m2) e2 * 100);
        try reflexivity.
      * exact VM1.
      * exact VM2.
      * apply SFmul_hundred_rounds_to.
      * apply SFmul_hundred_rounds_to.
      * apply (canonical_le_iff prec emax) in H; try assumption; try reflexivity.
        lra.
Qed.

(** In binary64 the percentage [s * 100] grows with [s], from zero on. *)
Lemma percentage_growing (s1 s2 : float) :
  (0 <=? s1)%float = true -> (s1 <=? s2)%float = true ->
  (s1 * 100 <=? s2 * 100)%float = true.
Proof.
  rewrite !leb_spec. intros H0 H.
  pose proof (Prim2SF_valid s1) as V1. pose proof (Prim2SF_valid s2) as V2.
  pose proof (Prim2SF_valid (s1 * 100)) as VM1.
  pose proof (Prim2SF_valid (s2 * 100)) as VM2.
  rewrite !mul_spec in *.
  change (Prim2SF 100) with SFhundred in *.
  change (Prim2SF 0) with (S754_zero false) in H0.
  now apply mul_hundred_mono.
Qed.

End RoundingFacts.

(** ** Slicing and sorting *)

Module PyListFacts.

Import PyList.

Section Facts.

Variable A : Type.

Lemma slice_to_length (k : Z) (l : list A) :
  (0 <= k)%Z -> (List.length (slice_to k l) <= Z.to_nat k)%nat.
Proof.
  intros H. unfold slice_to.
  destruct (Z.leb_spec 0 k); [|lia].
  rewrite length_firstn. lia.
Qed.

Lemma slice_to_firstn (k : Z) (l : list A) :
  exists n, slice_to k l = firstn n l.
Proof. unfold slice_to. destruct (0 <=? k)%Z; eexists; reflexivity. Qed.

Lemma firstn_In (n : nat) (l : list A) (x : A) : In x (firstn n l) -> In x l.
Proof.
  revert l; induction n as [|n IH]; intros [|y l]; simpl; try tauto.
  intros [->|H]; auto.
Qed.

Lemma firstn_NoDup_map {B : Type} (f : A -> B) (n : nat) (l : list A) :
  NoDup (map f l) -> NoDup (map f (firstn n l)).
Proof.
  revert l; induction n as [|n IH]; intros [|y l]; simpl; try constructor.
  - inversion H; subst. intros Hin. apply H2.
    apply in_map_iff in Hin as (z & Hz & Hin).
    apply in_map_iff. exists z. split; [exact Hz|]. eapply firstn_In, Hin.
  - inversion H; subst. auto.
Qed.

Lemma firstn_filter_prefix (p : A -> bool) (n : nat) (l : list A) :
  exists rest, filter p l = (filter p (firstn n l) ++ rest)%list.
Proof.
  revert l; induction n as [|n IH]; intros l.
  - exists (filter p l). reflexivity.
  - destruct l as [|y l]; simpl.
    + exists []. reflexivity.
    + destruct (IH l) as [rest Hrest]. exists rest.
      destruct (p y); simpl; now rewrite Hrest.
Qed.

Variable key : A -> float.

Lemma insert_perm (reverse : bool) (x : A) (l : list A) :
  Permutation (insert key reverse x l) (x :: l).
Proof.
  induction l as [|y l IH]; simpl; [apply Permutation_refl|].
  destruct (precedes key reverse y x).
  - eapply perm_trans; [apply perm_skip, IH|].
    apply perm_swap.
  - apply Permutation_refl.
Qed.

(** [sorted] only reorders. *)
Lemma sorted_perm (reverse : bool) (l : list A) :
  Permutation (sorted key reverse l) l.
Proof.
  induction l as [|x l IH]; simpl; [constructor|].
  eapply perm_trans; [apply insert_perm|].
  now apply perm_skip.
Qed.

Lemma insert_descending (x : A) (l : list A) :
  is_nan (key x) = false ->
  Forall (fun y => is_nan (key y) = false) l ->
  descending key l -> descending key (insert key true x l).
Proof.
  unfold descending. intros Hx Hl Hs. induction Hs as [|y l Hs IH Hy]; simpl.
  - repeat constructor.
  - inversion Hl as [|? ? Hny Hl']; subst.
    unfold precedes. destruct (key x <? key y)%float eqn:E.
    + constructor; [now apply IH|].
      apply Forall_forall. intros z Hz.
      apply (Permutation_in _ (insert_perm true x l)) in Hz.
      destruct Hz as [<-|Hz].
      * now apply Float64Facts.ltb_leb.
      * rewrite Forall_forall in Hy. now apply Hy.
    + assert (Hyx : (key y <=? key x)%float = true)
        by now apply Float64Facts.leb_total.
      constructor; [now constructor|].
      constructor; [exact Hyx|].
      eapply Forall_impl; [|exact Hy]. simpl. intros z Hz.
      eapply Float64Facts.leb_trans; eassumption.
Qed.

(** On keys that are numbers, [sorted(..., reverse=True)] is in descending
    order. *)
Lemma sorted_descending (l : list A) :
  Forall (fun y => is_nan (key y) = false) l ->
  descending key (sorted key true l).
Proof.
  induction 1 as [|x l Hx Hl IH]; simpl; [constructor|].
  apply insert_descending; auto.
  eapply Permutation_Forall; [|exact Hl].
  apply Permutation_sym, sorted_perm.
Qed.

Lemma firstn_descending (n : nat) (l : list A) :
  descending key l -> descending key (firstn n l).
Proof.
  unfold descending. intros H. revert n.
  induction H as [|x l Hs IH Hx]; intros [|n]; simpl;
    try (constructor; fail).
  constructor; [apply IH|].
  apply Forall_forall. intros z Hz. apply firstn_In in Hz.
  rewrite Forall_forall in Hx. auto.
Qed.

(** The sort is stable: items of one key keep their order. *)
Lemma insert_filter_key (s : float) (x : A) (l : list A) :
  filter (fun y => (key y =? s)%float) (insert key true x l)
  = filter (fun y => (key y =? s)%float) (x :: l).
Proof.
  induction l as [|y l IH]; [reflexivity|].
  cbn [insert]. unfold precedes. destruct (key x <? key y)%float eqn:E.
  - cbn [filter] in *. rewrite IH.
    destruct (key x =? s)%float eqn:Ex; [|reflexivity].
    now rewrite (Float64Facts.eqb_ltb_neq Ex E).
  - reflexivity.
Qed.

Lemma sorted_stable (s : float) (l : list A) :
  filter (fun y => (key y =? s)%float) (sorted key true l)
  = filter (fun y => (key y =? s)%float) l.
Proof.
  induction l as [|x l IH]; [reflexivity|].
  cbn [sorted fold_right]. rewrite insert_filter_key.
  cbn [filter]. fold (sorted key true l). now rewrite IH.
Qed.

End Facts.

End PyListFacts.

(** ** The monad *)

Lemma bind_Return {A B : Type} (c : M A) (k : A -> M B) (m m' : Machine) (b : B) :
  bind c k m = (Return b, m') ->
  exists a m1, c m = (Return a, m1) /\ k a m1 = (Return b, m').
Proof.
  unfold bind. destruct (c m) as [[a|e] m1]; intros H.
  - now exists a, m1.
  - discriminate.
Qed.

Lemma bind_Return_run {A B : Type} (c : M A) (k : A -> M B) (m m1 : Machine) (a : A) :
  c m = (Return a, m1) -> bind c k m = k a m1.
Proof. unfold bind. now intros ->. Qed.

Lemma check_initialized_Return (msg : string) (m m' : Machine) (u : unit) :
  check_initialized msg m = (Return u, m') ->
  initialized (self m) = true /\ m' = m.
Proof.
  unfold check_initialized, bind, get_self, ret, raise.
  destruct (initialized (self m)); intros [= ]; auto.
Qed.

Lemma check_initialized_ok (msg : string) (m : Machine) :
  initialized (self m) = true -> check_initialized msg m = (Return tt, m).
Proof.
  intros H. unfold check_initialized, bind, get_self, ret. now rewrite H.
Qed.

(* ================================================================= *)
(** ** Citation snippets (C7) *)

Lemma snippet_of_short (text : string) :
  (String.length text <= 200)%nat -> snippet_of text = text.
Proof.
  intros H. unfold snippet_of.
  destruct (Nat.ltb_spec 200 (String.length text)); [lia|reflexivity].
Qed.

Lemma snippet_of_long (text : string) :
  (200 < String.length text)%nat ->
  snippet_of text = PyStr.take 200 text ++ "..." /\
  String.length (snippet_of text) = 203%nat.
Proof.
  intros H. unfold snippet_of.
  destruct (Nat.ltb_spec 200 (String.length text)); [|lia].
  split; [reflexivity|].
  rewrite PyStrFacts.length_append, PyStrFacts.length_take.
  rewrite Nat.min_l by lia. reflexivity.
Qed.

(** C7, as stated, fails: a fragment of 201 characters is cited by a snippet
    of 203 characters, its first 200 characters and the marker. *)
Lemma snippet_longer_than_200 :
  String.length (nws_text Sample.long_node) = 201%nat /\
  String.length (source_snippet (source_of Sample.long_node)) = 203%nat.
Proof. split; vm_compute; reflexivity. Qed.

(** The filter that [query] hands to the query engine (lines 120-129). *)
Lemma query_Return (env : Env) (query_text : string) (case_id : option string)
    (m m' : Machine) (r : QueryResult) :
  query env query_text case_id m = (Return r, m') ->
  exists response nodes,
    query_engine_query env
      match case_id with
      | Some c => if PyStr.truthy c then Some c else None
      | None => None
      end query_text m = (Return (response, nodes), m') /\
    answer r = response /\
    sources r = map source_of nodes.
Proof.
  unfold query. intros H.
  apply bind_Return in H as (u & m0 & Hinit & H).
  apply check_initialized_Return in Hinit as [_ ->].
  apply bind_Return in H as ([response nodes] & m2 & Hq & H).
  unfold ret in H. injection H as <- <-.
  exists response, nodes. split; [exact Hq|]. split; reflexivity.
Qed.

(** C7, amended: [query] cites every fragment that the query engine
    retrieved, one citation per fragment and in their order; the snippet of
    a citation is the fragment's text unchanged when the text has at most
    200 characters, and otherwise the first 200 characters of the text
    followed by the three-character marker "...", 203 characters in all. *)
Theorem query_snippets (env : Env) (query_text : string) (case_id : option string)
    (m m' : Machine) (r : QueryResult) :
  query env query_text case_id m = (Return r, m') ->
  exists (response : string) (retrieved : list NodeWithScore),
    query_engine_query env
      match case_id with
      | Some c => if PyStr.truthy c then Some c else None
      | None => None
      end query_text m = (Return (response, retrieved), m') /\
    Forall2 (fun node citation =>
      let text := nws_text node in
      let s := source_snippet citation in
      (String.length s <= 203)%nat /\
      ((String.length text <= 200)%nat -> s = text) /\
      ((200 < String.length text)%nat ->
         s = PyStr.take 200 text ++ "..." /\ String.length s = 203%nat))
      retrieved (sources r).
Proof.
  intros H. apply query_Return in H as (response & nodes & Hq & _ & Hsrc).
  exists response, nodes. split; [exact Hq|]. rewrite Hsrc. clear.
  induction nodes as [|node nodes IH]; cbn [map]; constructor; [|exact IH].
  cbn [source_of source_snippet].
  destruct (Nat.le_gt_cases (String.length (nws_text node)) 200) as [Hle|Hgt].
  - rewrite (snippet_of_short _ Hle). split; [lia|]. split; [reflexivity|lia].
  - destruct (snippet_of_long _ Hgt) as [Heq Hlen].
    split; [lia|]. split; [lia|]. intros _. split; [exact Heq|exact Hlen].
Qed.

Lemma query_snippets_witness :
  exists (response : string) (retrieved : list NodeWithScore) (m' : Machine),
    query_engine_query Sample.env None "competency"
      (Sample.machine
         [Sample.node "case_001" "evaluation.txt" "Competency evaluation" 21;
          Sample.node "case_001" "testimony.txt" "Expert testimony" 16]
         Sample.no_files) = (Return (response, retrieved), m') /\
    map nws_text retrieved = ["Expert testimony"; "Competency evaluation"].
Proof.
  destruct (@query_snippets Sample.env "competency" None
              (Sample.machine
                 [Sample.node "case_001" "evaluation.txt" "Competency evaluation" 21;
                  Sample.node "case_001" "testimony.txt" "Expert testimony" 16]
                 Sample.no_files) _ _ eq_refl)
    as (response & retrieved & Hq & _).
  eexists response, retrieved, _. split; [exact Hq|].
  vm_compute in Hq. injection Hq as _ <-. reflexivity.
Defined.

(* ================================================================= *)
(** ** Blank input (C5) *)

Lemma truthy_strip_blank (text : string) :
  PyStr.blank text = true ->
  negb (PyStr.truthy text) || negb (PyStr.truthy (PyStr.strip text)) = true.
Proof.
  intros H. apply PyStrFacts.strip_empty_iff in H. rewrite H.
  apply orb_true_r.
Qed.

Lemma truthy_strip_not_blank (text : string) :
  PyStr.blank text = false ->
  negb (PyStr.truthy text) || negb (PyStr.truthy (PyStr.strip text)) = false.
Proof.
  intros H.
  assert (Hs : PyStr.strip text <> "").
  { intros E. apply PyStrFacts.strip_empty_iff in E. congruence. }
  destruct text as [|c text]; [discriminate|].
  destruct (PyStr.strip (String c text)); [congruence|reflexivity].
Qed.

(** C5, as stated, fails for the engine's own methods: [RAGEngine.query] and
    [RAGEngine.search_cases] do not look at the text, and on a
    whitespace-only text they call the embedding provider and the store. *)
Lemma engine_methods_accept_blank_text :
  PyStr.blank "   " = true /\
  calls (snd (query Sample.env "   " None (Sample.machine [] Sample.no_files)))
    = [EmbeddingCall "   "; StoreQueryCall 5; CompletionCall "   "] /\
  calls (snd (search_cases Sample.env "   " 5 (Sample.machine [] Sample.no_files)))
    = [EmbeddingCall "   "; StoreQueryCall 0].
Proof. repeat split; vm_compute; reflexivity. Qed.

(** C5, amended: the check is made by the request handlers of main.py.  With
    the engine in place, [query_documents] and the [/search-cases] handler
    answer an empty or whitespace-only text with the 400 error and leave the
    state as it was: the engine is not called, so no embedding, completion or
    store query is attempted. *)
Theorem handlers_reject_blank_text (env : Env) (text : string)
    (case_id : option string) (s : Server) (e : RAGEngine) :
  rag_engine s = Some e ->
  PyStr.blank text = true ->
  query_documents env {| request_query := text; request_case_id := case_id |} s
    = (Raise (HTTPException 400 "Query cannot be empty"), s) /\
  search_cases_handler env {| request_description := text |} s
    = (Raise (HTTPException 400 "Description cannot be empty"), s).
Proof.
  intros He Hb. unfold query_documents, search_cases_handler. simpl.
  rewrite He, (truthy_strip_blank _ Hb). split; reflexivity.
Qed.

Lemma handlers_reject_blank_text_witness :
  query_documents Sample.env
    {| request_query := "   "; request_case_id := None |} (Sample.server [])
    = (Raise (HTTPException 400 "Query cannot be empty"), Sample.server []) /\
  search_cases_handler Sample.env {| request_description := "   " |} (Sample.server [])
    = (Raise (HTTPException 400 "Description cannot be empty"), Sample.server []).
Proof.
  exact (handlers_reject_blank_text Sample.env "   " None (Sample.server [])
           eq_refl eq_refl).
Defined.

(** Before start-up the handlers answer 503, whatever the text, and make no
    call either. *)
Lemma handlers_without_engine (env : Env) (text : string)
    (case_id : option string) (s : Server) :
  rag_engine s = None ->
  snd (query_documents env {| request_query := text; request_case_id := case_id |} s) = s /\
  snd (search_cases_handler env {| request_description := text |} s) = s.
Proof.
  intros H. unfold query_documents, search_cases_handler. now rewrite H.
Qed.

(** A text that is not blank reaches the engine. *)
Lemma handlers_pass_other_text (env : Env) (text : string)
    (case_id : option string) (s : Server) (e : RAGEngine) :
  rag_engine s = Some e ->
  PyStr.blank text = false ->
  query_documents env {| request_query := text; request_case_id := case_id |} s
    = call_engine "Query failed: " e (query env text case_id) s.
Proof.
  intros He Hb. unfold query_documents. simpl.
  now rewrite He, (truthy_strip_not_blank _ Hb).
Qed.

(* ================================================================= *)
(** ** Manifest keys (C6) *)

(** For one case the key determines the file name. *)
Lemma doc_key_same_case (case_id f1 f2 : string) :
  doc_key case_id f1 = doc_key case_id f2 -> f1 = f2.
Proof.
  unfold doc_key. induction case_id as [|c s IH]; simpl.
  - now intros [= ].
  - intros [= H]. auto.
Qed.

(** Every key made for a case is selected by [keys_to_remove]. *)
Lemma keys_to_remove_complete (case_id file_name : string) (manifest : Manifest) :
  In (doc_key case_id file_name) (PyDict.keys manifest) ->
  In (doc_key case_id file_name) (keys_to_remove case_id manifest).
Proof.
  intros H. unfold keys_to_remove. apply filter_In. split; [exact H|].
  unfold PyStr.startswith, doc_key.
  replace (case_id ++ "_" ++ file_name) with ((case_id ++ "_") ++ file_name).
  - apply PyStrFacts.prefix_append.
  - clear H. induction case_id as [|c s IH]; simpl; [reflexivity|now rewrite IH].
Qed.

(** C6 on the code: the key is not injective, since the separator may occur
    in a case identifier and in a file name; and clearing the case [case_1]
    also removes the entry of the case [case_1_a]. *)
Theorem doc_key_collision :
  doc_key "case_1" "a_b.txt" = doc_key "case_1_a" "b.txt" /\
  keys_to_remove "case_1" Sample.colliding_manifest
    = [doc_key "case_1" "x.txt"; doc_key "case_1_a" "y.txt"] /\
  fst (clear_case_documents Sample.env "case_1"
         (Sample.machine [] (Sample.manifest_at clear_manifest_path
                               Sample.colliding_manifest)))
    = Return 2%nat /\
  files (snd (clear_case_documents Sample.env "case_1"
                (Sample.machine [] (Sample.manifest_at clear_manifest_path
                                      Sample.colliding_manifest))))
        clear_manifest_path
    = Parsed [(doc_key "case_2" "z.txt", Sample.entry "case_2" "z.txt")].
Proof. repeat split; vm_compute; reflexivity. Qed.

(* ================================================================= *)
(** ** Deduplication by case (C2) *)

Lemma dedup_step_case_of (acc : PyDict.t float * PyDict.t string) (h : Hit) :
  dedup_step acc h =
  match case_of h with
  | None => acc
  | Some c =>
      if match PyDict.get c (fst acc) with
         | None => true
         | Some best => (best <? similarity (hit_distance h))%float
         end
      then (PyDict.set c (similarity (hit_distance h)) (fst acc),
            PyDict.set c (hit_document h) (snd acc))
      else acc
  end.
Proof.
  unfold dedup_step, case_of. destruct acc as [scores texts].
  destruct (PyDict.get "case_id" (hit_metadata h)) as [c|]; [|reflexivity].
  destruct (PyStr.truthy c); reflexivity.
Qed.

Lemma best_hit_extend_other (pool : list Hit) (h : Hit) (c : string) (s : float)
    (text : string) :
  case_of h <> Some c -> best_hit pool c s text ->
  best_hit (pool ++ [h]) c s text.
Proof.
  intros Hne (before & h0 & after & -> & Hc & Hs & Ht & Hb & Ha).
  exists before, h0, (after ++ [h])%list.
  rewrite <- app_assoc. repeat split; auto.
  intros h' Hin Hc'. apply in_app_or in Hin as [Hin|[<-|[]]]; [auto|congruence].
Qed.

Lemma best_hit_extend_leb (pool : list Hit) (h : Hit) (c : string) (s : float)
    (text : string) :
  (similarity (hit_distance h) <=? s)%float = true ->
  best_hit pool c s text -> best_hit (pool ++ [h]) c s text.
Proof.
  intros Hle (before & h0 & after & -> & Hc & Hs & Ht & Hb & Ha).
  exists before, h0, (after ++ [h])%list.
  rewrite <- app_assoc. repeat split; auto.
  intros h' Hin Hc'. apply in_app_or in Hin as [Hin|[<-|[]]]; auto.
Qed.

Lemma best_hit_all_below (pool : list Hit) (c : string) (best s : float)
    (text : string) :
  best_hit pool c best text -> (best <? s)%float = true ->
  forall h', In h' pool -> case_of h' = Some c ->
             (similarity (hit_distance h') <? s)%float = true.
Proof.
  intros (before & h0 & after & -> & Hc & Hs & Ht & Hb & Ha) Hlt h' Hin Hc'.
  apply in_app_or in Hin as [Hin|[<-|Hin]].
  - eapply Float64Facts.ltb_trans; [apply Hb|]; eauto.
  - now rewrite <- Hs.
  - eapply Float64Facts.leb_ltb_trans; [apply Ha|]; eauto.
Qed.

Lemma best_hit_last (pool : list Hit) (h : Hit) (c : string) :
  case_of h = Some c ->
  (forall h', In h' pool -> case_of h' = Some c ->
              (similarity (hit_distance h') <? similarity (hit_distance h))%float = true) ->
  best_hit (pool ++ [h]) c (similarity (hit_distance h)) (hit_document h).
Proof.
  intros Hc Hall. exists pool, h, []. repeat split; auto.
Qed.

Lemma deduplicate_snoc (pool : list Hit) (h : Hit) :
  deduplicate (pool ++ [h]) = dedup_step (deduplicate pool) h.
Proof. unfold deduplicate. now rewrite fold_left_app. Qed.

Lemma first_seen_snoc (pool : list Hit) (h : Hit) :
  first_seen (pool ++ [h]) =
  match case_of h with
  | Some c => if existsb (String.eqb c) (first_seen pool) then first_seen pool
              else (first_seen pool ++ [c])%list
  | None => first_seen pool
  end.
Proof. unfold first_seen. now rewrite fold_left_app. Qed.

Lemma NoDup_first_seen (pool : list Hit) : NoDup (first_seen pool).
Proof.
  induction pool as [|h pool IH] using rev_ind; [constructor|].
  rewrite first_seen_snoc. destruct (case_of h) as [c|]; [|exact IH].
  destruct (existsb (String.eqb c) (first_seen pool)) eqn:E; [exact IH|].
  apply NoDup_app; [exact IH|repeat constructor; simpl; tauto|].
  intros x Hx [Heq|[]]. subst x.
  assert (existsb (String.eqb c) (first_seen pool) = true); [|congruence].
  apply existsb_exists. exists c. split; [exact Hx|apply String.eqb_refl].
Qed.

(** The loop of lines 253-267 retains the cases of the pool, each once, in
    the order of their first rows, whatever the distances are. *)
Lemma deduplicate_keys (pool : list Hit) :
  PyDict.keys (fst (deduplicate pool)) = first_seen pool /\
  PyDict.keys (snd (deduplicate pool)) = first_seen pool.
Proof.
  induction pool as [|h pool [Hk Hkt]] using rev_ind; [split; reflexivity|].
  rewrite deduplicate_snoc, first_seen_snoc, dedup_step_case_of.
  destruct (deduplicate pool) as [scores texts]. cbn [fst snd] in *.
  destruct (case_of h) as [c|]; [|split; assumption].
  assert (Hmt : PyDict.mem c texts = PyDict.mem c scores)
    by (now rewrite !PyDictFacts.mem_existsb, Hkt, Hk).
  rewrite <- Hk, <- PyDictFacts.mem_existsb.
  destruct (PyDict.get c scores) as [best|] eqn:Eg.
  - pose proof (PyDictFacts.mem_get_Some _ _ Eg) as Em. rewrite Em.
    destruct (best <? similarity (hit_distance h))%float; cbn [fst snd];
      [|split; congruence].
    rewrite !PyDictFacts.keys_set, Hmt, Em. split; congruence.
  - pose proof (PyDictFacts.mem_get_None _ _ Eg) as Em. rewrite Em.
    cbn [fst snd]. rewrite !PyDictFacts.keys_set, Hmt, Em. split; congruence.
Qed.

(** The cases that the loop retains are cases of rows of the pool. *)
Lemma first_seen_In (pool : list Hit) (c : string) :
  In c (first_seen pool) -> exists h, In h pool /\ case_of h = Some c.
Proof.
  induction pool as [|h pool IH] using rev_ind; [intros []|].
  rewrite first_seen_snoc. intros H.
  assert (Hold : In c (first_seen pool) ->
                 exists h0, In h0 (pool ++ [h])%list /\ case_of h0 = Some c).
  { intros Hc. destruct (IH Hc) as (h0 & Hh0 & Hcase).
    exists h0. split; [apply in_or_app; now left|exact Hcase]. }
  destruct (case_of h) as [c0|] eqn:Hcase; [|now apply Hold].
  destruct (existsb (String.eqb c0) (first_seen pool)); [now apply Hold|].
  apply in_app_or in H as [H|[<-|[]]]; [now apply Hold|].
  exists h. split; [apply in_or_app; right; now left|exact Hcase].
Qed.

(** What the loop of lines 253-267 has built when it ends. *)
Lemma deduplicate_invariant (pool : list Hit) :
  numeric pool ->
  PyDict.keys (fst (deduplicate pool)) = first_seen pool /\
  PyDict.keys (snd (deduplicate pool)) = first_seen pool /\
  (forall c s, PyDict.get c (fst (deduplicate pool)) = Some s ->
     exists text, PyDict.get c (snd (deduplicate pool)) = Some text /\
                  best_hit pool c s text) /\
  (forall h c, In h pool -> case_of h = Some c ->
     PyDict.mem c (fst (deduplicate pool)) = true).
Proof.
  induction pool as [|h pool IH] using rev_ind; intros Hnum.
  - cbn. repeat split; try discriminate. intros h c [].
  - apply Forall_app in Hnum as [Hnum Hh].
    apply Forall_inv in Hh. apply similarity_not_nan in Hh.
    destruct (IH Hnum) as (Hk & Hkt & Hbest & Hmem). clear IH.
    rewrite deduplicate_snoc, first_seen_snoc, dedup_step_case_of.
    destruct (deduplicate pool) as [scores texts]. cbn [fst snd] in *.
    destruct (case_of h) as [c|] eqn:Ec.
    + rewrite <- Hk, <- PyDictFacts.mem_existsb.
      destruct (PyDict.get c scores) as [best|] eqn:Eg.
      * rewrite (PyDictFacts.mem_get_Some _ _ Eg).
        destruct (Hbest c best Eg) as (text & Hgt & Hbh).
        destruct (best <? similarity (hit_distance h))%float eqn:Elt; cbn [fst snd].
        -- (* a better row: the entry is replaced *)
           rewrite !PyDictFacts.keys_set, (PyDictFacts.mem_get_Some _ _ Eg),
             (PyDictFacts.mem_get_Some _ _ Hgt).
           split; [reflexivity|]. split; [congruence|]. split.
           ++ intros c' s' Hget. destruct (string_dec c' c) as [->|Hne].
              ** rewrite PyDictFacts.get_set_same in Hget. injection Hget as <-.
                 exists (hit_document h). split; [apply PyDictFacts.get_set_same|].
                 apply best_hit_last; [exact Ec|].
                 eapply best_hit_all_below; eassumption.
              ** rewrite PyDictFacts.get_set_other in Hget by exact Hne.
                 destruct (Hbest c' s' Hget) as (text' & Hgt' & Hbh').
                 exists text'. split; [now rewrite PyDictFacts.get_set_other|].
                 apply best_hit_extend_other; [congruence|exact Hbh'].
           ++ intros h0 c0 Hin Hc0. apply PyDictFacts.mem_set_mono.
              apply in_app_or in Hin as [Hin|[<-|[]]]; [eauto|].
              replace c0 with c by congruence.
              apply (PyDictFacts.mem_get_Some _ _ Eg).
        -- (* not better: nothing changes *)
           split; [reflexivity|]. split; [congruence|]. split.
           ++ intros c' s' Hget.
              destruct (Hbest c' s' Hget) as (text' & Hgt' & Hbh').
              exists text'. split; [exact Hgt'|].
              destruct (string_dec c' c) as [->|Hne].
              ** apply best_hit_extend_leb; [|exact Hbh'].
                 replace s' with best by congruence.
                 apply Float64Facts.leb_total; [| exact Hh | exact Elt].
                 destruct Hbh as (b0 & h0 & a0 & Hp & _ & -> & _).
                 apply similarity_not_nan.
                 rewrite Hp in Hnum. apply Forall_app in Hnum as [_ Hnum].
                 now apply Forall_inv in Hnum.
              ** apply best_hit_extend_other; [congruence|exact Hbh'].
           ++ intros h0 c0 Hin Hc0.
              apply in_app_or in Hin as [Hin|[<-|[]]]; [eauto|].
              replace c0 with c by congruence.
              apply (PyDictFacts.mem_get_Some _ _ Eg).
      * (* the first row of its case: a new entry *)
        rewrite (PyDictFacts.mem_get_None _ _ Eg). cbn [fst snd].
        assert (Hmt : PyDict.mem c texts = false).
        { rewrite PyDictFacts.mem_existsb, Hkt, <- Hk, <- PyDictFacts.mem_existsb.
          apply (PyDictFacts.mem_get_None _ _ Eg). }
        rewrite !PyDictFacts.keys_set, (PyDictFacts.mem_get_None _ _ Eg), Hmt.
        split; [reflexivity|]. split; [congruence|]. split.
        -- intros c' s' Hget. destruct (string_dec c' c) as [->|Hne].
           ++ rewrite PyDictFacts.get_set_same in Hget. injection Hget as <-.
              exists (hit_document h). split; [apply PyDictFacts.get_set_same|].
              apply best_hit_last; [exact Ec|].
              intros h' Hin Hc'. specialize (Hmem h' c Hin Hc').
              rewrite (PyDictFacts.mem_get_None _ _ Eg) in Hmem. discriminate.
           ++ rewrite PyDictFacts.get_set_other in Hget by exact Hne.
              destruct (Hbest c' s' Hget) as (text' & Hgt' & Hbh').
              exists text'. split; [now rewrite PyDictFacts.get_set_other|].
              apply best_hit_extend_other; [congruence|exact Hbh'].
        -- intros h0 c0 Hin Hc0.
           apply in_app_or in Hin as [Hin|[<-|[]]].
           ++ apply PyDictFacts.mem_set_mono. eauto.
           ++ replace c0 with c by congruence. apply PyDictFacts.mem_set_same.
    + (* a row without a case identifier is skipped *)
      split; [exact Hk|]. split; [exact Hkt|]. split.
      * intros c' s' Hget.
        destruct (Hbest c' s' Hget) as (text' & Hgt' & Hbh').
        exists text'. split; [exact Hgt'|].
        apply best_hit_extend_other; [congruence|exact Hbh'].
      * intros h0 c0 Hin Hc0.
        apply in_app_or in Hin as [Hin|[<-|[]]]; [eauto|congruence].
Qed.

(** *** From the retained cases to the results *)

Lemma same_engine_and_files_refl (m : Machine) : same_engine_and_files m m.
Proof. repeat split. Qed.

Lemma same_engine_and_files_trans (m1 m2 m3 : Machine) :
  same_engine_and_files m1 m2 -> same_engine_and_files m2 m3 ->
  same_engine_and_files m1 m3.
Proof.
  intros (H1 & H2 & H3) (H4 & H5 & H6). repeat split; try congruence.
Qed.

(** The result that [case_result] returns, when it returns one; building
    it touches nothing but the output. *)
Lemma case_result_spec (env : Env) (case_texts : PyDict.t string)
    (item : string * float) (m m' : Machine) (r : CaseSearchResult) :
  case_result env case_texts item m = (Return r, m') ->
  reports env case_texts item r /\ same_engine_and_files m m'.
Proof.
  destruct item as [c s]. unfold case_result, reports, stored_summary.
  cbn [fst snd]. intros H.
  apply bind_Return in H
    as ([[[title summary] key_findings] doc_count] & m1 & Hl & H).
  cbv beta iota zeta in H.
  destruct (as_str title) as [t|] eqn:Et; [|discriminate H].
  destruct (as_str summary) as [sm|] eqn:Es; [|discriminate H].
  destruct (first_findings key_findings) as [kf|]; [|discriminate H].
  unfold ret in H. injection H as <- <-.
  cbn [result_case_id result_relevance_score result_summary].
  assert (Hs : (match read_metadata env c with
                | GoodMetadata md => meta_summary md
                | _ => None
                end = None ->
                summary
                = PyString (PyStr.take 300
                              (or_default (PyDict.get c case_texts) ""))) /\
               same_engine_and_files m m1).
  { destruct (read_metadata env c) as [| |md].
    - unfold ret in Hl. injection Hl as _ <- _ _ <-.
      split; [reflexivity|apply same_engine_and_files_refl].
    - unfold bind, print, ret in Hl. cbn in Hl. injection Hl as _ <- _ _ <-.
      split; [reflexivity|repeat split].
    - destruct (py_len (or_default (meta_documents md) (PyArray [])));
        unfold bind, print, ret in Hl; cbn in Hl; injection Hl as _ <- _ _ <-;
        (split; [intros ->; reflexivity|repeat split]). }
  destruct Hs as [Hs Hf]. split; [|exact Hf].
  split; [reflexivity|]. split; [reflexivity|].
  intros Hnone. rewrite (Hs Hnone) in Es. now injection Es as <-.
Qed.

(** A result is built whenever the metadata of the case is of the types
    that [CaseSearchResult] takes. *)
Lemma case_result_returns (env : Env) (case_texts : PyDict.t string)
    (item : string * float) (m : Machine) :
  presentable (read_metadata env (fst item)) = true ->
  exists r m', case_result env case_texts item m = (Return r, m').
Proof.
  destruct item as [c s]. unfold case_result, presentable, typed.
  cbn [fst]. intros H.
  destruct (read_metadata env c) as [| |md].
  - eexists. eexists. reflexivity.
  - eexists. eexists. reflexivity.
  - apply andb_true_iff in H as [H H3]. apply andb_true_iff in H as [H1 H2].
    assert (E1 : exists t, as_str (or_default (meta_title md) (PyString c))
                           = Some t).
    { destruct (meta_title md) as [v|]; cbn [or_default]; [|now eexists].
      destruct (as_str v); [now eexists|discriminate]. }
    assert (E2 : forall d, exists t,
                   as_str (or_default (meta_summary md) (PyString d)) = Some t).
    { intros d. destruct (meta_summary md) as [v|]; cbn [or_default];
        [|now eexists]. destruct (as_str v); [now eexists|discriminate]. }
    assert (E3 : exists l,
               first_findings (or_default (meta_key_findings md) (PyArray []))
               = Some l).
    { destruct (meta_key_findings md) as [v|]; cbn [or_default]; [|now eexists].
      destruct (first_findings v); [now eexists|discriminate]. }
    destruct E1 as (t & E1).
    destruct (E2 (PyStr.take 300 (or_default (PyDict.get c case_texts) "")))
      as (sm & E2').
    destruct E3 as (l & E3).
    destruct (py_len (or_default (meta_documents md) (PyArray [])));
      unfold bind, print, ret; cbn [fst snd]; rewrite E1, E2', E3;
      eexists; eexists; reflexivity.
Qed.

Lemma mapM_case_result (env : Env) (case_texts : PyDict.t string)
    (items : list (string * float)) :
  forall (m m' : Machine) (results : list CaseSearchResult),
    mapM (case_result env case_texts) items m = (Return results, m') ->
    Forall2 (reports env case_texts) items results /\
    same_engine_and_files m m'.
Proof.
  induction items as [|item items IH]; intros m m' results H; cbn [mapM] in H.
  - unfold ret in H. injection H as <- <-.
    split; [constructor|apply same_engine_and_files_refl].
  - apply bind_Return in H as (r & m1 & Hr & H).
    apply bind_Return in H as (rs & m2 & Hrs & H).
    unfold ret in H. injection H as <- <-.
    apply case_result_spec in Hr as [Hrep Hf1].
    apply IH in Hrs as [Hreps Hf2].
    split; [now constructor|].
    eapply same_engine_and_files_trans; eassumption.
Qed.

Lemma mapM_case_result_returns (env : Env) (case_texts : PyDict.t string)
    (items : list (string * float)) (m : Machine) :
  Forall (fun item => presentable (read_metadata env (fst item)) = true) items ->
  exists results m',
    mapM (case_result env case_texts) items m = (Return results, m').
Proof.
  revert m. induction items as [|item items IH]; intros m Hall.
  - exists [], m. reflexivity.
  - inversion Hall as [|? ? Hitem Hrest]; subst.
    destruct (case_result_returns env case_texts item m Hitem) as (r & m1 & Hr).
    destruct (IH m1 Hrest) as (rs & m2 & Hrs).
    exists (r :: rs), m2. cbn [mapM]. unfold bind at 1. rewrite Hr.
    unfold bind at 1. rewrite Hrs. reflexivity.
Qed.

Lemma Forall2_reports_case_ids (env : Env) (case_texts : PyDict.t string)
    (items : list (string * float)) (results : list CaseSearchResult) :
  Forall2 (reports env case_texts) items results ->
  map result_case_id results = map fst items.
Proof.
  induction 1 as [|item r items rs (H1 & _) _ IH]; simpl; congruence.
Qed.

Lemma sorted_cases_In (case_scores : PyDict.t float) (top_k : Z)
    (item : string * float) :
  In item (sorted_cases case_scores top_k) -> In item case_scores.
Proof.
  unfold sorted_cases. destruct (PyListFacts.slice_to_firstn top_k
    (PyList.sorted snd true (PyDict.items case_scores))) as [n ->].
  intros H. apply PyListFacts.firstn_In in H.
  eapply Permutation_in; [apply PyListFacts.sorted_perm|exact H].
Qed.

Lemma sorted_cases_NoDup (case_scores : PyDict.t float) (top_k : Z) :
  NoDup (PyDict.keys case_scores) ->
  NoDup (map fst (sorted_cases case_scores top_k)).
Proof.
  intros H. unfold sorted_cases. destruct (PyListFacts.slice_to_firstn top_k
    (PyList.sorted snd true (PyDict.items case_scores))) as [n ->].
  apply PyListFacts.firstn_NoDup_map.
  eapply Permutation_NoDup; [|exact H].
  apply Permutation_map, Permutation_sym, PyListFacts.sorted_perm.
Qed.

Lemma Forall2_Forall_r {A B : Type} (R : A -> B -> Prop) (P : A -> Prop)
    (Q : B -> Prop) (l : list A) (l' : list B) :
  (forall a b, P a -> R a b -> Q b) ->
  Forall2 R l l' -> Forall P l -> Forall Q l'.
Proof.
  intros H HR. induction HR as [|a b l l' Hab _ IH]; intros HP; [constructor|].
  inversion HP; subst. constructor; eauto.
Qed.

(** A distance that is not negative is a number, and its similarity is
    not negative. *)
Lemma nonnegative_numeric (pool : list Hit) : nonnegative pool -> numeric pool.
Proof.
  apply Forall_impl. intros h H.
  now destruct (@Float64Facts.leb_not_nan 0%float (hit_distance h) H).
Qed.

Lemma similarity_nonnegative (d : float) :
  (0 <=? d)%float = true -> (0 <=? similarity d)%float = true.
Proof.
  intros H0. destruct (@Float64Facts.leb_not_nan 0%float d H0) as [_ Hd].
  apply (RoundingFacts.similarity_decreasing d infinity H0).
  now apply Float64Facts.leb_infinity.
Qed.

(** The ranking returns whenever the metadata of every case of the pool is
    of the types that [CaseSearchResult] takes (a case without metadata
    file, or with one that cannot be loaded, among them). *)
Lemma rank_pool_returns (env : Env) (pool : list Hit) (top_k : Z) (m : Machine) :
  (forall h c, In h pool -> case_of h = Some c ->
               presentable (read_metadata env c) = true) ->
  exists results m', rank_pool env pool top_k m = (Return results, m').
Proof.
  intros Hp. unfold rank_pool.
  destruct (deduplicate_keys pool) as [Hk _].
  destruct (deduplicate pool) as [scores texts]. cbn [fst] in Hk.
  apply mapM_case_result_returns. apply Forall_forall. intros item Hin.
  apply sorted_cases_In in Hin.
  assert (Hkey : In (fst item) (first_seen pool))
    by (rewrite <- Hk; unfold PyDict.keys; now apply in_map).
  destruct (first_seen_In _ _ Hkey) as (h & Hh & Hc). eauto.
Qed.

(** C2: for every candidate pool, what the ranking returns has one result
    at most per case identifier.  When the distances of the pool are not
    negative, as the store returns them, the ranking returns a list
    whenever the metadata of the cases of the pool is of the types that the
    result model takes; the score of each result is the similarity of the
    best row of its case, the first row of the case that reaches the
    maximum similarity among the case's rows (reported on the percentage
    scale of line 305), and the text of that row is the summary whenever
    the case's metadata holds none. *)
Theorem rank_pool_best_per_case (env : Env) (pool : list Hit) (top_k : Z)
    (m : Machine) :
  (nonnegative pool ->
   (forall h c, In h pool -> case_of h = Some c ->
                presentable (read_metadata env c) = true) ->
   exists results m', rank_pool env pool top_k m = (Return results, m')) /\
  forall (results : list CaseSearchResult) (m' : Machine),
    rank_pool env pool top_k m = (Return results, m') ->
    NoDup (map result_case_id results) /\
    (nonnegative pool ->
     Forall (fun r =>
       exists s text,
         best_hit pool (result_case_id r) s text /\
         result_relevance_score r = round1 env (s * 100)%float /\
         (stored_summary (read_metadata env (result_case_id r)) = None ->
          result_summary r = PyStr.take 300 text)) results).
Proof.
  split; [intros _; apply rank_pool_returns|].
  unfold rank_pool. intros results m' Hrun.
  destruct (deduplicate_keys pool) as [Hk _].
  pose proof (@deduplicate_invariant pool) as Hinv.
  destruct (deduplicate pool) as [scores texts]. cbn [fst snd] in *.
  apply mapM_case_result in Hrun as [Hrep _].
  assert (Hnd : NoDup (PyDict.keys scores))
    by (rewrite Hk; apply NoDup_first_seen).
  split.
  - rewrite (Forall2_reports_case_ids Hrep). now apply sorted_cases_NoDup.
  - intros Hpos. pose proof (nonnegative_numeric Hpos) as Hnum.
    destruct (Hinv Hnum) as (_ & _ & Hbest & _).
    assert (Hin : Forall (fun item => In item scores) (sorted_cases scores top_k))
      by (apply Forall_forall; intros item; apply sorted_cases_In).
    eapply Forall2_Forall_r; [|exact Hrep|exact Hin].
    intros [c s] r Hc (H1 & H2 & H3). cbn [fst snd] in *.
    apply (PyDictFacts.In_get _ _ _ Hnd) in Hc.
    destruct (Hbest c s Hc) as (text & Hgt & Hbh).
    exists s, text. rewrite H1. repeat split; auto.
    intros Hnone. rewrite (H3 Hnone), Hgt. reflexivity.
Qed.

Lemma rank_pool_best_per_case_witness :
  exists results m',
    rank_pool Sample.env
      Sample.scenario_pool 2 (Sample.machine [] Sample.no_files) = (Return results, m') /\
    NoDup (map result_case_id results) /\
    Forall (fun r =>
      exists s text,
        best_hit Sample.scenario_pool (result_case_id r) s text /\
        result_relevance_score r = (s * 100)%float /\
        result_summary r = PyStr.take 300 text) results.
Proof.
  destruct (@rank_pool_best_per_case Sample.env Sample.scenario_pool 2
              (Sample.machine [] Sample.no_files)) as [Hreturns Hresults].
  destruct Hreturns as (results & m' & Hrun);
    [repeat constructor|reflexivity|].
  destruct (Hresults results m' Hrun) as [Hnd Hbest].
  exists results, m'. split; [exact Hrun|]. split; [exact Hnd|].
  eapply Forall_impl; [|apply Hbest; repeat constructor].
  intros r (s & text & H1 & H2 & H3). exists s, text.
  split; [exact H1|]. split; [exact H2|]. apply H3. reflexivity.
Defined.

(** The scenario of the specification, with the sample collaborators. *)
Example rank_pool_scenario :
  exists m',
    rank_pool Sample.env
      Sample.scenario_pool 2 (Sample.machine [] Sample.no_files)
    = (Return
         [{| result_case_id := "case_001"; result_title := "case_001";
             result_relevance_score := 100;
             result_summary := "first"; result_key_findings := [];
             result_document_count := 0 |};
          {| result_case_id := "case_002"; result_title := "case_002";
             result_relevance_score := (similarity Sample.tenth * 100)%float;
             result_summary := "other"; result_key_findings := [];
             result_document_count := 0 |}], m').
Proof. eexists. vm_compute. reflexivity. Qed.

(** A metadata file whose summary is [null] passes the schema of
    case_schema.py and makes the ranking raise: line 291 takes the [None],
    which [CaseSearchResult] refuses. *)
Example rank_pool_null_summary :
  fst (rank_pool Sample.null_summary_env Sample.scenario_pool 2
         (Sample.machine [] Sample.no_files))
  = Raise (ExternalError "validation error for CaseSearchResult").
Proof. vm_compute. reflexivity. Qed.

(** [search_cases] ranks the pool that the store returns for the embedding
    of the description. *)
Lemma search_cases_rank_pool (env : Env) (description : string) (top_k : Z)
    (m : Machine) (embedding : Embedding) :
  initialized (self m) = true ->
  get_text_embedding env description = Return embedding ->
  query_failure env embedding
    (Nat.min 50 (List.length (chroma_collection (self m)))) = None ->
  exists m1,
    search_cases env description top_k m
    = rank_pool env
        (firstn (Nat.min 50 (List.length (chroma_collection (self m))))
           (PyList.sorted hit_distance false
              (map (hit_of env embedding) (chroma_collection (self m)))))
        top_k m1.
Proof.
  intros Hinit Hemb Hq. unfold search_cases.
  rewrite (@bind_Return_run _ _ _ _ _ _ _ (check_initialized_ok _ _ Hinit)).
  unfold embed, external, collection_query, get_self, log_call, bind.
  cbn [fst snd self]. rewrite Hemb. cbn [fst snd self].
  unfold collection_count. rewrite Hq.
  assert (Hf : forall l : list Node, filter (fun _ : Node => true) l = l)
    by (induction l as [|n l IH]; cbn; congruence).
  rewrite Hf. eexists. reflexivity.
Qed.

(* ================================================================= *)
(** ** Order of the ranking (C3) *)

(** C3, as stated, fails: two cases of equal similarity come out in the
    order of their first rows in the pool, here [case_b] before [case_a]; and
    a negative [top_k] cuts from the end of the list, so that more than
    [top_k] results are returned. *)
Lemma ties_keep_pool_order :
  (exists results m',
     rank_pool Sample.env
       [Sample.hit "case_b" "text b" 0.5; Sample.hit "case_a" "text a" 0.5]
       5 (Sample.machine [] Sample.no_files) = (Return results, m') /\
     map result_case_id results = ["case_b"; "case_a"] /\
     map result_relevance_score results
       = [(similarity 0.5 * 100)%float; (similarity 0.5 * 100)%float]) /\
  String.ltb "case_a" "case_b" = true /\
  (exists results m',
     rank_pool Sample.env
       [Sample.hit "case_a" "text a" 0.5; Sample.hit "case_b" "text b" 1;
        Sample.hit "case_c" "text c" 2]
       (-1) (Sample.machine [] Sample.no_files) = (Return results, m') /\
     List.length results = 2%nat).
Proof.
  split; [|split].
  - eexists. eexists. split; [vm_compute; reflexivity|].
    split; vm_compute; reflexivity.
  - reflexivity.
  - eexists. eexists. split; [vm_compute; reflexivity|reflexivity].
Qed.

(** The scores that line 305 reports for cases in descending order of
    similarity are in descending order. *)
Lemma reported_descending (env : Env) (case_texts : PyDict.t string)
    (items : list (string * float)) (results : list CaseSearchResult) :
  monotone (round1 env) ->
  Forall (fun item => (0 <=? snd item)%float = true) items ->
  Forall2 (reports env case_texts) items results ->
  descending snd items ->
  descending result_relevance_score results.
Proof.
  intros Hmono Hpos Hrep. unfold descending.
  induction Hrep as [|item r items results (_ & Hr & _) Hrep IH];
    intros Hsorted; [constructor|].
  apply StronglySorted_inv in Hsorted as [Hsorted Hhead].
  apply Forall_inv_tail in Hpos as Htail.
  constructor; [now apply IH|].
  assert (Hall : Forall (fun b => (0 <=? snd b)%float = true /\
                                  (snd b <=? snd item)%float = true) items).
  { apply Forall_forall. intros b Hb. split.
    - eapply Forall_forall in Htail; eassumption.
    - eapply Forall_forall in Hhead; eassumption. }
  eapply Forall2_Forall_r; [|exact Hrep|exact Hall].
  intros b rb [Hb0 Hble] (_ & Hrb & _). cbn beta. rewrite Hr, Hrb.
  apply Hmono. now apply RoundingFacts.percentage_growing.
Qed.

(** C3, amended: for every candidate pool of distances that are not
    negative and every [top_k >= 0], the ranking returns a list whenever the
    metadata of the cases of the pool is of the types that the result model
    takes; the list that it returns is in descending order of the reported
    score (the rounding of line 305 keeping the order, as [round] does) and
    has at most [top_k] results, those of the retained cases in descending
    order of similarity; cases of equal similarity are not ordered by
    identifier: they keep the order in which the pool first showed them
    (the retained cases of any one similarity are an initial part of the
    cases of that similarity in first-seen order). *)
Theorem rank_pool_order (env : Env) (pool : list Hit) (top_k : Z) (m : Machine) :
  nonnegative pool ->
  (0 <= top_k)%Z ->
  monotone (round1 env) ->
  ((forall h c, In h pool -> case_of h = Some c ->
                presentable (read_metadata env c) = true) ->
   exists results m', rank_pool env pool top_k m = (Return results, m')) /\
  forall (results : list CaseSearchResult) (m' : Machine),
    rank_pool env pool top_k m = (Return results, m') ->
    descending result_relevance_score results /\
    (List.length results <= Z.to_nat top_k)%nat /\
    Forall2 (reports env (snd (deduplicate pool)))
      (sorted_cases (fst (deduplicate pool)) top_k) results /\
    descending snd (sorted_cases (fst (deduplicate pool)) top_k) /\
    map fst (PyDict.items (fst (deduplicate pool))) = first_seen pool /\
    forall s : float,
      exists rest,
        filter (fun item => (snd item =? s)%float)
               (PyDict.items (fst (deduplicate pool)))
        = (filter (fun item => (snd item =? s)%float)
                  (sorted_cases (fst (deduplicate pool)) top_k) ++ rest)%list.
Proof.
  intros Hpos Hk0 Hmono. split; [apply rank_pool_returns|].
  intros results m' Hrun. unfold rank_pool in Hrun.
  pose proof (nonnegative_numeric Hpos) as Hnum.
  destruct (deduplicate_invariant Hnum) as (Hk & Hkt & Hbest & _).
  destruct (deduplicate pool) as [scores texts]. cbn [fst snd] in *.
  apply mapM_case_result in Hrun as [Hrep _].
  assert (Hnd : NoDup (PyDict.keys scores))
    by (rewrite Hk; apply NoDup_first_seen).
  assert (Hsim : Forall (fun item : string * float =>
                           (0 <=? snd item)%float = true) scores).
  { apply Forall_forall. intros [c s] Hin. cbn [snd].
    apply (PyDictFacts.In_get _ _ _ Hnd) in Hin.
    destruct (Hbest c s Hin) as (text & _ & before & h & after & Hp & _ & -> & _).
    apply similarity_nonnegative. unfold nonnegative in Hpos. rewrite Hp in Hpos.
    apply Forall_app in Hpos as [_ Hpos]. now apply Forall_inv in Hpos. }
  assert (Hnn : Forall (fun item : string * float => is_nan (snd item) = false)
                  scores).
  { eapply Forall_impl; [|exact Hsim]. intros item H.
    now destruct (@Float64Facts.leb_not_nan 0%float (snd item) H). }
  assert (Hdesc : descending snd (sorted_cases scores top_k)).
  { unfold sorted_cases. destruct (PyListFacts.slice_to_firstn top_k
      (PyList.sorted snd true (PyDict.items scores))) as [n ->].
    apply PyListFacts.firstn_descending, PyListFacts.sorted_descending, Hnn. }
  split; [|split; [|split; [exact Hrep|split; [exact Hdesc|split; [exact Hk|]]]]].
  - apply (@reported_descending env texts (sorted_cases scores top_k) results
             Hmono); [|exact Hrep|exact Hdesc].
    apply Forall_forall. intros item Hin. apply sorted_cases_In in Hin.
    eapply Forall_forall in Hsim; eassumption.
  - rewrite <- (Forall2_length Hrep). unfold sorted_cases.
    now apply PyListFacts.slice_to_length.
  - intros s. unfold sorted_cases. destruct (PyListFacts.slice_to_firstn top_k
      (PyList.sorted snd true (PyDict.items scores))) as [n ->].
    destruct (PyListFacts.firstn_filter_prefix
                (fun item : string * float => (snd item =? s)%float) n
                (PyList.sorted snd true (PyDict.items scores))) as [rest Hrest].
    exists rest. rewrite <- Hrest. symmetry. apply PyListFacts.sorted_stable.
Qed.

Lemma rank_pool_order_witness :
  exists results m',
    rank_pool Sample.env
      [Sample.hit "case_b" "text b" 0.5; Sample.hit "case_a" "text a" 0.5;
       Sample.hit "case_c" "text c" 0]
      2 (Sample.machine [] Sample.no_files) = (Return results, m') /\
    map result_case_id results = ["case_c"; "case_b"] /\
    descending result_relevance_score results /\
    (List.length results <= 2)%nat.
Proof.
  destruct (@rank_pool_order Sample.env
              [Sample.hit "case_b" "text b" 0.5; Sample.hit "case_a" "text a" 0.5;
               Sample.hit "case_c" "text c" 0]
              2 (Sample.machine [] Sample.no_files))
    as [Hreturns Hresults].
  - repeat constructor.
  - lia.
  - intros x y H. exact H.
  - destruct Hreturns as (results & m' & Hrun); [reflexivity|].
    destruct (Hresults results m' Hrun) as (Hdesc & Hlen & _).
    exists results, m'. split; [exact Hrun|].
    split; [|split; [exact Hdesc|exact Hlen]].
    vm_compute in Hrun. injection Hrun as <- _. reflexivity.
Defined.
(* ================================================================= *)
(** ** Ingestion (C1, C8) *)

Section Combinators.

Variable F : Machine -> Machine -> Prop.
Hypothesis F_refl : forall m, F m m.
Hypothesis F_trans : forall m1 m2 m3, F m1 m2 -> F m2 m3 -> F m1 m3.

Lemma preserves_ret {A : Type} (a : A) : preserves F (ret a).
Proof. intros m. apply F_refl. Qed.

Lemma preserves_raise {A : Type} (e : Exn) : preserves F (@raise A e).
Proof. intros m. apply F_refl. Qed.

Lemma preserves_bind {A B : Type} (c : M A) (k : A -> M B) :
  preserves F c -> (forall a, preserves F (k a)) -> preserves F (bind c k).
Proof.
  intros Hc Hk m. unfold bind. specialize (Hc m).
  destruct (c m) as [[a|e] m1]; cbn in *; [|exact Hc].
  eapply F_trans; [exact Hc|apply Hk].
Qed.

Lemma preserves_mapM {A B : Type} (f : A -> M B) (l : list A) :
  (forall x, preserves F (f x)) -> preserves F (mapM f l).
Proof.
  intros Hf. induction l as [|x l IH]; cbn [mapM].
  - apply preserves_ret.
  - apply preserves_bind; [apply Hf|]. intros y.
    apply preserves_bind; [exact IH|]. intros ys. apply preserves_ret.
Qed.

End Combinators.

Lemma succeeds_ret {A : Type} (a : A) : succeeds (ret a).
Proof. intros m. now exists a. Qed.

Lemma succeeds_bind {A B : Type} (c : M A) (k : A -> M B) :
  succeeds c -> (forall a, succeeds (k a)) -> succeeds (bind c k).
Proof.
  intros Hc Hk m. unfold bind. destruct (Hc m) as [a Ha].
  destruct (c m) as [o m1]. cbn in Ha. subst o. apply Hk.
Qed.

Lemma succeeds_mapM {A B : Type} (f : A -> M B) (l : list A) :
  (forall x, succeeds (f x)) -> succeeds (mapM f l).
Proof.
  intros Hf. induction l as [|x l IH]; cbn [mapM].
  - apply succeeds_ret.
  - apply succeeds_bind; [apply Hf|]. intros y.
    apply succeeds_bind; [exact IH|]. intros ys. apply succeeds_ret.
Qed.

Lemma same_files_output_flag_refl (m : Machine) : same_files_output_flag m m.
Proof. repeat split. Qed.

Lemma same_files_output_flag_trans (m1 m2 m3 : Machine) :
  same_files_output_flag m1 m2 -> same_files_output_flag m2 m3 ->
  same_files_output_flag m1 m3.
Proof. intros (H1 & H2 & H3) (H4 & H5 & H6). repeat split; congruence. Qed.

Lemma embed_preserves (env : Env) (text : string) :
  preserves same_files_output_flag (embed env text).
Proof. intros m. repeat split. Qed.

Lemma embed_succeeds (env : Env) (text : string) :
  provider_answers env -> succeeds (embed env text).
Proof.
  intros Hp m. destruct (Hp text) as [e He]. exists e.
  unfold embed, external, bind, log_call. cbn. exact He.
Qed.

(** An insertion leaves the files, the output and the engine's flag alone. *)
Lemma index_insert_frame (env : Env) (doc : Document) :
  preserves same_files_output_flag (index_insert env doc).
Proof.
  unfold index_insert.
  apply preserves_bind;
    [apply same_files_output_flag_trans
    |apply preserves_mapM;
       [apply same_files_output_flag_refl|apply same_files_output_flag_trans
       |apply embed_preserves]|].
  intros es. apply preserves_bind; [apply same_files_output_flag_trans| |];
    intros; intros m; repeat split.
Qed.

(** An insertion succeeds when the embedding provider answers. *)
Lemma index_insert_ok (env : Env) (doc : Document) :
  provider_answers env -> succeeds (index_insert env doc).
Proof.
  intros Hp. unfold index_insert.
  apply succeeds_bind; [apply succeeds_mapM; intros; now apply embed_succeeds|].
  intros es. apply succeeds_bind; intros; intros m; eexists; reflexivity.
Qed.

Lemma mapM_length {A B : Type} (f : A -> M B) (l : list A) :
  forall (m m' : Machine) (ys : list B),
  mapM f l m = (Return ys, m') -> List.length ys = List.length l.
Proof.
  induction l as [|x l IH]; intros m m' ys H; cbn [mapM] in H.
  - injection H as <- _. reflexivity.
  - apply bind_Return in H as (y & m1 & _ & H).
    apply bind_Return in H as (ys' & m2 & Hl & H).
    injection H as <- _. cbn. f_equal. eapply IH, Hl.
Qed.

Lemma mapM_embed_self (env : Env) (texts : list string) (m : Machine) :
  self (snd (mapM (embed env) texts m)) = self m.
Proof.
  apply (@preserves_mapM (fun m m' => self m' = self m)); auto.
  - intros; congruence.
  - intros text m0. reflexivity.
Qed.

Lemma map_fst_combine {A B : Type} (l : list A) (l' : list B) :
  List.length l' = List.length l -> map fst (combine l l') = l.
Proof.
  revert l'; induction l as [|x l IH]; intros [|y l'] H; cbn in *;
    try discriminate; auto.
  f_equal. apply IH. now injection H.
Qed.

(** What an insertion that goes through adds to the collection: one node
    per fragment of the text, with the document's metadata. *)
Lemma index_insert_Return (env : Env) (doc : Document) (m m' : Machine) (u : unit) :
  index_insert env doc m = (Return u, m') ->
  exists new,
    appended m m' new /\
    map node_text new = node_parser env (doc_text doc) /\
    Forall (fun n => node_metadata n = doc_metadata doc) new.
Proof.
  unfold index_insert. intros H.
  apply bind_Return in H as (embeddings & m1 & Hemb & H).
  pose proof (mapM_embed_self env (node_parser env (doc_text doc)) m) as Hself.
  rewrite Hemb in Hself. cbn [snd] in Hself.
  apply mapM_length in Hemb.
  cbn in H. injection H as _ <-.
  eexists. split; [|split].
  - unfold appended. cbn. rewrite Hself. reflexivity.
  - rewrite map_map. cbn. now apply map_fst_combine.
  - apply Forall_forall. intros n Hn. apply in_map_iff in Hn as (te & <- & _).
    reflexivity.
Qed.

Section Loop.

Variable env : Env.
Variable case_dir : Path.
Variable case_id : string.
Variable metadata : option Metadata.

(** When the loop returns, every document's key is in the manifest, no key
    was lost, every document was counted once, and the files are as they
    were. *)
Lemma ingest_loop_Return (force : bool) (documents : list Document) :
  forall (manifest : Manifest) (i s : nat) (m : Machine)
         (manifest' : Manifest) (r : IngestResult) (m' : Machine),
  ingest_loop env case_dir case_id metadata force documents manifest i s m
    = (Return (manifest', r), m') ->
  (forall doc, In doc documents -> PyDict.mem (key_of case_id doc) manifest' = true) /\
  (forall k, PyDict.mem k manifest = true -> PyDict.mem k manifest' = true) /\
  (ingested r + skipped r = i + s + List.length documents)%nat /\
  files m' = files m /\
  initialized (self m') = initialized (self m).
Proof.
  induction documents as [|doc rest IH]; intros manifest i s m manifest' r m' H.
  - cbn in H. injection H as <- <- <-. cbn. repeat split; auto.
  - cbn [ingest_loop] in H. change (doc_key case_id (file_name_of doc)) with (key_of case_id doc) in H.
    destruct (PyDict.mem (key_of case_id doc) manifest && negb force) eqn:E.
    + unfold bind at 1 in H. cbn [print] in H.
      apply IH in H as (H1 & H2 & H3 & H4 & H5). cbn in *.
      repeat split; auto; try lia.
      intros d [<-|Hd]; auto.
      apply H2. now apply andb_true_iff in E as [E _].
    + unfold bind at 1 in H.
      match type of H with
      | context [index_insert env ?d m] =>
          destruct (index_insert_frame env d m) as (F1 & F2 & F3);
          destruct (index_insert env d m) as [[[]|ex] m1]
      end; [|discriminate]. cbn [snd] in F1, F2, F3.
      unfold bind at 1 in H. cbn [print] in H.
      apply IH in H as (H1 & H2 & H3 & H4 & H5). cbn in *.
      repeat split; auto; try lia; try congruence.
      * intros d [<-|Hd]; auto. apply H2, PyDictFacts.mem_set_same.
      * intros k Hk. apply H2. now apply PyDictFacts.mem_set_mono.
Qed.

(** When every key is in the manifest and nothing is forced, the loop skips
    every document: the manifest, the engine and the call log stay as they
    were. *)
Lemma ingest_loop_skip_all (documents : list Document) :
  forall (manifest : Manifest) (i s : nat) (m : Machine),
  (forall doc, In doc documents -> PyDict.mem (key_of case_id doc) manifest = true) ->
  exists m',
    ingest_loop env case_dir case_id metadata false documents manifest i s m
      = (Return (manifest, {| ingested := i;
                              skipped := s + List.length documents |}), m') /\
    self m' = self m /\ files m' = files m /\ calls m' = calls m.
Proof.
  induction documents as [|doc rest IH]; intros manifest i s m Hall.
  - exists m. cbn. rewrite Nat.add_0_r. repeat split.
  - cbn [ingest_loop]. change (doc_key case_id (file_name_of doc)) with (key_of case_id doc).
    rewrite (Hall doc (or_introl eq_refl)). cbn [andb negb].
    unfold bind at 1. cbn [print].
    match goal with
    | |- context [ingest_loop _ _ _ _ _ rest manifest i (S s) ?m0] =>
        destruct (IH manifest i (S s) m0) as (m' & Hrun & H1 & H2 & H3)
    end.
    { intros d Hd. apply Hall. now right. }
    exists m'. rewrite Hrun. cbn [List.length].
    replace (s + S (List.length rest))%nat with (S s + List.length rest)%nat by lia.
    repeat split; auto.
Qed.

(** When no key is in the manifest, the file names differ pairwise and the
    provider answers, the loop ingests every document and prints one line for
    each. *)
Lemma ingest_loop_ingest_all (force : bool) (documents : list Document) :
  provider_answers env ->
  forall (manifest : Manifest) (i s : nat) (m : Machine),
  NoDup (map file_name_of documents) ->
  (forall doc, In doc documents -> PyDict.mem (key_of case_id doc) manifest = false) ->
  exists manifest' m',
    ingest_loop env case_dir case_id metadata force documents manifest i s m
      = (Return (manifest', {| ingested := i + List.length documents;
                               skipped := s |}), m') /\
    files m' = files m /\
    stdout m'
    = (stdout m ++ map (fun doc => IngestedLine (file_name_of doc)) documents)%list.
Proof.
  intros Hp. induction documents as [|doc rest IH]; intros manifest i s m Hnd Hall.
  - exists manifest, m. cbn. rewrite Nat.add_0_r, app_nil_r. repeat split.
  - cbn [ingest_loop]. change (doc_key case_id (file_name_of doc)) with (key_of case_id doc).
    rewrite (Hall doc (or_introl eq_refl)). cbn [andb].
    unfold bind at 1.
    match goal with
    | |- context [index_insert env ?d m] =>
        destruct (index_insert_ok d Hp m) as [[] Hok];
        destruct (index_insert_frame env d m) as (F1 & F2 & F3);
        destruct (index_insert env d m) as [o m1]
    end.
    cbn in Hok, F1, F2, F3. subst o.
    unfold bind at 1. cbn [print].
    inversion Hnd as [|? ? Hnotin Hnd']; subst.
    match goal with
    | |- context [ingest_loop _ _ _ _ _ rest ?mf (S i) s ?m0] =>
        destruct (IH mf (S i) s m0 Hnd') as (manifest' & m' & Hrun & H1 & H2)
    end.
    { intros d Hd. unfold PyDict.mem.
      rewrite PyDictFacts.get_set_other.
      - apply (Hall d). now right.
      - unfold key_of. intros Heq. apply doc_key_same_case in Heq.
        apply Hnotin. rewrite <- Heq. now apply in_map. }
    exists manifest', m'. rewrite Hrun. cbn [List.length map].
    replace (i + S (List.length rest))%nat with (S i + List.length rest)%nat by lia.
    split; [reflexivity|]. cbn in H1, H2.
    split; [congruence|].
    rewrite H2, F2, <- app_assoc. reflexivity.
Qed.

(** When no key is in the manifest and the file names differ pairwise, a
    loop that returns has inserted the fragments of every document, in
    order, and skipped none. *)
Lemma ingest_loop_fresh (force : bool) (documents : list Document) :
  forall (manifest : Manifest) (i s : nat) (m : Machine)
         (manifest' : Manifest) (r : IngestResult) (m' : Machine),
  NoDup (map file_name_of documents) ->
  (forall doc, In doc documents -> PyDict.mem (key_of case_id doc) manifest = false) ->
  ingest_loop env case_dir case_id metadata force documents manifest i s m
    = (Return (manifest', r), m') ->
  exists new,
    appended m m' new /\
    map node_text new
    = flat_map (fun doc => node_parser env (doc_text doc)) documents /\
    ingested r = (i + List.length documents)%nat /\ skipped r = s.
Proof.
  induction documents as [|doc rest IH];
    intros manifest i s m manifest' r m' Hnd Hall H.
  - cbn in H. injection H as <- <- <-. exists [].
    split; [unfold appended; now rewrite app_nil_r|].
    split; [reflexivity|]. cbn. split; [lia|reflexivity].
  - cbn [ingest_loop] in H.
    change (doc_key case_id (file_name_of doc)) with (key_of case_id doc) in H.
    rewrite (Hall doc (or_introl eq_refl)) in H. cbn [andb] in H.
    unfold bind at 1 in H.
    match type of H with
    | context [index_insert env ?d m] =>
        destruct (index_insert env d m) as [[[]|ex] m1] eqn:Hins
    end; [|discriminate].
    apply index_insert_Return in Hins as (new1 & Hnew1 & Htexts & _).
    unfold bind at 1 in H. cbn [print] in H.
    inversion Hnd as [|? ? Hnotin Hnd']; subst.
    apply IH in H as (new2 & Hnew2 & Htexts2 & Hi & Hs); [|exact Hnd'|].
    + exists (new1 ++ new2)%list. split; [|split; [|split]].
      * unfold appended in *. cbn in Hnew2. now rewrite Hnew2, Hnew1, app_assoc.
      * rewrite map_app, Htexts2. cbn [doc_text] in Htexts. rewrite Htexts.
        reflexivity.
      * cbn [List.length]. lia.
      * exact Hs.
    + intros d Hd. unfold PyDict.mem.
      rewrite PyDictFacts.get_set_other.
      * apply (Hall d). now right.
      * unfold key_of. intros Heq. apply doc_key_same_case in Heq.
        apply Hnotin. rewrite <- Heq. now apply in_map.
Qed.

End Loop.

(** C1, as stated, fails: the second run skips every fragment of the
    directory, also those that the first run itself skipped.  First, a
    manifest that already lists one of two files: the first run ingests 1
    and skips 1, the second skips 2.  Second, a two-page PDF and no manifest:
    the first run ingests the first page and skips the second, the second
    run skips 2. *)
Lemma second_run_skips_more_than_first_ingested :
  (exists m1 m2,
     ingest_documents Sample.env Sample.case_dir "case_001" None false
       (Sample.machine []
          (Sample.manifest_at (ingest_manifest_path Sample.case_dir)
             [(doc_key "case_001" "evaluation.txt",
               Sample.entry "case_001" "evaluation.txt")]))
     = (Return {| ingested := 1; skipped := 1 |}, m1) /\
     ingest_documents Sample.env Sample.case_dir "case_001" None false m1
     = (Return {| ingested := 0; skipped := 2 |}, m2)) /\
  (exists m1 m2,
     ingest_documents Sample.pdf_env Sample.pdf_dir "case_002" None false
       (Sample.machine [] Sample.no_files)
     = (Return {| ingested := 1; skipped := 1 |}, m1) /\
     ingest_documents Sample.pdf_env Sample.pdf_dir "case_002" None false m1
     = (Return {| ingested := 0; skipped := 2 |}, m2)).
Proof.
  split; eexists; eexists; split; vm_compute; reflexivity.
Qed.

(** What a completed run with a writable manifest leaves behind. *)
Lemma ingest_documents_Return (env : Env) (case_dir : Path) (case_id : string)
    (metadata : option Metadata) (force : bool) (m m' : Machine) (r : IngestResult) :
  writable env (ingest_manifest_path case_dir) = true ->
  ingest_documents env case_dir case_id metadata force m = (Return r, m') ->
  exists documents manifest,
    load_data env case_dir = Return documents /\
    files m' (ingest_manifest_path case_dir) = Parsed manifest /\
    (forall doc, In doc documents ->
                 PyDict.mem (key_of case_id doc) manifest = true) /\
    (ingested r + skipped r = List.length documents)%nat /\
    initialized (self m') = true.
Proof.
  intros Hw H. unfold ingest_documents in H.
  apply bind_Return in H as (u & m1 & Hinit & H).
  apply check_initialized_Return in Hinit as [Hinit ->].
  apply bind_Return in H as (content & m2 & Hread & H).
  injection Hread as <- <-.
  apply bind_Return in H as (manifest0 & m3 & Hload & H).
  assert (Hm3 : initialized (self m3) = true).
  { destruct (files m (ingest_manifest_path case_dir));
      cbn in Hload; injection Hload as <- <-; exact Hinit. }
  apply bind_Return in H as (documents & m4 & Hdocs & H).
  injection Hdocs as Hdocs <-.
  apply bind_Return in H as ([manifest r0] & m5 & Hloop & H).
  apply ingest_loop_Return in Hloop as (H1 & _ & H3 & H4 & H5).
  rewrite Hw in H. cbn in H. injection H as <- <-.
  exists documents, manifest. cbn.
  rewrite PathLibFacts.eqb_refl.
  split; [exact Hdocs|]. split; [reflexivity|]. split; [exact H1|].
  split; [lia|congruence].
Qed.

(** C1, amended: after a run over a case directory that completed and saved
    the manifest, a second call over the same directory and case identifier
    with [force_reingest = False] inserts nothing (the collection, the call
    log and the files are as the first run left them) and returns
    [ingested = 0] and [skipped] equal to the number of fragments the
    directory yields, which is the sum of the first run's [ingested] and
    [skipped] counts: it equals the first run's [ingested] count exactly when
    the first run skipped nothing. *)
Theorem second_run_skips_all (env : Env) (case_dir : Path) (case_id : string)
    (metadata1 metadata2 : option Metadata) (force1 : bool)
    (m0 m1 : Machine) (r1 : IngestResult) :
  writable env (ingest_manifest_path case_dir) = true ->
  ingest_documents env case_dir case_id metadata1 force1 m0 = (Return r1, m1) ->
  exists documents m2,
    load_data env case_dir = Return documents /\
    (ingested r1 + skipped r1 = List.length documents)%nat /\
    ingest_documents env case_dir case_id metadata2 false m1
      = (Return {| ingested := 0; skipped := ingested r1 + skipped r1 |}, m2) /\
    self m2 = self m1 /\
    calls m2 = calls m1 /\
    (forall p, files m2 p = files m1 p).
Proof.
  intros Hw H1.
  destruct (@ingest_documents_Return env case_dir case_id metadata1 force1 m0 m1 r1 Hw H1)
    as (documents & manifest & Hdocs & Hfile & Hkeys & Hcount & Hinit).
  destruct (@ingest_loop_skip_all env case_dir case_id metadata2 documents
              manifest 0 0 m1 Hkeys) as (m' & Hloop & Hs & Hf & Hc).
  eexists documents, _. split; [exact Hdocs|]. split; [exact Hcount|].
  split.
  - unfold ingest_documents.
    rewrite (@bind_Return_run _ _ _ _ _ _ _ (check_initialized_ok _ _ Hinit)).
    unfold bind at 1. cbn [read_file]. rewrite Hfile.
    unfold bind at 1. cbn [ret]. unfold bind at 1. rewrite Hdocs.
    rewrite (@bind_Return_run _ _ _ _ _ _ _ Hloop). rewrite Hw. cbn [fst snd].
    unfold bind at 1. cbn [write_file ret]. rewrite Hcount. reflexivity.
  - cbn. split; [exact Hs|]. split; [exact Hc|].
    intros p. destruct (PathLib.eqb p (ingest_manifest_path case_dir)) eqn:E.
    + apply PathLibFacts.eqb_eq in E. subst p. now rewrite Hfile.
    + now rewrite Hf.
Qed.

Lemma second_run_skips_all_witness :
  exists m2,
    ingest_documents Sample.env Sample.case_dir "case_001" None false
      (snd (ingest_documents Sample.env Sample.case_dir "case_001" None false
              (Sample.machine [] Sample.no_files)))
    = (Return {| ingested := 0; skipped := 2 |}, m2).
Proof.
  assert (H1 : ingest_documents Sample.env Sample.case_dir "case_001" None false
                 (Sample.machine [] Sample.no_files)
               = (Return {| ingested := 2; skipped := 0 |},
                  snd (ingest_documents Sample.env Sample.case_dir "case_001"
                         None false (Sample.machine [] Sample.no_files))))
    by (vm_compute; reflexivity).
  destruct (@second_run_skips_all Sample.env Sample.case_dir "case_001" None None
              false _ _ _ eq_refl H1)
    as (documents & m2 & _ & _ & Hrun & _).
  exists m2. exact Hrun.
Defined.

(** C8, as stated, fails: with no manifest file nothing is printed about the
    manifest, and of the two pages of a PDF only the first is ingested: the
    second meets the key that the first has just recorded. *)
Lemma absent_manifest_no_warning_and_a_skip :
  files (Sample.machine [] Sample.no_files) (ingest_manifest_path Sample.pdf_dir)
    = Absent /\
  load_data Sample.pdf_env Sample.pdf_dir = Return Sample.pdf_documents /\
  exists m',
    ingest_documents Sample.pdf_env Sample.pdf_dir "case_002" None false
      (Sample.machine [] Sample.no_files)
    = (Return {| ingested := 1; skipped := 1 |}, m') /\
    stdout m' = [IngestedLine "report.pdf"; SkippingLine "report.pdf"].
Proof.
  split; [reflexivity|]. split; [reflexivity|].
  eexists. split; vm_compute; reflexivity.
Qed.

(** C8, amended: when the manifest file is absent or unparsable, ingestion
    does not abort on that account and starts from an empty ledger: silently
    when the file is absent, after printing a warning when it is unparsable.
    On an initialised engine, when the directory can be read, the embedding
    provider answers and the fragments of the directory have pairwise
    distinct file names, the run returns having ingested every fragment:
    each is appended to the collection, in order, [ingested] is the number
    of fragments and [skipped] is 0. *)
Theorem ingest_without_manifest (env : Env) (case_dir : Path) (case_id : string)
    (metadata : option Metadata) (force : bool) (m : Machine)
    (documents : list Document) :
  initialized (self m) = true ->
  files m (ingest_manifest_path case_dir) = Absent \/
  files m (ingest_manifest_path case_dir) = Unparsable ->
  load_data env case_dir = Return documents ->
  NoDup (map file_name_of documents) ->
  provider_answers env ->
  exists m' new,
    ingest_documents env case_dir case_id metadata force m
      = (Return {| ingested := List.length documents; skipped := 0 |}, m') /\
    chroma_collection (self m') = (chroma_collection (self m) ++ new)%list /\
    map node_text new = fragments_of env documents /\
    stdout m'
    = (stdout m
       ++ match files m (ingest_manifest_path case_dir) with
          | Unparsable => [ManifestLoadWarning]
          | _ => []
          end
       ++ map (fun doc => IngestedLine (file_name_of doc)) documents
       ++ if writable env (ingest_manifest_path case_dir) then []
          else [ManifestSaveWarning])%list.
Proof.
  intros Hinit Hfile Hdocs Hnd Hp.
  unfold ingest_documents.
  rewrite (@bind_Return_run _ _ _ _ _ _ _ (check_initialized_ok _ _ Hinit)).
  unfold bind at 1. cbn [read_file].
  set (warn := match files m (ingest_manifest_path case_dir) with
               | Unparsable => [ManifestLoadWarning]
               | _ => []
               end).
  assert (Hload : exists m1,
    match files m (ingest_manifest_path case_dir) with
    | Absent => ret PyDict.empty
    | Unparsable => print ManifestLoadWarning;;; ret PyDict.empty
    | Parsed manifest => ret manifest
    end m = (Return (@PyDict.empty ManifestEntry), m1) /\
    self m1 = self m /\
    files m1 = files m /\ stdout m1 = (stdout m ++ warn)%list).
  { subst warn. destruct Hfile as [-> | ->].
    - exists m. cbn. now rewrite app_nil_r.
    - eexists. split; [reflexivity|]. cbn. auto. }
  destruct Hload as (m1 & Hload & Hs1 & Hf1 & Ho1).
  rewrite (@bind_Return_run _ _ _ _ _ _ _ Hload).
  unfold bind at 1. rewrite Hdocs.
  assert (Hfresh : forall doc, In doc documents ->
                     PyDict.mem (key_of case_id doc)
                       (@PyDict.empty ManifestEntry) = false)
    by (intros doc _; reflexivity).
  destruct (@ingest_loop_ingest_all env case_dir case_id metadata force
              documents Hp PyDict.empty 0 0 m1 Hnd Hfresh)
    as (manifest' & m2 & Hloop & Hf2 & Ho2).
  destruct (@ingest_loop_fresh env case_dir case_id metadata force documents
              PyDict.empty 0 0 m1 manifest' _ m2 Hnd Hfresh Hloop)
    as (new & Hnew & Htexts & _ & _).
  unfold appended in Hnew. rewrite Hs1 in Hnew.
  rewrite (@bind_Return_run _ _ _ _ _ _ _ Hloop). cbn [fst snd].
  destruct (writable env (ingest_manifest_path case_dir)).
  - eexists. exists new. split; [reflexivity|]. cbn.
    split; [exact Hnew|]. split; [exact Htexts|].
    rewrite Ho2, Ho1, app_nil_r, <- app_assoc. reflexivity.
  - eexists. exists new. split; [reflexivity|]. cbn.
    split; [exact Hnew|]. split; [exact Htexts|].
    rewrite Ho2, Ho1, <- !app_assoc. reflexivity.
Qed.

Lemma ingest_without_manifest_witness :
  exists m',
    ingest_documents Sample.env Sample.case_dir "case_001" None false
      {| self := {| initialized := true; chroma_collection := [] |};
         files := fun _ => Unparsable; calls := []; stdout := [] |}
    = (Return {| ingested := 2; skipped := 0 |}, m') /\
    map node_text (chroma_collection (self m'))
    = ["Competency evaluation"; "Expert testimony"] /\
    stdout m' = [ManifestLoadWarning; IngestedLine "evaluation.txt";
                 IngestedLine "testimony.txt"].
Proof.
  destruct (@ingest_without_manifest Sample.env Sample.case_dir "case_001" None
              false
              {| self := {| initialized := true; chroma_collection := [] |};
                 files := fun _ => Unparsable; calls := []; stdout := [] |}
              Sample.documents eq_refl (or_intror eq_refl) eq_refl)
    as (m' & new & Hrun & Hcoll & Htexts & Hout).
  - repeat constructor; simpl; intuition discriminate.
  - intros text. eexists. reflexivity.
  - exists m'. split; [exact Hrun|]. split; [|exact Hout].
    rewrite Hcoll. exact Htexts.
Defined.

(* ================================================================= *)
(** ** The empty store (C9) *)

(** [get_document_count] is a function of the state: it cannot raise; on an
    empty collection it is 0, initialised or not. *)
Lemma get_document_count_empty (m : Machine) :
  chroma_collection (self m) = [] -> get_document_count m = 0%nat.
Proof.
  intros H. unfold get_document_count, collection_count.
  rewrite H. now destruct (initialized (self m)).
Qed.

(** C9, as stated, fails: the description is embedded before the store is
    looked at (line 239), so on an empty collection a failure of the
    embedding provider is raised by [search_cases]; the store is not
    queried. *)
Lemma search_cases_raises_on_empty_store :
  chroma_collection (self (Sample.machine [] Sample.no_files)) = [] /\
  PyStr.blank "Expert testimony" = false /\
  search_cases Sample.silent_env "Expert testimony" 5
    (Sample.machine [] Sample.no_files)
  = (Raise (ExternalError "embedding request failed"),
     {| self := {| initialized := true; chroma_collection := [] |};
        files := Sample.no_files;
        calls := [EmbeddingCall "Expert testimony"]; stdout := [] |}).
Proof. repeat split. Qed.

(** C9, amended: on an initialised engine whose collection is empty,
    [search_cases] embeds the description and then asks the store for
    [min(50, 0) = 0] results: it returns the empty list when the embedding
    provider answers and the store answers that query, and it raises the
    failure of the provider or of the store otherwise.  [get_document_count]
    returns 0 and raises nothing, whatever the provider and the store do. *)
Theorem search_cases_empty_store (env : Env) (description : string) (top_k : Z)
    (m : Machine) :
  initialized (self m) = true ->
  chroma_collection (self m) = [] ->
  fst (search_cases env description top_k m)
  = match get_text_embedding env description with
    | Raise e => Raise e
    | Return embedding =>
        match query_failure env embedding 0 with
        | Some msg => Raise (ExternalError msg)
        | None => Return []
        end
    end /\
  get_document_count m = 0%nat.
Proof.
  intros Hinit Hempty. split; [|now apply get_document_count_empty].
  unfold search_cases.
  rewrite (@bind_Return_run _ _ _ _ _ _ _ (check_initialized_ok _ _ Hinit)).
  unfold embed, external, collection_query, get_self, log_call, bind.
  cbn. destruct (get_text_embedding env description) as [embedding|ex]; cbn;
    [|reflexivity].
  unfold collection_count. rewrite Hempty. cbn.
  destruct (query_failure env embedding 0) as [msg|]; cbn; [reflexivity|].
  unfold rank_pool, sorted_cases, PyList.slice_to. cbn.
  destruct (0 <=? top_k)%Z; rewrite ?firstn_nil; reflexivity.
Qed.

Lemma search_cases_empty_store_witness :
  fst (search_cases Sample.env "competency to stand trial" 5
         (Sample.machine [] Sample.no_files)) = Return [] /\
  get_document_count (Sample.machine [] Sample.no_files) = 0%nat.
Proof.
  exact (@search_cases_empty_store Sample.env "competency to stand trial" 5
           (Sample.machine [] Sample.no_files) eq_refl eq_refl).
Defined.

(* ================================================================= *)
(** ** Clearing a case (C10) *)

Lemma reads_ret {A : Type} (a : A) : reads_engine_only (ret a).
Proof. intros m1 m2 H. cbn. auto. Qed.

Lemma reads_raise {A : Type} (e : Exn) : reads_engine_only (@raise A e).
Proof. intros m1 m2 H. cbn. auto. Qed.

Lemma reads_bind {A B : Type} (c : M A) (k : A -> M B) :
  reads_engine_only c -> (forall a, reads_engine_only (k a)) ->
  reads_engine_only (bind c k).
Proof.
  intros Hc Hk m1 m2 H. unfold bind.
  destruct (Hc m1 m2 H) as [H1 H2].
  destruct (c m1) as [o1 n1], (c m2) as [o2 n2]. cbn in H1, H2. subst o2.
  destruct o1 as [a|e]; [apply Hk; exact H2|cbn; split; [reflexivity|exact H2]].
Qed.

Lemma reads_mapM {A B : Type} (f : A -> M B) (l : list A) :
  (forall x, reads_engine_only (f x)) -> reads_engine_only (mapM f l).
Proof.
  intros Hf. induction l as [|x l IH]; cbn [mapM].
  - apply reads_ret.
  - apply reads_bind; [apply Hf|]. intros y.
    apply reads_bind; [exact IH|]. intros ys. apply reads_ret.
Qed.

Lemma reads_get_self : reads_engine_only get_self.
Proof. intros m1 m2 H. cbn. now rewrite H. Qed.

Lemma reads_print (line : Output) : reads_engine_only (print line).
Proof. intros m1 m2 H. cbn. auto. Qed.

Lemma reads_external {A : Type} (c : ExternalCall) (r : Outcome A) :
  reads_engine_only (external c r).
Proof. intros m1 m2 H. cbn. auto. Qed.

Lemma reads_check_initialized (msg : string) :
  reads_engine_only (check_initialized msg).
Proof.
  unfold check_initialized. apply reads_bind; [apply reads_get_self|].
  intros e. destruct (initialized e); [apply reads_ret|apply reads_raise].
Qed.

Lemma reads_collection_query (env : Env) (query_embedding : Embedding)
    (n_results : nat) (eligible : Node -> bool) :
  reads_engine_only (collection_query env query_embedding n_results eligible).
Proof.
  unfold collection_query. apply reads_bind; [apply reads_get_self|].
  intros e. apply reads_external.
Qed.

Lemma reads_case_result (env : Env) (case_texts : PyDict.t string)
    (item : string * float) :
  reads_engine_only (case_result env case_texts item).
Proof.
  destruct item as [c s]. unfold case_result.
  apply reads_bind.
  - destruct (read_metadata env c) as [| |md];
      [| |destruct (py_len (or_default (meta_documents md) (PyArray [])))];
      first [apply reads_ret
            |apply reads_bind; [apply reads_print|intros _; apply reads_ret]].
  - intros [[[title summary] key_findings] doc_count]. cbv beta iota zeta.
    destruct (as_str title), (as_str summary), (first_findings key_findings);
      first [apply reads_ret|apply reads_raise].
Qed.

(** Ranking and answering read the engine only. *)
Lemma reads_search_cases (env : Env) (description : string) (top_k : Z) :
  reads_engine_only (search_cases env description top_k).
Proof.
  unfold search_cases.
  apply reads_bind; [apply reads_check_initialized|]. intros _.
  apply reads_bind; [apply reads_external|]. intros emb.
  apply reads_bind; [apply reads_get_self|]. intros e.
  apply reads_bind; [apply reads_collection_query|]. intros pool.
  unfold rank_pool. destruct (deduplicate pool) as [scores texts].
  apply reads_mapM. intros item. apply reads_case_result.
Qed.

Lemma reads_query (env : Env) (query_text : string) (case_id : option string) :
  reads_engine_only (query env query_text case_id).
Proof.
  unfold query.
  apply reads_bind; [apply reads_check_initialized|]. intros _.
  apply reads_bind; [|intros r; apply reads_ret].
  unfold query_engine_query.
  apply reads_bind; [apply reads_external|]. intros emb.
  apply reads_bind; [apply reads_collection_query|]. intros hits.
  apply reads_bind; [apply reads_external|]. intros r. apply reads_ret.
Qed.

Lemma remove_keys_skip (keys : list string) (k : string) (v : ManifestEntry)
    (manifest : Manifest) :
  ~ In k keys ->
  remove_keys keys ((k, v) :: manifest) = (k, v) :: remove_keys keys manifest.
Proof.
  unfold remove_keys. revert manifest.
  induction keys as [|k0 keys IH]; intros manifest Hnotin; [reflexivity|].
  cbn [fold_left PyDict.del].
  destruct (String.eqb k0 k) eqn:E.
  - apply String.eqb_eq in E. subst k0. exfalso. apply Hnotin. now left.
  - apply IH. intros Hin. apply Hnotin. now right.
Qed.

(** Deleting the selected keys keeps exactly the items that do not match. *)
Lemma remove_keys_filter (case_id : string) (manifest : Manifest) :
  NoDup (PyDict.keys manifest) ->
  remove_keys (keys_to_remove case_id manifest) manifest
  = filter (fun item => negb (matches_case case_id item)) manifest.
Proof.
  unfold keys_to_remove, matches_case.
  induction manifest as [|[k v] manifest IH]; intros Hnd; [reflexivity|].
  inversion Hnd as [|? ? Hnotin Hnd']; subst.
  cbn [PyDict.keys map filter fst].
  destruct (PyStr.startswith k (case_id ++ "_")) eqn:E; cbn [negb].
  - unfold remove_keys. cbn [fold_left PyDict.del].
    rewrite String.eqb_refl. apply IH, Hnd'.
  - rewrite remove_keys_skip.
    + f_equal. apply IH, Hnd'.
    + intros Hin. apply filter_In in Hin as [Hin _]. now apply Hnotin.
Qed.

Lemma only_file_changed_refl (path : Path) (m : Machine) :
  only_file_changed path m m.
Proof. repeat split. Qed.

Lemma only_file_changed_trans (path : Path) (m1 m2 m3 : Machine) :
  only_file_changed path m1 m2 -> only_file_changed path m2 m3 ->
  only_file_changed path m1 m3.
Proof.
  intros (H1 & H2 & H3) (H4 & H5 & H6). repeat split; try congruence.
  intros p Hp. rewrite H6, H3; auto.
Qed.

Lemma clear_case_documents_preserves (env : Env) (case_id : string) :
  preserves (only_file_changed clear_manifest_path)
    (clear_case_documents env case_id).
Proof.
  pose proof (only_file_changed_refl clear_manifest_path) as Hrefl.
  pose proof (@only_file_changed_trans clear_manifest_path) as Htrans.
  assert (Hprint : forall line,
             preserves (only_file_changed clear_manifest_path) (print line))
    by (intros line m; repeat split).
  unfold clear_case_documents.
  apply preserves_bind; [exact Htrans| |].
  { unfold check_initialized. apply preserves_bind; [exact Htrans| |].
    - intros m. apply Hrefl.
    - intros e. destruct (initialized e);
        [now apply preserves_ret|now apply preserves_raise]. }
  intros _. apply preserves_bind; [exact Htrans|intros m; apply Hrefl|].
  intros [| |manifest].
  - apply preserves_bind; [exact Htrans|apply Hprint|].
    intros _. now apply preserves_ret.
  - apply preserves_bind; [exact Htrans|apply Hprint|].
    intros _. now apply preserves_ret.
  - destruct (writable env clear_manifest_path).
    + apply preserves_bind; [exact Htrans| |].
      * intros m. repeat split. intros p Hp. cbn [write_file snd files].
        destruct (PathLib.eqb p clear_manifest_path) eqn:E; [|reflexivity].
        apply PathLibFacts.eqb_eq in E. contradiction.
      * intros _. apply preserves_bind; [exact Htrans|apply Hprint|].
        intros _. apply preserves_bind; [exact Htrans|apply Hprint|].
        intros _. now apply preserves_ret.
    + apply preserves_bind; [exact Htrans|apply Hprint|].
      intros _. now apply preserves_ret.
Qed.

(** C10: [clear_case_documents] changes nothing but the manifest file of
    line 443: the engine (so the collection, fragment for fragment), the call
    log and every other file are as before, and [search_cases] and [query]
    answer afterwards as they would have before.  When the engine is
    initialised and that file holds a manifest and can be written, the items
    whose key starts with the case identifier and the separator are removed,
    the others are kept, and the number of removed items is returned. *)
Theorem clear_case_documents_frame (env : Env) (case_id : string) (m : Machine) :
  self (snd (clear_case_documents env case_id m)) = self m /\
  calls (snd (clear_case_documents env case_id m)) = calls m /\
  (forall p, p <> clear_manifest_path ->
     files (snd (clear_case_documents env case_id m)) p = files m p) /\
  (forall description top_k,
     fst (search_cases env description top_k
            (snd (clear_case_documents env case_id m)))
     = fst (search_cases env description top_k m)) /\
  (forall query_text filter_case,
     fst (query env query_text filter_case
            (snd (clear_case_documents env case_id m)))
     = fst (query env query_text filter_case m)) /\
  (forall manifest,
     initialized (self m) = true ->
     files m clear_manifest_path = Parsed manifest ->
     NoDup (PyDict.keys manifest) ->
     writable env clear_manifest_path = true ->
     fst (clear_case_documents env case_id m)
       = Return (List.length (filter (matches_case case_id) manifest)) /\
     files (snd (clear_case_documents env case_id m)) clear_manifest_path
       = Parsed (filter (fun item => negb (matches_case case_id item)) manifest)).
Proof.
  destruct (clear_case_documents_preserves env case_id m) as (Hself & Hcalls & Hfiles).
  split; [exact Hself|]. split; [exact Hcalls|].
  split; [exact Hfiles|]. split; [|split].
  - intros description top_k.
    now apply reads_search_cases.
  - intros query_text filter_case.
    now apply reads_query.
  - intros manifest Hinit Hfile Hnd Hw.
    assert (Hrun : clear_case_documents env case_id m
              = (Return (List.length (keys_to_remove case_id manifest)),
                 {| self := self m;
                    files := fun q =>
                      if PathLib.eqb q clear_manifest_path
                      then Parsed (remove_keys (keys_to_remove case_id manifest)
                                     manifest)
                      else files m q;
                    calls := calls m;
                    stdout := ((stdout m
                                ++ [ClearedLine
                                      (List.length (keys_to_remove case_id manifest))
                                      case_id])
                               ++ [ClearNoteLine])%list |})).
    { unfold clear_case_documents.
      rewrite (@bind_Return_run _ _ _ _ _ _ _ (check_initialized_ok _ _ Hinit)).
      unfold bind at 1. cbn [read_file]. rewrite Hfile, Hw. reflexivity. }
    rewrite Hrun. cbn [fst snd files].
    rewrite PathLibFacts.eqb_refl, (@remove_keys_filter case_id manifest Hnd).
    split; [|reflexivity]. f_equal.
    unfold keys_to_remove, matches_case, PyDict.keys.
    clear. induction manifest as [|[k v] manifest IH]; [reflexivity|].
    cbn [map filter fst]. destruct (PyStr.startswith k (case_id ++ "_")); cbn;
      now rewrite IH.
Qed.

Lemma clear_case_documents_frame_witness :
  fst (clear_case_documents Sample.env "case_2"
         (Sample.machine [Sample.node "case_2" "z.txt" "Risk assessment" 15]
            (Sample.manifest_at clear_manifest_path Sample.colliding_manifest)))
    = Return 1%nat /\
  chroma_collection
    (self (snd (clear_case_documents Sample.env "case_2"
                  (Sample.machine [Sample.node "case_2" "z.txt" "Risk assessment" 15]
                     (Sample.manifest_at clear_manifest_path
                        Sample.colliding_manifest)))))
    = [Sample.node "case_2" "z.txt" "Risk assessment" 15].
Proof.
  pose proof (@clear_case_documents_frame Sample.env "case_2"
                (Sample.machine [Sample.node "case_2" "z.txt" "Risk assessment" 15]
                   (Sample.manifest_at clear_manifest_path
                      Sample.colliding_manifest)))
    as (Hself & _ & _ & _ & _ & Hrun).
  destruct (Hrun Sample.colliding_manifest eq_refl eq_refl) as [Hout _].
  - repeat constructor; simpl; intuition discriminate.
  - reflexivity.
  - split; [exact Hout|]. rewrite Hself. reflexivity.
Defined.

(** The file that [clear_case_documents] edits is not the one that
    [ingest_documents] keeps for a case directory directly under [DATA_DIR]:
    line 333 goes two levels up from the case directory, lines 421 and 443
    stay in [DATA_DIR]. *)
Remark manifest_paths (case_id : string) :
  single_component case_id = true ->
  ingest_manifest_path (joinpath DATA_DIR case_id)
    = ["data"; ".ingestion_manifest.json"] /\
  clear_manifest_path = ["data"; "cases"; ".ingestion_manifest.json"].
Proof. intros _. split; reflexivity. Qed.

(** So after ingesting such a directory, clearing its case finds no manifest
    and a further run still skips every document. *)
Example clear_after_ingest :
  exists m1 m2 m3,
    ingest_documents Sample.env Sample.case_dir "case_001" None false
      (Sample.machine [] Sample.no_files)
    = (Return {| ingested := 2; skipped := 0 |}, m1) /\
    clear_case_documents Sample.env "case_001" m1 = (Return 0%nat, m2) /\
    stdout m2 = (stdout m1 ++ [NoManifestLine])%list /\
    ingest_documents Sample.env Sample.case_dir "case_001" None false m2
    = (Return {| ingested := 0; skipped := 2 |}, m3).
Proof.
  eexists. eexists. eexists.
  split; [vm_compute; reflexivity|].
  split; [vm_compute; reflexivity|].
  split; vm_compute; reflexivity.
Qed.

(* ================================================================= *)
(** ** Distance to similarity (C4) *)

Lemma similarity_exact_pos (d : Q) : (0 <= d -> 0 < similarity_exact d)%Q.
Proof. intros H. unfold similarity_exact. apply Qlt_shift_div_l; lra. Qed.

Lemma similarity_exact_le_1 (d : Q) : (0 <= d -> similarity_exact d <= 1)%Q.
Proof. intros H. unfold similarity_exact. apply Qle_shift_div_r; lra. Qed.

Lemma similarity_exact_decreasing (d1 d2 : Q) :
  (0 <= d1 -> d1 < d2 -> similarity_exact d2 < similarity_exact d1)%Q.
Proof.
  intros H0 H. unfold similarity_exact, Qdiv. rewrite !Qmult_1_l.
  apply -> Qinv_lt_contravar; lra.
Qed.

(** Where [1 / (1 + d)] is a binary64 number the code computes it exactly:
    at the distances 0, 1, 3 and 7 the float is the rational value. *)
Example similarity_exact_samples :
  map (fun d => option_map (Qeq_bool (similarity_exact (inject_Z d)))
                  (float_value (similarity (PrimFloat.of_uint63 (Uint63.of_Z d)))))
      [0; 1; 3; 7]%Z
  = [Some true; Some true; Some true; Some true].
Proof. vm_compute. reflexivity. Qed.

(** C4, as stated, fails in the arithmetic of the code: the distances 0 and
    2^-60 are distinct, 0 <= 0 < 2^-60, and both have similarity exactly 1,
    because 1 + 2^-60 rounds to 1.  The same happens between 1 and 1 + 2^-52,
    away from zero. *)
Lemma similarity_not_strictly_decreasing :
  (0 <=? 0)%float = true /\
  (0 <? 0x1p-60)%float = true /\
  similarity 0 = 1%float /\
  similarity 0x1p-60 = 1%float /\
  (similarity 0x1p-60 <? similarity 0)%float = false /\
  (1 <? 0x1.0000000000001p0)%float = true /\
  similarity 1 = similarity 0x1.0000000000001p0.
Proof. repeat split; vm_compute; reflexivity. Qed.

(** In the arithmetic of the code the bounds of the rule survive: the
    similarity of a distance that is not negative lies between 0 and 1. *)
Lemma similarity_range (d : float) :
  (0 <=? d)%float = true ->
  (0 <=? similarity d)%float = true /\ (similarity d <=? 1)%float = true.
Proof.
  intros H0. split.
  - destruct (@Float64Facts.leb_not_nan 0%float d H0) as [_ Hd].
    apply (RoundingFacts.similarity_decreasing d infinity H0).
    now apply Float64Facts.leb_infinity.
  - exact (RoundingFacts.similarity_decreasing 0 d eq_refl H0).
Qed.

(** The similarity of a finite distance is not zero: the smallest one,
    at the largest float, is [0x0.4p-1022]. *)
Lemma similarity_pos (d : float) :
  (0 <=? d)%float = true -> (d <? infinity)%float = true ->
  (0 <? similarity d)%float = true.
Proof.
  intros H0 Hfin.
  apply Float64Facts.ltb_leb_trans with (y := similarity max_float);
    [reflexivity|].
  apply RoundingFacts.similarity_decreasing; [exact H0|].
  now apply RoundingFacts.le_max_float.
Qed.

(** C4, amended: the conversion is [similarity(d) = 1 / (1 + d)], evaluated
    in binary64.  In the code it never grows with the distance: for
    [0 <= d1 <= d2] the similarity of [d2] is at most that of [d1]; it lies
    between 0 and 1, is 1 at 0 and is not 0 at a finite distance.  The
    decrease is strict for the rule on exact numbers, with values in (0, 1],
    but not after rounding, where distinct distances can have equal
    similarities. *)
Theorem similarity_rule (d1 d2 : float) (q1 q2 : Q) :
  (0 <=? d1)%float = true -> (d1 <=? d2)%float = true ->
  (0 <= q1)%Q -> (q1 < q2)%Q ->
  (similarity d2 <=? similarity d1)%float = true /\
  (0 <=? similarity d1)%float = true /\
  (similarity d1 <=? 1)%float = true /\
  ((d1 <? infinity)%float = true -> (0 <? similarity d1)%float = true) /\
  similarity 0 = 1%float /\
  (similarity_exact q2 < similarity_exact q1)%Q /\
  (0 < similarity_exact q1 <= 1)%Q /\
  (similarity_exact 0 == 1)%Q.
Proof.
  intros H0 H Hq0 Hq.
  split; [now apply RoundingFacts.similarity_decreasing|].
  split; [now apply similarity_range|].
  split; [now apply similarity_range|].
  split; [now apply similarity_pos|].
  split; [reflexivity|].
  split; [now apply similarity_exact_decreasing|].
  split; [split; [now apply similarity_exact_pos|now apply similarity_exact_le_1]|].
  reflexivity.
Qed.

Lemma similarity_rule_witness :
  (similarity 1 <=? similarity 0.5)%float = true /\
  (0 <? similarity 0.5)%float = true /\
  (similarity 0.5 <=? 1)%float = true /\
  similarity 0 = 1%float /\
  (similarity_exact 1 < similarity_exact (1 # 2))%Q /\
  (0 < similarity_exact (1 # 2) <= 1)%Q.
Proof.
  destruct (@similarity_rule 0.5%float 1%float (1 # 2) 1)
    as (Hle & _ & Hone & Hpos & Hzero & Hlt & Hrange & _).
  - reflexivity.
  - reflexivity.
  - lra.
  - lra.
  - split; [exact Hle|]. split; [apply Hpos; reflexivity|].
    split; [exact Hone|]. split; [exact Hzero|]. split; [exact Hlt|exact Hrange].
Defined.
(* ================================================================= *)
(** * Part III: more of the code *)

(** ** Ingestion: the counts, the store and the manifest *)

Lemma grows_refl (m : Machine) : grows m m.
Proof.
  split; [exists []; unfold appended; now rewrite app_nil_r|split; reflexivity].
Qed.

Lemma grows_trans (m1 m2 m3 : Machine) : grows m1 m2 -> grows m2 m3 -> grows m1 m3.
Proof.
  intros ([n1 H1] & F1 & I1) ([n2 H2] & F2 & I2). split; [|split; congruence].
  exists (n1 ++ n2)%list. unfold appended in *. now rewrite H2, H1, app_assoc.
Qed.

(** An insertion, whether it goes through or not, only adds to the
    collection. *)
Lemma index_insert_grows (env : Env) (doc : Document) :
  preserves grows (index_insert env doc).
Proof.
  intros m. destruct (index_insert_frame env doc m) as (F1 & _ & F3).
  split; [|split; assumption].
  destruct (index_insert env doc m) as [[u|e] m'] eqn:E; cbn [snd].
  - apply index_insert_Return in E as (new & Hnew & _). now exists new.
  - exists []. unfold appended. rewrite app_nil_r.
    unfold index_insert in E. unfold bind at 1 in E.
    pose proof (mapM_embed_self env (node_parser env (doc_text doc)) m) as Hself.
    destruct (mapM (embed env) (node_parser env (doc_text doc)) m) as [[es|e'] m1].
    + cbn in E. discriminate.
    + injection E as _ <-. cbn [snd] in Hself. now rewrite Hself.
Qed.

Lemma print_grows (line : Output) : preserves grows (print line).
Proof. intros m. split; [exists []; unfold appended; cbn; now rewrite app_nil_r|]. split; reflexivity. Qed.

Section Ingestion.

Variable env : Env.
Variable case_dir : Path.
Variable case_id : string.
Variable metadata : option Metadata.

(** The loop, however it ends, only adds to the collection and writes no
    file. *)
Lemma ingest_loop_grows (force : bool) (documents : list Document) :
  forall (manifest : Manifest) (i s : nat),
  preserves grows
    (ingest_loop env case_dir case_id metadata force documents manifest i s).
Proof.
  induction documents as [|doc rest IH]; intros manifest i s; cbn [ingest_loop].
  - apply preserves_ret, grows_refl.
  - destruct (PyDict.mem _ manifest && negb force).
    + apply preserves_bind; [exact grows_trans|apply print_grows|].
      intros _. apply IH.
    + apply preserves_bind; [exact grows_trans|apply index_insert_grows|].
      intros _. apply preserves_bind; [exact grows_trans|apply print_grows|].
      intros _. apply IH.
Qed.

(** When the loop returns: the fragments it added are those of documents of
    the directory, each with the metadata attached to its document; the
    items of the manifest under other keys are as before; and a forced run
    added the fragments of every document and skipped none. *)
Lemma ingest_loop_store (force : bool) (documents : list Document) :
  forall (manifest : Manifest) (i s : nat) (m : Machine)
         (manifest' : Manifest) (r : IngestResult) (m' : Machine),
  ingest_loop env case_dir case_id metadata force documents manifest i s m
    = (Return (manifest', r), m') ->
  exists new,
    appended m m' new /\
    Forall (fun n => exists doc,
              In doc documents /\
              node_metadata n = attached_metadata case_id metadata doc /\
              In (node_text n) (node_parser env (doc_text doc))) new /\
    (forall k, (forall doc, In doc documents -> k <> key_of case_id doc) ->
               PyDict.get k manifest' = PyDict.get k manifest) /\
    (force = true ->
     map node_text new = fragments_of env documents /\
     skipped r = s /\ ingested r = (i + List.length documents)%nat).
Proof.
  induction documents as [|doc rest IH]; intros manifest i s m manifest' r m' H.
  - cbn in H. injection H as <- <- <-. exists [].
    split; [unfold appended; now rewrite app_nil_r|].
    split; [constructor|]. split; [reflexivity|].
    intros _. cbn. repeat split. lia.
  - cbn [ingest_loop] in H.
    change (doc_key case_id (file_name_of doc)) with (key_of case_id doc) in H.
    destruct (PyDict.mem (key_of case_id doc) manifest && negb force) eqn:E.
    + unfold bind at 1 in H. cbn [print] in H.
      apply IH in H as (new & Hnew & Hall & Hkeys & Hforce).
      exists new. split; [exact Hnew|]. split; [|split].
      * eapply Forall_impl; [|exact Hall]. cbn.
        intros n (d & Hd & Hn). exists d. split; [now right|exact Hn].
      * intros k Hk. apply Hkeys. intros d Hd. apply Hk. now right.
      * intros ->. rewrite andb_false_r in E. discriminate.
    + unfold bind at 1 in H.
      match type of H with
      | context [index_insert env ?d m] =>
          destruct (index_insert env d m) as [[[]|ex] m1] eqn:Hins
      end; [|discriminate].
      apply index_insert_Return in Hins as (new1 & Hnew1 & Htexts & Hmeta).
      unfold bind at 1 in H. cbn [print] in H.
      apply IH in H as (new2 & Hnew2 & Hall & Hkeys & Hforce).
      exists (new1 ++ new2)%list. split; [|split; [|split]].
      * unfold appended in *. cbn in Hnew2. now rewrite Hnew2, Hnew1, app_assoc.
      * apply Forall_app. split.
        -- apply Forall_forall. intros n Hn. exists doc.
           split; [now left|]. split.
           ++ rewrite Forall_forall in Hmeta. now rewrite (Hmeta n Hn).
           ++ cbn [doc_text] in Htexts. rewrite <- Htexts. now apply in_map.
        -- eapply Forall_impl; [|exact Hall]. cbn.
           intros n (d & Hd & Hn). exists d. split; [now right|exact Hn].
      * intros k Hk. rewrite Hkeys.
        -- apply PyDictFacts.get_set_other. apply Hk. now left.
        -- intros d Hd. apply Hk. now right.
      * intros Hf. destruct (Hforce Hf) as (H1 & H2 & H3).
        split; [|split; [exact H2|cbn [List.length]; lia]].
        rewrite map_app, H1. cbn [doc_text] in Htexts. rewrite Htexts.
        reflexivity.
Qed.

(** What a run of [ingest_documents] that returns has gone through. *)
Lemma ingest_documents_inv (force : bool) (m m' : Machine) (r : IngestResult) :
  ingest_documents env case_dir case_id metadata force m = (Return r, m') ->
  exists documents m1 manifest' m2,
    initialized (self m) = true /\
    load_data env case_dir = Return documents /\
    self m1 = self m /\ files m1 = files m /\ calls m1 = calls m /\
    ingest_loop env case_dir case_id metadata force documents
      (loaded_manifest (files m (ingest_manifest_path case_dir))) 0 0 m1
      = (Return (manifest', r), m2) /\
    self m' = self m2 /\ calls m' = calls m2 /\
    (if writable env (ingest_manifest_path case_dir)
     then files m' (ingest_manifest_path case_dir) = Parsed manifest' /\
          (forall p, p <> ingest_manifest_path case_dir -> files m' p = files m2 p)
     else forall p, files m' p = files m2 p).
Proof.
  intros H. unfold ingest_documents in H.
  apply bind_Return in H as (u & m0 & Hinit & H).
  apply check_initialized_Return in Hinit as [Hinit ->].
  apply bind_Return in H as (content & m0 & Hread & H).
  injection Hread as <- <-.
  apply bind_Return in H as (manifest0 & m1 & Hload & H).
  assert (Hm1 : manifest0 = loaded_manifest (files m (ingest_manifest_path case_dir))
                /\ self m1 = self m /\ files m1 = files m /\ calls m1 = calls m).
  { destruct (files m (ingest_manifest_path case_dir));
      cbn in Hload; injection Hload as <- <-; repeat split. }
  destruct Hm1 as (-> & S1 & F1 & C1).
  apply bind_Return in H as (documents & m1' & Hdocs & H).
  injection Hdocs as Hdocs <-.
  apply bind_Return in H as ([manifest' r0] & m2 & Hloop & H).
  exists documents, m1, manifest', m2.
  split; [exact Hinit|]. split; [exact Hdocs|].
  split; [exact S1|]. split; [exact F1|]. split; [exact C1|].
  cbn [fst snd] in H.
  destruct (writable env (ingest_manifest_path case_dir)).
  - cbn in H. injection H as <- <-. split; [exact Hloop|]. cbn.
    split; [reflexivity|]. split; [reflexivity|].
    rewrite PathLibFacts.eqb_refl. split; [reflexivity|].
    intros p Hp. destruct (PathLib.eqb p (ingest_manifest_path case_dir)) eqn:E;
      [|reflexivity].
    apply PathLibFacts.eqb_eq in E. contradiction.
  - cbn in H. injection H as <- <-. split; [exact Hloop|]. cbn.
    repeat split.
Qed.

End Ingestion.

(** X1: a run of [ingest_documents] that returns has counted every document
    that the reader yields for the directory exactly once, as ingested or as
    skipped, whatever the manifest holds and whether re-ingestion is forced
    or not. *)
Theorem ingest_documents_counts (env : Env) (case_dir : Path) (case_id : string)
    (metadata : option Metadata) (force : bool) (m m' : Machine)
    (r : IngestResult) :
  ingest_documents env case_dir case_id metadata force m = (Return r, m') ->
  exists documents,
    load_data env case_dir = Return documents /\
    (ingested r + skipped r = List.length documents)%nat.
Proof.
  intros H.
  apply ingest_documents_inv in H
    as (documents & m1 & manifest' & m2 & _ & Hdocs & _ & _ & _ & Hloop & _).
  apply ingest_loop_Return in Hloop as (_ & _ & Hcount & _).
  exists documents. split; [exact Hdocs|lia].
Qed.

Lemma ingest_documents_counts_witness :
  exists documents,
    load_data Sample.env Sample.case_dir = Return documents /\
    (1 + 1 = List.length documents)%nat.
Proof.
  assert (H : ingest_documents Sample.env Sample.case_dir "case_001" None false
                (Sample.machine []
                   (Sample.manifest_at (ingest_manifest_path Sample.case_dir)
                      [(doc_key "case_001" "evaluation.txt",
                        Sample.entry "case_001" "evaluation.txt")]))
              = (Return {| ingested := 1; skipped := 1 |},
                 snd (ingest_documents Sample.env Sample.case_dir "case_001" None
                        false
                        (Sample.machine []
                           (Sample.manifest_at
                              (ingest_manifest_path Sample.case_dir)
                              [(doc_key "case_001" "evaluation.txt",
                                Sample.entry "case_001" "evaluation.txt")])))))
    by (vm_compute; reflexivity).
  exact (@ingest_documents_counts _ _ _ _ _ _ _ _ H).
Defined.

(** X2: a forced run skips nothing and inserts the fragments of every
    document of the directory after those the collection holds, also when
    the manifest lists the documents and the collection holds their
    fragments already: nothing is replaced, the count of the store grows by
    the number of fragments. *)
Theorem forced_reingest_adds_all (env : Env) (case_dir : Path) (case_id : string)
    (metadata : option Metadata) (m m' : Machine) (r : IngestResult) :
  ingest_documents env case_dir case_id metadata true m = (Return r, m') ->
  exists documents new,
    load_data env case_dir = Return documents /\
    ingested r = List.length documents /\ skipped r = 0%nat /\
    chroma_collection (self m')
      = (chroma_collection (self m) ++ new)%list /\
    map node_text new = fragments_of env documents /\
    get_document_count m'
      = (get_document_count m + List.length (fragments_of env documents))%nat.
Proof.
  intros H.
  apply ingest_documents_inv in H
    as (documents & m1 & manifest' & m2 & Hinit & Hdocs & S1 & _ & _ & Hloop
        & S2 & _).
  destruct (ingest_loop_grows env case_dir case_id metadata true documents
              (loaded_manifest (files m (ingest_manifest_path case_dir))) 0 0 m1)
    as (_ & _ & Hflag).
  rewrite Hloop in Hflag. cbn [snd] in Hflag.
  apply ingest_loop_store in Hloop as (new & Hnew & _ & _ & Hforce).
  destruct (Hforce eq_refl) as (Htexts & Hs & Hi).
  exists documents, new. split; [exact Hdocs|]. split; [exact Hi|].
  split; [exact Hs|]. unfold appended in Hnew.
  assert (Hcoll : chroma_collection (self m')
                  = (chroma_collection (self m) ++ new)%list)
    by (rewrite S2, Hnew, S1; reflexivity).
  split; [exact Hcoll|]. split; [exact Htexts|].
  assert (Hinit' : initialized (self m') = true)
    by (rewrite S2, Hflag, S1; exact Hinit).
  unfold get_document_count, collection_count.
  rewrite Hinit', Hinit, Hcoll, length_app, <- Htexts, length_map.
  reflexivity.
Qed.

Lemma forced_reingest_adds_all_witness :
  exists new,
    chroma_collection
      (self (snd (ingest_documents Sample.env Sample.case_dir "case_001" None true
                    (Sample.machine Setup.stored_nodes
                       (Sample.manifest_at (ingest_manifest_path Sample.case_dir)
                          Setup.full_manifest)))))
    = (Setup.stored_nodes ++ new)%list /\
    map node_text new = ["Competency evaluation"; "Expert testimony"].
Proof.
  assert (H : ingest_documents Sample.env Sample.case_dir "case_001" None true
                (Sample.machine Setup.stored_nodes
                   (Sample.manifest_at (ingest_manifest_path Sample.case_dir)
                      Setup.full_manifest))
              = (Return {| ingested := 2; skipped := 0 |},
                 snd (ingest_documents Sample.env Sample.case_dir "case_001" None
                        true
                        (Sample.machine Setup.stored_nodes
                           (Sample.manifest_at
                              (ingest_manifest_path Sample.case_dir)
                              Setup.full_manifest)))))
    by (vm_compute; reflexivity).
  destruct (@forced_reingest_adds_all _ _ _ _ _ _ _ H)
    as (documents & new & Hdocs & _ & _ & Hcoll & Htexts & _).
  exists new. split; [exact Hcoll|].
  rewrite Htexts. injection Hdocs as <-. reflexivity.
Defined.

(** An update that does not bring a key leaves its value as it was. *)
Lemma get_update_other {V : Type} (k : string) (other d : PyDict.t V) :
  PyDict.mem k other = false ->
  PyDict.get k (PyDict.update d other) = PyDict.get k d.
Proof.
  unfold PyDict.update, PyDict.mem. revert d.
  induction other as [|[k' v'] other IH]; intros d H; [reflexivity|].
  cbn [fold_left fst snd]. cbn [PyDict.get] in H.
  destruct (String.eqb k k') eqn:E; [discriminate|].
  rewrite IH by exact H.
  apply PyDictFacts.get_set_other. intros ->.
  rewrite String.eqb_refl in E. discriminate.
Qed.

(** X3: ingestion only appends to the collection, and when the caller's
    metadata brings no [case_id] of its own, every fragment that a run adds
    is a fragment of a document of the directory and carries the case
    identifier of the run as its [case_id]. *)
Theorem ingested_fragments_tagged (env : Env) (case_dir : Path)
    (case_id : string) (metadata : option Metadata) (force : bool)
    (m m' : Machine) (r : IngestResult) :
  match metadata with
  | Some extra => PyDict.mem "case_id" extra = false
  | None => True
  end ->
  ingest_documents env case_dir case_id metadata force m = (Return r, m') ->
  exists documents new,
    load_data env case_dir = Return documents /\
    chroma_collection (self m') = (chroma_collection (self m) ++ new)%list /\
    Forall (fun n =>
              PyDict.get "case_id" (node_metadata n) = Some case_id /\
              exists doc, In doc documents /\
                          In (node_text n) (node_parser env (doc_text doc)))
           new.
Proof.
  intros Hmeta H.
  apply ingest_documents_inv in H
    as (documents & m1 & manifest' & m2 & _ & Hdocs & S1 & _ & _ & Hloop
        & S2 & _).
  apply ingest_loop_store in Hloop as (new & Hnew & Hall & _).
  exists documents, new. split; [exact Hdocs|]. split.
  - unfold appended in Hnew. now rewrite S2, Hnew, S1.
  - eapply Forall_impl; [|exact Hall]. cbn.
    intros n (doc & Hdoc & Hmd & Htext). split; [|now exists doc].
    rewrite Hmd. unfold attached_metadata. destruct metadata as [extra|].
    + rewrite (@get_update_other _ _ _ _ Hmeta). apply PyDictFacts.get_set_same.
    + apply PyDictFacts.get_set_same.
Qed.

Lemma ingested_fragments_tagged_witness :
  exists new,
    chroma_collection
      (self (snd (ingest_documents Sample.env Sample.case_dir "case_001"
                    (Some [("court", "Superior Court")]) false
                    (Sample.machine [] Sample.no_files))))
    = new /\
    Forall (fun n => PyDict.get "case_id" (node_metadata n) = Some "case_001") new.
Proof.
  assert (H : ingest_documents Sample.env Sample.case_dir "case_001"
                (Some [("court", "Superior Court")]) false
                (Sample.machine [] Sample.no_files)
              = (Return {| ingested := 2; skipped := 0 |},
                 snd (ingest_documents Sample.env Sample.case_dir "case_001"
                        (Some [("court", "Superior Court")]) false
                        (Sample.machine [] Sample.no_files))))
    by (vm_compute; reflexivity).
  destruct (@ingested_fragments_tagged Sample.env Sample.case_dir "case_001"
              (Some [("court", "Superior Court")]) false _ _ _ eq_refl H)
    as (documents & new & _ & Hcoll & Hall).
  exists new. split; [exact Hcoll|].
  eapply Forall_impl; [|exact Hall]. cbn. tauto.
Defined.

(** X4: a run that returns and can write the manifest saves a manifest that
    lists every document of the directory and in which the items under all
    other keys (those of other cases among them) are as the run found them;
    no other file is written. *)
Theorem ingest_keeps_other_entries (env : Env) (case_dir : Path)
    (case_id : string) (metadata : option Metadata) (force : bool)
    (m m' : Machine) (r : IngestResult) :
  writable env (ingest_manifest_path case_dir) = true ->
  ingest_documents env case_dir case_id metadata force m = (Return r, m') ->
  exists documents manifest',
    load_data env case_dir = Return documents /\
    files m' (ingest_manifest_path case_dir) = Parsed manifest' /\
    (forall doc, In doc documents ->
                 PyDict.mem (key_of case_id doc) manifest' = true) /\
    (forall k, (forall doc, In doc documents -> k <> key_of case_id doc) ->
               PyDict.get k manifest'
               = PyDict.get k (loaded_manifest
                                 (files m (ingest_manifest_path case_dir)))) /\
    (forall p, p <> ingest_manifest_path case_dir -> files m' p = files m p).
Proof.
  intros Hw H.
  apply ingest_documents_inv in H
    as (documents & m1 & manifest' & m2 & _ & Hdocs & _ & F1 & _ & Hloop
        & _ & _ & Hfiles).
  rewrite Hw in Hfiles. destruct Hfiles as [Hfile Hothers].
  pose proof (ingest_loop_Return _ _ _ _ _ _ _ _ _ _ Hloop)
    as (Hkeys & _ & _ & F2 & _).
  apply ingest_loop_store in Hloop as (new & _ & _ & Hkeep & _).
  exists documents, manifest'. split; [exact Hdocs|]. split; [exact Hfile|].
  split; [exact Hkeys|]. split; [exact Hkeep|].
  intros p Hp. rewrite (Hothers p Hp), F2, F1. reflexivity.
Qed.

Lemma ingest_keeps_other_entries_witness :
  exists manifest',
    files (snd (ingest_documents Sample.env Sample.case_dir "case_001" None false
                  (Sample.machine []
                     (Sample.manifest_at (ingest_manifest_path Sample.case_dir)
                        [(doc_key "case_2" "z.txt",
                          Sample.entry "case_2" "z.txt")]))))
          (ingest_manifest_path Sample.case_dir)
    = Parsed manifest' /\
    PyDict.get (doc_key "case_2" "z.txt") manifest'
    = Some (Sample.entry "case_2" "z.txt").
Proof.
  assert (H : ingest_documents Sample.env Sample.case_dir "case_001" None false
                (Sample.machine []
                   (Sample.manifest_at (ingest_manifest_path Sample.case_dir)
                      [(doc_key "case_2" "z.txt", Sample.entry "case_2" "z.txt")]))
              = (Return {| ingested := 2; skipped := 0 |},
                 snd (ingest_documents Sample.env Sample.case_dir "case_001" None
                        false
                        (Sample.machine []
                           (Sample.manifest_at
                              (ingest_manifest_path Sample.case_dir)
                              [(doc_key "case_2" "z.txt",
                                Sample.entry "case_2" "z.txt")])))))
    by (vm_compute; reflexivity).
  destruct (@ingest_keeps_other_entries Sample.env Sample.case_dir "case_001"
              None false _ _ _ eq_refl H)
    as (documents & manifest' & Hdocs & Hfile & _ & Hkeep & _).
  exists manifest'. split; [exact Hfile|].
  rewrite Hkeep; [reflexivity|].
  injection Hdocs as <-. intros doc [<-|[<-|[]]]; discriminate.
Defined.

Lemma bind_Raise_run {A B : Type} (c : M A) (k : A -> M B) (m m1 : Machine) (e : Exn) :
  c m = (Raise e, m1) -> bind c k m = (Raise e, m1).
Proof. unfold bind. now intros ->. Qed.

Lemma check_initialized_not (msg : string) (m : Machine) :
  initialized (self m) = false ->
  check_initialized msg m = (Raise (RuntimeError msg), m).
Proof.
  intros H. unfold check_initialized, bind, get_self, raise. now rewrite H.
Qed.

(** A run that raises has only added to the collection. *)
Lemma ingest_documents_Raise (env : Env) (case_dir : Path) (case_id : string)
    (metadata : option Metadata) (force : bool) (m : Machine) :
  match ingest_documents env case_dir case_id metadata force m with
  | (Raise _, m') => grows m m'
  | (Return _, _) => True
  end.
Proof.
  unfold ingest_documents.
  destruct (initialized (self m)) eqn:Hinit.
  2: { rewrite (@bind_Raise_run _ _ _ _ _ _ _ (check_initialized_not _ _ Hinit)).
       apply grows_refl. }
  rewrite (@bind_Return_run _ _ _ _ _ _ _ (check_initialized_ok _ _ Hinit)).
  unfold bind at 1. cbn [read_file].
  set (content := files m (ingest_manifest_path case_dir)).
  assert (Hload : exists m1,
    match content with
    | Absent => ret PyDict.empty
    | Unparsable => bind (print ManifestLoadWarning) (fun _ => ret PyDict.empty)
    | Parsed manifest => ret manifest
    end m = (Return (loaded_manifest content), m1) /\ grows m m1).
  { destruct content; eexists; (split; [reflexivity|]).
    - apply grows_refl.
    - apply print_grows.
    - apply grows_refl. }
  destruct Hload as (m1 & Hload & G1).
  rewrite (@bind_Return_run _ _ _ _ _ _ _ Hload).
  unfold bind at 1.
  destruct (load_data env case_dir) as [documents|ex] eqn:Hdocs; [|exact G1].
  unfold bind at 1.
  pose proof (ingest_loop_grows env case_dir case_id metadata force documents
                (loaded_manifest content) 0 0 m1) as G2.
  destruct (ingest_loop env case_dir case_id metadata force documents
              (loaded_manifest content) 0 0 m1) as [[done|ex] m2];
    cbn [snd] in G2.
  - destruct (writable env (ingest_manifest_path case_dir)); cbn; exact I.
  - exact (grows_trans G1 G2).
Qed.

(** X5: a run of [ingest_documents] that raises (the engine is not
    initialised, the reader fails, the embedding provider fails on a
    fragment) has written no manifest, while the fragments that it inserted
    before the failure stay in the collection: they are recorded nowhere. *)
Theorem failed_ingest_keeps_manifest (env : Env) (case_dir : Path)
    (case_id : string) (metadata : option Metadata) (force : bool)
    (m : Machine) (e : Exn) :
  fst (ingest_documents env case_dir case_id metadata force m) = Raise e ->
  files (snd (ingest_documents env case_dir case_id metadata force m)) = files m /\
  exists new,
    chroma_collection
      (self (snd (ingest_documents env case_dir case_id metadata force m)))
    = (chroma_collection (self m) ++ new)%list.
Proof.
  intros H.
  pose proof (ingest_documents_Raise env case_dir case_id metadata force m) as G.
  destruct (ingest_documents env case_dir case_id metadata force m) as [[r|ex] m'];
    cbn [fst snd] in *; [discriminate|].
  destruct G as ([new Hnew] & F & _). split; [exact F|]. now exists new.
Qed.

Lemma failed_ingest_keeps_manifest_witness :
  files (snd (ingest_documents Setup.flaky_env Sample.case_dir "case_001" None
                false (Sample.machine [] Sample.no_files)))
  = Sample.no_files /\
  exists new,
    chroma_collection
      (self (snd (ingest_documents Setup.flaky_env Sample.case_dir "case_001"
                    None false (Sample.machine [] Sample.no_files))))
    = new.
Proof.
  destruct (@failed_ingest_keeps_manifest Setup.flaky_env Sample.case_dir
              "case_001" None false (Sample.machine [] Sample.no_files)
              (ExternalError "rate limit") eq_refl)
    as [Hfiles [new Hnew]].
  split; [exact Hfiles|]. exists new. exact Hnew.
Defined.

(** The run of the sample: the provider fails on the second document, the
    fragment of the first one is in the collection and no manifest exists;
    the next run, the provider answering, inserts that fragment again. *)
Example failed_ingest_then_rerun :
  exists m1 m2,
    ingest_documents Setup.flaky_env Sample.case_dir "case_001" None false
      (Sample.machine [] Sample.no_files)
    = (Raise (ExternalError "rate limit"), m1) /\
    map node_text (chroma_collection (self m1)) = ["Competency evaluation"] /\
    files m1 (ingest_manifest_path Sample.case_dir) = Absent /\
    ingest_documents Sample.env Sample.case_dir "case_001" None false m1
    = (Return {| ingested := 2; skipped := 0 |}, m2) /\
    map node_text (chroma_collection (self m2))
    = ["Competency evaluation"; "Competency evaluation"; "Expert testimony"].
Proof.
  eexists. eexists.
  split; [vm_compute; reflexivity|].
  split; [vm_compute; reflexivity|].
  split; [vm_compute; reflexivity|].
  split; vm_compute; reflexivity.
Qed.
(* ================================================================= *)
(** ** Clearing a case twice *)

(** What [clear_case_documents] does on a manifest that it can read and
    write. *)
Lemma clear_case_documents_run (env : Env) (case_id : string) (m : Machine)
    (manifest : Manifest) :
  initialized (self m) = true ->
  files m clear_manifest_path = Parsed manifest ->
  writable env clear_manifest_path = true ->
  clear_case_documents env case_id m
  = (Return (List.length (keys_to_remove case_id manifest)),
     {| self := self m;
        files := fun q =>
          if PathLib.eqb q clear_manifest_path
          then Parsed (remove_keys (keys_to_remove case_id manifest) manifest)
          else files m q;
        calls := calls m;
        stdout := ((stdout m
                    ++ [ClearedLine (List.length (keys_to_remove case_id manifest))
                          case_id])
                   ++ [ClearNoteLine])%list |}).
Proof.
  intros Hinit Hfile Hw. unfold clear_case_documents.
  rewrite (@bind_Return_run _ _ _ _ _ _ _ (check_initialized_ok _ _ Hinit)).
  unfold bind at 1. cbn [read_file]. rewrite Hfile, Hw. reflexivity.
Qed.

Lemma keys_to_remove_filtered (case_id : string) (manifest : Manifest) :
  keys_to_remove case_id
    (filter (fun item => negb (matches_case case_id item)) manifest) = [].
Proof.
  unfold keys_to_remove, matches_case, PyDict.keys.
  induction manifest as [|[k v] manifest IH]; [reflexivity|].
  cbn [filter fst]. destruct (PyStr.startswith k (case_id ++ "_")) eqn:E;
    cbn [negb]; [exact IH|].
  cbn [map filter fst]. rewrite E. exact IH.
Qed.

(** X6: clearing a case is idempotent: after a first call on a manifest that
    can be read and written, a second call for the same case removes
    nothing, returns 0 and leaves every file and the engine as the first
    call left them. *)
Theorem clear_case_documents_twice (env : Env) (case_id : string) (m : Machine)
    (manifest : Manifest) :
  initialized (self m) = true ->
  files m clear_manifest_path = Parsed manifest ->
  NoDup (PyDict.keys manifest) ->
  writable env clear_manifest_path = true ->
  exists m1 m2,
    clear_case_documents env case_id m
      = (Return (List.length (keys_to_remove case_id manifest)), m1) /\
    clear_case_documents env case_id m1 = (Return 0%nat, m2) /\
    self m2 = self m1 /\
    (forall p, files m2 p = files m1 p).
Proof.
  intros Hinit Hfile Hnd Hw.
  pose proof (clear_case_documents_run env case_id m Hinit Hfile Hw) as H1.
  match type of H1 with _ = (_, ?M) => set (m1 := M) in * end.
  assert (Hinit1 : initialized (self m1) = true) by exact Hinit.
  assert (Hfile1 : files m1 clear_manifest_path
                   = Parsed (filter (fun item => negb (matches_case case_id item))
                               manifest)).
  { subst m1. cbn [files]. rewrite PathLibFacts.eqb_refl.
    now rewrite (@remove_keys_filter case_id manifest Hnd). }
  pose proof (@clear_case_documents_run env case_id m1 _ Hinit1 Hfile1 Hw) as H2.
  rewrite keys_to_remove_filtered in H2. cbn [List.length] in H2.
  eexists m1, _. split; [exact H1|]. split; [exact H2|].
  cbn [self files]. split; [reflexivity|].
  intros p. destruct (PathLib.eqb p clear_manifest_path) eqn:E; [|reflexivity].
  apply PathLibFacts.eqb_eq in E. subst p. rewrite Hfile1. reflexivity.
Qed.

Lemma clear_case_documents_twice_witness :
  exists m1 m2,
    clear_case_documents Sample.env "case_1"
      (Sample.machine [] (Sample.manifest_at clear_manifest_path
                            Sample.colliding_manifest))
      = (Return 2%nat, m1) /\
    clear_case_documents Sample.env "case_1" m1 = (Return 0%nat, m2).
Proof.
  destruct (@clear_case_documents_twice Sample.env "case_1"
              (Sample.machine [] (Sample.manifest_at clear_manifest_path
                                    Sample.colliding_manifest))
              Sample.colliding_manifest eq_refl eq_refl)
    as (m1 & m2 & H1 & H2 & _).
  - repeat constructor; simpl; intuition discriminate.
  - reflexivity.
  - exists m1, m2. split; [exact H1|exact H2].
Defined.

(* ================================================================= *)
(** ** What a search and a query can return *)

Lemma mapM_Forall2 {A B : Type} (f : A -> M B) (l : list A) :
  forall (m m' : Machine) (ys : list B),
  mapM f l m = (Return ys, m') ->
  Forall2 (fun x y => exists m1 m2, f x m1 = (Return y, m2)) l ys.
Proof.
  induction l as [|x l IH]; intros m m' ys H; cbn [mapM] in H.
  - injection H as <- _. constructor.
  - apply bind_Return in H as (y & m1 & Hy & H).
    apply bind_Return in H as (ys' & m2 & Hl & H).
    injection H as <- _. constructor; [now exists m, m1|]. eapply IH, Hl.
Qed.

(** The rows that the store returns are rows of eligible fragments of the
    collection, at most [n_results] of them. *)
Lemma collection_query_Return (env : Env) (query_embedding : Embedding)
    (n_results : nat) (eligible : Node -> bool) (m m' : Machine)
    (hits : list Hit) :
  collection_query env query_embedding n_results eligible m = (Return hits, m') ->
  self m' = self m /\
  (List.length hits <= n_results)%nat /\
  forall h, In h hits ->
    exists n, In n (chroma_collection (self m)) /\ eligible n = true /\
              h = hit_of env query_embedding n.
Proof.
  unfold collection_query, bind, get_self, external, log_call, bind. cbn.
  destruct (query_failure env query_embedding n_results); [discriminate|].
  intros H. injection H as <- <-. cbn.
  split; [reflexivity|]. split; [rewrite length_firstn; lia|].
  intros h Hh. apply PyListFacts.firstn_In in Hh.
  apply (Permutation_in _ (PyListFacts.sorted_perm hit_distance false _)) in Hh.
  apply in_map_iff in Hh as (n & <- & Hn).
  apply filter_In in Hn as [Hn He]. now exists n.
Qed.

Lemma embed_Return (env : Env) (text : string) (m m' : Machine) (e : Embedding) :
  embed env text m = (Return e, m') -> self m' = self m.
Proof.
  unfold embed, external, bind, log_call. cbn. intros H. now injection H as _ <-.
Qed.

(** X7: the citations of [query] are built from fragments of the
    collection: there are at most [TOP_K_RETRIEVAL] of them, as many as the
    metadata of the answer counts; each gives the [file_name] of a stored
    fragment (or "unknown") and the snippet of its text; and when the query
    names a case, each comes from a fragment whose [case_id] is that case. *)
Theorem query_cites_stored_fragments (env : Env) (query_text : string)
    (case_id : option string) (m m' : Machine) (r : QueryResult) :
  query env query_text case_id m = (Return r, m') ->
  (List.length (sources r) <= TOP_K_RETRIEVAL env)%nat /\
  total_chunks_retrieved (metadata r) = List.length (sources r) /\
  Forall (fun src =>
            exists n,
              In n (chroma_collection (self m)) /\
              source_doc_id src
              = or_default (PyDict.get "file_name" (node_metadata n)) "unknown" /\
              source_snippet src = snippet_of (node_text n) /\
              (forall c, case_id = Some c -> c <> "" ->
                         PyDict.get "case_id" (node_metadata n) = Some c))
         (sources r).
Proof.
  unfold query. intros H.
  apply bind_Return in H as (u & m0 & Hinit & H).
  apply check_initialized_Return in Hinit as [_ ->].
  apply bind_Return in H as ([response nodes] & m1 & Hq & H).
  unfold ret in H. injection H as <- _. cbn [sources metadata total_chunks_retrieved snd fst].
  unfold query_engine_query in Hq.
  apply bind_Return in Hq as (qe & m2 & Hemb & Hq).
  apply embed_Return in Hemb.
  apply bind_Return in Hq as (hits & m3 & Hhits & Hq).
  apply collection_query_Return in Hhits as (_ & Hlen & Hin).
  apply bind_Return in Hq as (answer0 & m4 & _ & Hq).
  unfold ret in Hq. injection Hq as _ <- _.
  rewrite !length_map. split; [exact Hlen|]. split; [reflexivity|].
  apply Forall_forall. intros src Hsrc.
  apply in_map_iff in Hsrc as (node & <- & Hnode).
  apply in_map_iff in Hnode as (h & <- & Hh).
  destruct (Hin h Hh) as (n & Hn & He & ->).
  exists n. rewrite Hemb in Hn. split; [exact Hn|].
  split; [reflexivity|]. split; [reflexivity|].
  intros c -> Hc. destruct c as [|a c]; [contradiction|].
  cbn [PyStr.truthy] in He. unfold case_id_filter in He.
  destruct (PyDict.get "case_id" (node_metadata n)) as [c'|]; [|discriminate].
  apply String.eqb_eq in He. now subst.
Qed.

Lemma query_cites_stored_fragments_witness :
  exists r m',
    query Sample.env "competency" (Some "case_001")
      (Sample.machine Setup.stored_nodes Sample.no_files) = (Return r, m') /\
    (List.length (sources r) <= 5)%nat.
Proof.
  eexists. eexists. split.
  - vm_compute. reflexivity.
  - refine (proj1 (@query_cites_stored_fragments Sample.env "competency"
                     (Some "case_001")
                     (Sample.machine Setup.stored_nodes Sample.no_files) _ _ _)).
    vm_compute. reflexivity.
Defined.

(** The fields of the result that [case_result] builds for a retained
    case. *)
Lemma case_result_fields (env : Env) (case_texts : PyDict.t string)
    (item : string * float) (m m' : Machine) (r : CaseSearchResult) :
  case_result env case_texts item m = (Return r, m') ->
  result_case_id r = fst item /\
  (List.length (result_key_findings r) <= 5)%nat /\
  (0 <= result_document_count r)%Z.
Proof.
  destruct item as [c s]. unfold case_result. intros H.
  apply bind_Return in H as ([[[title summary] key_findings] doc_count] & m1 & Hl & H).
  cbv beta iota zeta in H.
  destruct (as_str title) as [t|]; [|discriminate H].
  destruct (as_str summary) as [sm|]; [|discriminate H].
  destruct (first_findings key_findings) as [kf|] eqn:Ek; [|discriminate H].
  unfold ret in H. injection H as <- _.
  cbn [result_case_id result_key_findings result_document_count fst].
  split; [reflexivity|]. split.
  - destruct key_findings as [| | | | |items|]; try discriminate Ek.
    cbn [first_findings] in Ek.
    assert (Hlen : forall l l', all_str l = Some l' ->
                                List.length l' = List.length l).
    { induction l as [|v l IH]; intros l' Hl'; cbn [all_str] in Hl'.
      - now injection Hl' as <-.
      - destruct (as_str v); [|discriminate].
        destruct (all_str l) as [l0|]; [|discriminate].
        injection Hl' as <-. cbn. f_equal. now apply IH. }
    rewrite (Hlen _ _ Ek). apply firstn_le_length.
  - assert (Hd : (0 <= doc_count)%Z).
    { destruct (read_metadata env c) as [| |md].
      - unfold ret in Hl. injection Hl as _ _ _ <- _. lia.
      - unfold bind, print, ret in Hl. cbn in Hl. injection Hl as _ _ _ <- _. lia.
      - destruct (py_len (or_default (meta_documents md) (PyArray [])));
          unfold bind, print, ret in Hl; cbn in Hl;
          injection Hl as _ _ _ <- _; lia. }
    destruct (glob_count env c) as [n|]; [|exact Hd].
    destruct (doc_count =? 0)%Z; lia.
Qed.

(** X8: what the handler of [/search-cases] can return: at most 5 results,
    each with at most 5 key findings and a document count that is not
    negative, and each for a case identifier that is not empty and is the
    [case_id] of a fragment in the collection. *)
Theorem search_cases_handler_results (env : Env) (request : CaseSearchRequest)
    (s s' : Server) (results : list CaseSearchResult) :
  search_cases_handler env request s = (Return results, s') ->
  exists e,
    rag_engine s = Some e /\
    (List.length results <= 5)%nat /\
    Forall (fun r =>
              (List.length (result_key_findings r) <= 5)%nat /\
              (0 <= result_document_count r)%Z /\
              result_case_id r <> "" /\
              exists n, In n (chroma_collection e) /\
                        PyDict.get "case_id" (node_metadata n)
                        = Some (result_case_id r))
           results.
Proof.
  unfold search_cases_handler. intros H.
  destruct (rag_engine s) as [e|]; [|discriminate].
  exists e. split; [reflexivity|].
  destruct (negb (PyStr.truthy (request_description request))
            || negb (PyStr.truthy (PyStr.strip (request_description request))));
    [discriminate|].
  unfold call_engine in H.
  destruct (search_cases env (request_description request) 5 (machine_of e s))
    as [[results0|ex] m'] eqn:Hs; [|discriminate].
  injection H as <- _.
  unfold search_cases in Hs.
  apply bind_Return in Hs as (u & m0 & Hinit & Hs).
  apply check_initialized_Return in Hinit as [_ ->].
  apply bind_Return in Hs as (emb & m1 & Hemb & Hs).
  apply embed_Return in Hemb.
  apply bind_Return in Hs as (e1 & m1' & He1 & Hs).
  injection He1 as <- <-.
  apply bind_Return in Hs as (pool & m2 & Hpool & Hs).
  apply collection_query_Return in Hpool as (_ & _ & Hin).
  unfold rank_pool in Hs.
  assert (Hsound : forall c, In c (PyDict.keys (fst (deduplicate pool))) ->
                     exists h, In h pool /\ case_of h = Some c).
  { intros c Hc. apply first_seen_In.
    now rewrite <- (proj1 (deduplicate_keys pool)). }
  destruct (deduplicate pool) as [scores texts]. cbn [fst] in Hsound.
  pose proof (mapM_length _ _ _ Hs) as Hlen.
  apply mapM_Forall2 in Hs.
  split.
  - rewrite Hlen. unfold sorted_cases.
    apply (PyListFacts.slice_to_length (k := 5)). lia.
  - assert (Hitems : Forall (fun item => In item scores) (sorted_cases scores 5)).
    { apply Forall_forall. intros item. apply sorted_cases_In. }
    eapply Forall2_Forall_r; [|exact Hs|exact Hitems]. cbn.
    intros item r Hitem (ma & mb & Hr).
    apply case_result_fields in Hr as (Hid & Hk & Hd).
    split; [exact Hk|]. split; [exact Hd|].
    assert (Hkey : In (fst item) (PyDict.keys scores))
      by (unfold PyDict.keys; now apply in_map).
    destruct (Hsound _ Hkey) as (h & Hh & Hcase).
    destruct (Hin h Hh) as (n & Hn & _ & ->).
    unfold case_of in Hcase. cbn [hit_of hit_metadata] in Hcase.
    destruct (PyDict.get "case_id" (node_metadata n)) as [c|] eqn:Hc;
      [|discriminate].
    destruct c as [|a c]; [discriminate|]. cbn in Hcase.
    injection Hcase as Hcase. rewrite Hid, <- Hcase.
    split; [discriminate|]. exists n. rewrite Hemb in Hn.
    split; [exact Hn|exact Hc].
Qed.

Lemma search_cases_handler_results_witness :
  exists results s',
    search_cases_handler Sample.env
      {| request_description := "competency to stand trial" |}
      (Sample.server Setup.stored_nodes) = (Return results, s') /\
    (List.length results <= 5)%nat.
Proof.
  eexists. eexists. split.
  - vm_compute. reflexivity.
  - assert (H := @search_cases_handler_results Sample.env
                   {| request_description := "competency to stand trial" |}
                   (Sample.server Setup.stored_nodes)).
    edestruct H as (e & _ & Hlen & _); [vm_compute; reflexivity|exact Hlen].
Defined.
(* ================================================================= *)
(** ** The process *)

Lemma wbind_Return {A B : Type} (c : W A) (k : A -> W B) (w w' : World) (b : B) :
  wbind c k w = (Return b, w') ->
  exists a w1, c w = (Return a, w1) /\ k a w1 = (Return b, w').
Proof.
  unfold wbind. destruct (c w) as [[a|e] w1]; intros H.
  - now exists a, w1.
  - discriminate.
Qed.

Lemma wbind_run {A B : Type} (c : W A) (k : A -> W B) (w w1 : World) (a : A) :
  c w = (Return a, w1) -> wbind c k w = k a w1.
Proof. unfold wbind. now intros ->. Qed.

Lemma wbind_raise {A B : Type} (c : W A) (k : A -> W B) (w w1 : World) (e : Exn) :
  c w = (Raise e, w1) -> wbind c k w = (Raise e, w1).
Proof. unfold wbind. now intros ->. Qed.

Lemma invoke_run {A : Type} (method : string) (c : M A) (w : World)
    (e : RAGEngine) :
  world_engine w = Some e ->
  invoke method c w
  = (fst (c (machine_in e w)), world_after w (snd (c (machine_in e w)))).
Proof. unfold invoke. now intros ->. Qed.

(* ================================================================= *)
(** ** The list of cases *)

Lemma get_cases_loop_spec (env : Env) (host : Host) (names : list string) :
  forall cases,
  get_cases_loop env host names cases
  = (cases ++ map (case_of_directory env)
                  (filter (fun n => path_is_dir host (joinpath DATA_DIR n)) names))%list.
Proof.
  induction names as [|n names IH]; intros cases; cbn [get_cases_loop filter].
  - now rewrite app_nil_r.
  - destruct (path_is_dir host (joinpath DATA_DIR n)); cbn [negb map].
    + rewrite IH, <- app_assoc. reflexivity.
    + apply IH.
Qed.

(** X9: [get_cases] lists the sub-directories of [DATA_DIR]: one case for
    each entry that is a directory, in the order of the listing, built from
    that directory alone; the other entries are passed over.  A directory
    without a readable [metadata.json] is listed under its own name, with
    the date "Unknown". *)
Theorem get_cases_lists_directories (env : Env) (host : Host)
    (names : list string) :
  path_exists host DATA_DIR = true ->
  path_iterdir host DATA_DIR = Return names ->
  get_cases env host
  = Return (map (case_of_directory env)
                (filter (fun n => path_is_dir host (joinpath DATA_DIR n)) names)) /\
  forall n, (forall md, read_metadata env n <> GoodMetadata md) ->
    case_case_id (case_of_directory env n) = n /\
    case_title (case_of_directory env n) = n /\
    case_date (case_of_directory env n) = "Unknown".
Proof.
  intros He Hl. split.
  - unfold get_cases. rewrite He, Hl. cbn [negb].
    now rewrite get_cases_loop_spec.
  - intros n Hn. unfold case_of_directory.
    destruct (read_metadata env n) as [| |md]; cbn; auto.
    now destruct (Hn md).
Qed.

Lemma get_cases_lists_directories_witness :
  get_cases Sample.env Setup.host
  = Return [{| case_case_id := "case_001"; case_title := "case_001";
               case_date := "Unknown"; case_document_count := 0 |}].
Proof.
  exact (proj1 (@get_cases_lists_directories Sample.env Setup.host
                  ["README.md"; "case_001"] eq_refl eq_refl)).
Defined.

(** X10: the two document counts of a case directory that has no
    [metadata.json] and holds [n >= 1] entries with a dot in their name
    differ: [get_cases] (the list of [/cases]) reports [n], [search_cases]
    (the results of [/search-cases]) reports [n - 1]. *)
Theorem document_counts_differ (env : Env)
    (case_texts : PyDict.t string) (name : string) (score : float)
    (m : Machine) (n : Z) :
  read_metadata env name = NoMetadata ->
  glob_count env name = Some n ->
  (1 <= n)%Z ->
  case_document_count (case_of_directory env name) = n /\
  exists r m',
    case_result env case_texts (name, score) m = (Return r, m') /\
    result_case_id r = name /\
    result_document_count r = (n - 1)%Z.
Proof.
  intros Hmd Hglob Hn. split.
  - unfold case_of_directory, glob_all. now rewrite Hmd, Hglob.
  - unfold case_result. rewrite Hmd, Hglob. cbn.
    eexists. eexists. split; [reflexivity|]. cbn. split; [reflexivity|lia].
Qed.

Lemma document_counts_differ_witness :
  case_document_count (case_of_directory Setup.plain_env "case_001")
    = 3%Z /\
  exists r m',
    case_result Setup.plain_env [] ("case_001", 1%float)
      (Sample.machine [] Sample.no_files) = (Return r, m') /\
    result_document_count r = 2%Z.
Proof.
  destruct (@document_counts_differ Setup.plain_env []
              "case_001" 1%float (Sample.machine [] Sample.no_files) 3
              eq_refl eq_refl) as [H1 (r & m' & H2 & _ & H3)].
  - lia.
  - split; [exact H1|]. exists r, m'. split; [exact H2|exact H3].
Defined.
(* ================================================================= *)
(** ** Clearing the store *)

Lemma world_after_same (w : World) (e : RAGEngine) :
  world_engine w = Some e -> world_after w (machine_in e w) = w.
Proof.
  intros He. unfold world_after, machine_in. cbn [self files calls stdout map].
  rewrite (app_nil_r (console w)).
  destruct w; cbn in *. now subst.
Qed.

Lemma invoke_check_initialized (method msg : string) (w : World) (e : RAGEngine) :
  world_engine w = Some e -> initialized e = true ->
  invoke method (check_initialized msg) w = (Return tt, w).
Proof.
  intros He Hinit. rewrite (@invoke_run _ _ _ _ _ He).
  rewrite check_initialized_ok by exact Hinit. cbn [fst snd].
  now rewrite world_after_same.
Qed.

Lemma invoke_check_not_initialized (method msg : string) (w : World)
    (e : RAGEngine) :
  world_engine w = Some e -> initialized e = false ->
  invoke method (check_initialized msg) w = (Raise (RuntimeError msg), w).
Proof.
  intros He Hinit. rewrite (@invoke_run _ _ _ _ _ He).
  rewrite check_initialized_not by exact Hinit. cbn [fst snd].
  now rewrite world_after_same.
Qed.

Lemma invoke_set_collection (method : string) (nodes : list Node) (w : World)
    (e : RAGEngine) :
  world_engine w = Some e ->
  invoke method (set_collection nodes) w
  = (Return tt,
     {| world_engine := Some {| initialized := initialized e;
                                chroma_collection := nodes |};
        world_files := world_files w; world_calls := world_calls w;
        console := console w |}).
Proof.
  intros He. rewrite (@invoke_run _ _ _ _ _ He).
  unfold set_collection, world_after, machine_in. cbn. now rewrite app_nil_r.
Qed.

Lemma invoke_read_file (method : string) (p : Path) (w : World) (e : RAGEngine) :
  world_engine w = Some e ->
  invoke method (read_file p) w = (Return (world_files w p), w).
Proof.
  intros He. rewrite (@invoke_run _ _ _ _ _ He). cbn [read_file fst snd machine_in files].
  now rewrite world_after_same.
Qed.

Lemma invoke_write_file (method : string) (p : Path) (content : ManifestFile)
    (w : World) (e : RAGEngine) :
  world_engine w = Some e ->
  invoke method (write_file p content) w
  = (Return tt,
     {| world_engine := Some e;
        world_files := fun q => if PathLib.eqb q p then content else world_files w q;
        world_calls := world_calls w; console := console w |}).
Proof.
  intros He. rewrite (@invoke_run _ _ _ _ _ He).
  unfold write_file, world_after, machine_in. cbn. now rewrite app_nil_r.
Qed.

(** The run of [clear_all_documents] on an initialised engine, by what the
    deletion of the collection, its re-creation and the removal of the
    manifest do. *)
Lemma clear_all_documents_run (host : Host) (w : World) (e : RAGEngine) :
  world_engine w = Some e ->
  initialized e = true ->
  clear_all_documents host w
  = match delete_collection host with
    | Raise ex =>
        (Return false,
         {| world_engine := Some e; world_files := world_files w;
            world_calls := world_calls w;
            console := (console w ++ [ClearAllErrorLine (str_exn ex)])%list |})
    | Return _ =>
        match recreate_collection host with
        | Raise ex =>
            (Return false,
             {| world_engine := Some emptied;
                world_files := world_files w; world_calls := world_calls w;
                console := (console w ++ [ClearAllErrorLine (str_exn ex)])%list |})
        | Return _ =>
            match world_files w clear_manifest_path,
                  path_unlink host clear_manifest_path with
            | Absent, _ =>
                (Return true,
                 {| world_engine := Some emptied;
                    world_files := world_files w; world_calls := world_calls w;
                    console := (console w ++ [ClearedAllLine])%list |})
            | _, Return _ =>
                (Return true,
                 {| world_engine := Some emptied;
                    world_files := fun q =>
                      if PathLib.eqb q clear_manifest_path then Absent
                      else world_files w q;
                    world_calls := world_calls w;
                    console := (console w ++ [ClearedAllLine])%list |})
            | _, Raise ex =>
                (Return false,
                 {| world_engine := Some emptied;
                    world_files := world_files w; world_calls := world_calls w;
                    console :=
                      (console w ++ [ClearAllErrorLine (str_exn ex)])%list |})
            end
        end
    end.
Proof.
  intros He Hinit. unfold clear_all_documents.
  rewrite (@wbind_run _ _ _ _ _ _ _ (@invoke_check_initialized _ _ _ _ He Hinit)).
  unfold wtry.
  destruct (delete_collection host) as [[]|ex].
  2: { rewrite (@wbind_raise _ _ (of_outcome (Raise ex)) _ w w ex eq_refl).
       unfold wbind, emit, wret. cbn. now rewrite He. }
  rewrite (@wbind_run _ _ (of_outcome (Return tt)) _ w w tt eq_refl).
  rewrite (@wbind_run _ _ _ _ _ _ _ (@invoke_set_collection _ [] _ _ He)). rewrite Hinit.
  set (w1 := {| world_engine := Some {| initialized := true;
                                        chroma_collection := [] |};
                world_files := world_files w; world_calls := world_calls w;
                console := console w |}).
  assert (He1 : world_engine w1 = Some {| initialized := true;
                                          chroma_collection := [] |})
    by reflexivity.
  destruct (recreate_collection host) as [[]|ex].
  2: { rewrite (@wbind_raise _ _ (of_outcome (Raise ex)) _ w1 w1 ex eq_refl).
       unfold wbind, emit, wret. reflexivity. }
  rewrite (@wbind_run _ _ (of_outcome (Return tt)) _ w1 w1 tt eq_refl).
  rewrite (@wbind_run _ _ _ _ _ _ _ (@invoke_read_file _ clear_manifest_path _ _ He1)).
  change (world_files w1 clear_manifest_path)
    with (world_files w clear_manifest_path).
  destruct (world_files w clear_manifest_path) eqn:Hf.
  - unfold wbind, emit, wret. reflexivity.
  - destruct (path_unlink host clear_manifest_path) as [[]|ex].
    + unfold wbind, of_outcome, emit, wret.
      rewrite (@invoke_write_file _ clear_manifest_path Absent _ _ He1).
      reflexivity.
    + unfold wbind, of_outcome, emit, wret. reflexivity.
  - destruct (path_unlink host clear_manifest_path) as [[]|ex].
    + unfold wbind, of_outcome, emit, wret.
      rewrite (@invoke_write_file _ clear_manifest_path Absent _ _ He1).
      reflexivity.
    + unfold wbind, of_outcome, emit, wret. reflexivity.
Qed.

(** X11: on an initialised engine, when the deletion of the collection and
    its re-creation (lines 401-418) go through and the manifest of
    [DATA_DIR] is absent or can be removed, [clear_all_documents] returns
    [True] and leaves an empty collection and no manifest in [DATA_DIR]; no
    other file is touched, no provider is called, and one line is
    printed. *)
Theorem clear_all_documents_clears (host : Host) (w : World) (e : RAGEngine) :
  world_engine w = Some e ->
  initialized e = true ->
  delete_collection host = Return tt ->
  recreate_collection host = Return tt ->
  world_files w clear_manifest_path = Absent \/
  path_unlink host clear_manifest_path = Return tt ->
  exists w',
    clear_all_documents host w = (Return true, w') /\
    world_engine w' = Some emptied /\
    world_files w' clear_manifest_path = Absent /\
    (forall p, p <> clear_manifest_path -> world_files w' p = world_files w p) /\
    world_calls w' = world_calls w /\
    console w' = (console w ++ [ClearedAllLine])%list.
Proof.
  intros He Hinit Hdel Hnew Hfile.
  rewrite (@clear_all_documents_run host _ _ He Hinit), Hdel, Hnew.
  destruct (world_files w clear_manifest_path) eqn:Hf.
  - eexists. split; [reflexivity|].
    cbn [world_engine world_files world_calls console]. repeat split; auto.
  - destruct Hfile as [Hfile|Hfile]; [discriminate|]. rewrite Hfile.
    eexists. split; [reflexivity|].
    cbn [world_engine world_files world_calls console].
    rewrite PathLibFacts.eqb_refl.
    repeat split; auto. intros p Hp.
    destruct (PathLib.eqb p clear_manifest_path) eqn:E; [|reflexivity].
    apply PathLibFacts.eqb_eq in E. contradiction.
  - destruct Hfile as [Hfile|Hfile]; [discriminate|]. rewrite Hfile.
    eexists. split; [reflexivity|].
    cbn [world_engine world_files world_calls console].
    rewrite PathLibFacts.eqb_refl.
    repeat split; auto. intros p Hp.
    destruct (PathLib.eqb p clear_manifest_path) eqn:E; [|reflexivity].
    apply PathLibFacts.eqb_eq in E. contradiction.
Qed.

Lemma clear_all_documents_clears_witness :
  exists w',
    clear_all_documents Setup.host
      (Setup.world Setup.stored_nodes
         (Sample.manifest_at clear_manifest_path Setup.full_manifest))
    = (Return true, w') /\
    world_engine w' = Some emptied /\
    world_files w' clear_manifest_path = Absent.
Proof.
  destruct (@clear_all_documents_clears Setup.host
              (Setup.world Setup.stored_nodes
                 (Sample.manifest_at clear_manifest_path Setup.full_manifest))
              _ eq_refl eq_refl eq_refl eq_refl (or_intror eq_refl))
    as (w' & H1 & H2 & H3 & _).
  exists w'. repeat split; assumption.
Defined.

(** X12: on an initialised engine [clear_all_documents] never raises: it
    returns a truth value and calls no provider.  [True] means that the
    collection was deleted and made anew and that no manifest is left in
    [DATA_DIR].  [False] leaves every file as it was and means one of three
    things: the deletion of the collection failed, and then the engine is as
    before; the collection was deleted and making it anew failed; or the
    removal of the manifest failed, after the collection was deleted and
    made anew.  In each case the error is printed. *)
Theorem clear_all_documents_reports (host : Host) (w : World) (e : RAGEngine) :
  world_engine w = Some e ->
  initialized e = true ->
  exists b w',
    clear_all_documents host w = (Return b, w') /\
    world_calls w' = world_calls w /\
    (b = true ->
     delete_collection host = Return tt /\
     recreate_collection host = Return tt /\
     world_engine w' = Some emptied /\
     world_files w' clear_manifest_path = Absent) /\
    (b = false ->
     world_files w' = world_files w /\
     exists ex,
       console w' = (console w ++ [ClearAllErrorLine (str_exn ex)])%list /\
       ((delete_collection host = Raise ex /\ world_engine w' = Some e) \/
        (delete_collection host = Return tt /\
         recreate_collection host = Raise ex) \/
        (delete_collection host = Return tt /\
         recreate_collection host = Return tt /\
         path_unlink host clear_manifest_path = Raise ex /\
         world_files w clear_manifest_path <> Absent /\
         world_engine w' = Some emptied))).
Proof.
  intros He Hinit. rewrite (@clear_all_documents_run host _ _ He Hinit).
  destruct (delete_collection host) as [[]|ex].
  - destruct (recreate_collection host) as [[]|ex].
    + destruct (world_files w clear_manifest_path) eqn:Hf.
      * eexists. eexists. split; [reflexivity|]. split; [reflexivity|].
        split; [|discriminate]. intros _. repeat split; exact Hf.
      * destruct (path_unlink host clear_manifest_path) as [[]|ex].
        -- eexists. eexists. split; [reflexivity|]. split; [reflexivity|].
           split; [|discriminate]. intros _. repeat split.
           all: cbn [world_files]; now rewrite PathLibFacts.eqb_refl.
        -- eexists. eexists. split; [reflexivity|]. split; [reflexivity|].
           split; [discriminate|].
           intros _. split; [reflexivity|]. exists ex. split; [reflexivity|].
           right. right. repeat split. discriminate.
      * destruct (path_unlink host clear_manifest_path) as [[]|ex].
        -- eexists. eexists. split; [reflexivity|]. split; [reflexivity|].
           split; [|discriminate]. intros _. repeat split.
           all: cbn [world_files]; now rewrite PathLibFacts.eqb_refl.
        -- eexists. eexists. split; [reflexivity|]. split; [reflexivity|].
           split; [discriminate|].
           intros _. split; [reflexivity|]. exists ex. split; [reflexivity|].
           right. right. repeat split. discriminate.
    + eexists. eexists. split; [reflexivity|]. split; [reflexivity|].
      split; [discriminate|].
      intros _. split; [reflexivity|]. exists ex. split; [reflexivity|].
      right. left. split; reflexivity.
  - eexists. eexists. split; [reflexivity|]. split; [reflexivity|].
    split; [discriminate|].
    intros _. split; [reflexivity|]. exists ex. split; [reflexivity|].
    left. split; reflexivity.
Qed.

Lemma clear_all_documents_reports_witness :
  exists w',
    clear_all_documents Setup.stuck_host
      (Setup.world Setup.stored_nodes Sample.no_files)
    = (Return false, w') /\
    console w' = [ClearAllErrorLine "Collection forensic_cases already exists"].
Proof.
  destruct (@clear_all_documents_reports Setup.stuck_host
              (Setup.world Setup.stored_nodes Sample.no_files) _ eq_refl eq_refl)
    as (b & w' & H & _ & _ & Hfalse).
  vm_compute in H. injection H as <- <-.
  eexists. split; [reflexivity|].
  destruct (Hfalse eq_refl) as (_ & ex & Hconsole & _). reflexivity.
Defined.

(** A run over a directory whose documents the manifest lists all, without
    forcing: everything is skipped and the engine is left as it was. *)
Lemma ingest_documents_skip_all (env : Env) (case_dir : Path) (case_id : string)
    (metadata : option Metadata) (m : Machine) (documents : list Document)
    (manifest : Manifest) :
  initialized (self m) = true ->
  files m (ingest_manifest_path case_dir) = Parsed manifest ->
  load_data env case_dir = Return documents ->
  (forall doc, In doc documents ->
               PyDict.mem (key_of case_id doc) manifest = true) ->
  exists m',
    ingest_documents env case_dir case_id metadata false m
    = (Return {| ingested := 0; skipped := List.length documents |}, m') /\
    self m' = self m.
Proof.
  intros Hinit Hfile Hdocs Hkeys.
  destruct (@ingest_loop_skip_all env case_dir case_id metadata documents
              manifest 0 0 m Hkeys) as (m1 & Hloop & Hs & _ & _).
  unfold ingest_documents.
  rewrite (@bind_Return_run _ _ _ _ _ _ _ (check_initialized_ok _ _ Hinit)).
  unfold bind at 1. cbn [read_file]. rewrite Hfile.
  unfold bind at 1. cbn [ret]. unfold bind at 1. rewrite Hdocs.
  rewrite (@bind_Return_run _ _ _ _ _ _ _ Hloop). cbn [fst snd].
  destruct (writable env (ingest_manifest_path case_dir));
    eexists; (split; [reflexivity|]); cbn; exact Hs.
Qed.

(** X13: clearing the store does not undo the manifest of an ingestion.
    [ingest_documents] keeps its manifest two levels above the case
    directory, [clear_all_documents] removes the one in [DATA_DIR]; so for a
    case directory directly under [DATA_DIR] (its name is one component of
    the path), after a run that returned, clearing the store (which, the
    deletion and the re-creation going through, succeeds and empties the
    collection) is followed by a run that skips every document: it ingests
    nothing and the collection stays empty. *)
Theorem cleared_store_is_not_refilled (env : Env) (host : Host) (name : string)
    (metadata1 metadata2 : option Metadata) (force1 : bool) (w0 w1 : World)
    (e0 : RAGEngine) (r1 : IngestResult) :
  single_component name = true ->
  world_engine w0 = Some e0 ->
  writable env (ingest_manifest_path (joinpath DATA_DIR name)) = true ->
  invoke "ingest_documents"
    (ingest_documents env (joinpath DATA_DIR name) name metadata1 force1) w0
    = (Return r1, w1) ->
  delete_collection host = Return tt ->
  recreate_collection host = Return tt ->
  world_files w1 clear_manifest_path = Absent \/
  path_unlink host clear_manifest_path = Return tt ->
  exists w2 w3,
    clear_all_documents host w1 = (Return true, w2) /\
    world_engine w2 = Some emptied /\
    invoke "ingest_documents"
      (ingest_documents env (joinpath DATA_DIR name) name metadata2 false) w2
    = (Return {| ingested := 0; skipped := ingested r1 + skipped r1 |}, w3) /\
    world_engine w3 = Some emptied.
Proof.
  intros _ He0 Hw H1 Hdel Hnew Hunlink.
  rewrite (@invoke_run _ _ _ _ _ He0) in H1.
  destruct (ingest_documents env (joinpath DATA_DIR name) name metadata1 force1
              (machine_in e0 w0)) as [o m1] eqn:Hrun.
  cbn [fst snd] in H1. injection H1 as -> <-.
  destruct (@ingest_documents_Return env (joinpath DATA_DIR name) name metadata1
              force1 _ _ _ Hw Hrun)
    as (documents & manifest & Hdocs & Hfile & Hkeys & Hcount & Hinit).
  assert (He1 : world_engine (world_after w0 m1) = Some (self m1)) by reflexivity.
  pose proof (@clear_all_documents_run host _ _ He1 Hinit) as Hclear.
  rewrite Hdel, Hnew in Hclear.
  assert (Hne : ingest_manifest_path (joinpath DATA_DIR name) <> clear_manifest_path)
    by (cbn; discriminate).
  assert (Hstep : exists w2,
    clear_all_documents host (world_after w0 m1) = (Return true, w2) /\
    world_engine w2 = Some emptied /\
    world_files w2 (ingest_manifest_path (joinpath DATA_DIR name))
    = Parsed manifest).
  { destruct (world_files (world_after w0 m1) clear_manifest_path) eqn:Hf.
    - eexists. split; [exact Hclear|]. split; [reflexivity|exact Hfile].
    - destruct Hunlink as [Hu|Hu]; [congruence|]. rewrite Hu in Hclear.
      eexists. split; [exact Hclear|]. split; [reflexivity|]. cbn [world_files].
      destruct (PathLib.eqb _ clear_manifest_path) eqn:E; [|exact Hfile].
      apply PathLibFacts.eqb_eq in E. contradiction.
    - destruct Hunlink as [Hu|Hu]; [congruence|]. rewrite Hu in Hclear.
      eexists. split; [exact Hclear|]. split; [reflexivity|]. cbn [world_files].
      destruct (PathLib.eqb _ clear_manifest_path) eqn:E; [|exact Hfile].
      apply PathLibFacts.eqb_eq in E. contradiction. }
  destruct Hstep as (w2 & Hc & He2 & Hfile2).
  destruct (@ingest_documents_skip_all env (joinpath DATA_DIR name) name metadata2
              (machine_in emptied w2) documents manifest eq_refl Hfile2 Hdocs Hkeys)
    as (m3 & Hrun3 & Hself3).
  exists w2, (world_after w2 m3). split; [exact Hc|]. split; [exact He2|].
  rewrite (@invoke_run _ _ _ _ _ He2).
  rewrite Hrun3, Hcount. cbn [fst snd].
  split; [reflexivity|]. cbn. now rewrite Hself3.
Qed.

Lemma cleared_store_is_not_refilled_witness :
  exists w1 w2 w3,
    invoke "ingest_documents"
      (ingest_documents Sample.env (joinpath DATA_DIR "case_001") "case_001"
         None false) (Setup.world [] Sample.no_files)
    = (Return {| ingested := 2; skipped := 0 |}, w1) /\
    clear_all_documents Setup.host w1 = (Return true, w2) /\
    invoke "ingest_documents"
      (ingest_documents Sample.env (joinpath DATA_DIR "case_001") "case_001"
         None false) w2
    = (Return {| ingested := 0; skipped := 2 |}, w3) /\
    world_engine w3 = Some emptied.
Proof.
  assert (H1 : invoke "ingest_documents"
                 (ingest_documents Sample.env (joinpath DATA_DIR "case_001")
                    "case_001" None false) (Setup.world [] Sample.no_files)
               = (Return {| ingested := 2; skipped := 0 |},
                  snd (invoke "ingest_documents"
                         (ingest_documents Sample.env
                            (joinpath DATA_DIR "case_001") "case_001" None false)
                         (Setup.world [] Sample.no_files))))
    by (vm_compute; reflexivity).
  destruct (@cleared_store_is_not_refilled Sample.env Setup.host "case_001"
              None None false (Setup.world [] Sample.no_files) _
              {| initialized := true; chroma_collection := [] |} _
              eq_refl eq_refl eq_refl H1 eq_refl eq_refl (or_intror eq_refl))
    as (w2 & w3 & Hc & _ & Hrun & He3).
  eexists. exists w2, w3. split; [exact H1|]. split; [exact Hc|].
  split; [exact Hrun|exact He3].
Defined.
(* ================================================================= *)
(** ** The handlers of main.py *)

(** When the deletion and the re-creation go through and the manifest of
    [DATA_DIR] is absent or can be removed, clearing succeeds and empties
    the collection. *)
Lemma clear_all_documents_true (host : Host) (w : World) (e : RAGEngine) :
  world_engine w = Some e ->
  initialized e = true ->
  delete_collection host = Return tt ->
  recreate_collection host = Return tt ->
  world_files w clear_manifest_path = Absent \/
  path_unlink host clear_manifest_path = Return tt ->
  exists w',
    clear_all_documents host w = (Return true, w') /\
    world_engine w' = Some emptied.
Proof.
  intros He Hinit Hdel Hnew Hfile.
  pose proof (@clear_all_documents_run host _ _ He Hinit) as Hclear.
  rewrite Hdel, Hnew in Hclear.
  destruct (world_files w clear_manifest_path) eqn:Hf.
  - eexists. split; [exact Hclear|reflexivity].
  - destruct Hfile as [Hu|Hu]; [discriminate|]. rewrite Hu in Hclear.
    eexists. split; [exact Hclear|reflexivity].
  - destruct Hfile as [Hu|Hu]; [discriminate|]. rewrite Hu in Hclear.
    eexists. split; [exact Hclear|reflexivity].
Qed.

(** X14: the handler of [/ingest] clears the store before it looks for the
    case directory: when the clearing goes through, a request with
    [clear_first] for a case whose directory does not exist is answered with
    the 404 error, and the collection has been emptied. *)
Theorem ingest_clears_before_checking (env : Env) (host : Host)
    (request : IngestRequest) (w : World) (e : RAGEngine) :
  world_engine w = Some e ->
  initialized e = true ->
  ingest_clear_first request = true ->
  delete_collection host = Return tt ->
  recreate_collection host = Return tt ->
  world_files w clear_manifest_path = Absent \/
  path_unlink host clear_manifest_path = Return tt ->
  path_exists host (joinpath DATA_DIR (ingest_case_id request)) = false ->
  exists w',
    ingest_documents_handler env host request w
    = (Raise (HTTPException 404
                ("Case directory not found: " ++ ingest_case_id request)), w') /\
    world_engine w' = Some emptied.
Proof.
  intros He Hinit Hclear Hdel Hnew Hfile Hexists.
  destruct (@clear_all_documents_true host w e He Hinit Hdel Hnew Hfile)
    as (w' & Hc & He').
  exists w'. split; [|exact He'].
  unfold ingest_documents_handler.
  unfold wbind at 1. cbn [get_engine]. rewrite He.
  unfold wtry. rewrite Hclear, Hexists. cbn [negb].
  unfold wbind at 1. unfold wbind at 1. rewrite Hc. reflexivity.
Qed.

Lemma ingest_clears_before_checking_witness :
  exists w',
    ingest_documents_handler Sample.env Setup.host
      {| ingest_case_id := "case_404"; ingest_metadata := None;
         ingest_force_reingest := false; ingest_clear_first := true |}
      (Setup.world Setup.stored_nodes Sample.no_files)
    = (Raise (HTTPException 404 "Case directory not found: case_404"), w') /\
    world_engine w' = Some emptied.
Proof.
  exact (@ingest_clears_before_checking Sample.env Setup.host
           {| ingest_case_id := "case_404"; ingest_metadata := None;
              ingest_force_reingest := false; ingest_clear_first := true |}
           (Setup.world Setup.stored_nodes Sample.no_files) _
           eq_refl eq_refl eq_refl eq_refl eq_refl (or_introl eq_refl) eq_refl).
Defined.

(** X15: no handler of main.py lets an exception other than an
    [HTTPException] out: [/query] and [/search-cases] answer with a value or
    the status 503, 400 or 500; [/health] with a value or 503; [/cases] with
    a value, 503 or 500; [/ingest] with a value or an [HTTPException]. *)
Theorem handlers_raise_http_errors_only (env : Env) (host : Host) :
  (forall request s,
     answers [503; 400; 500]%Z (fst (query_documents env request s))) /\
  (forall request s,
     answers [503; 400; 500]%Z (fst (search_cases_handler env request s))) /\
  (forall w, answers [503]%Z (fst (health_check w))) /\
  (forall w, answers [503; 500]%Z (fst (list_cases env host w))) /\
  (forall request w,
     http_only (fst (ingest_documents_handler env host request w))).
Proof.
  split; [|split; [|split; [|split]]].
  - intros request s. unfold query_documents.
    destruct (rag_engine s) as [e|]; [|cbn; auto].
    destruct (_ || _); [cbn; auto|].
    unfold call_engine. destruct (query _ _ _ _) as [[r|ex] m]; cbn; auto.
  - intros request s. unfold search_cases_handler.
    destruct (rag_engine s) as [e|]; [|cbn; auto].
    destruct (_ || _); [cbn; auto|].
    unfold call_engine. destruct (search_cases _ _ _ _) as [[r|ex] m]; cbn; auto.
  - intros w. unfold health_check, wbind, get_engine, invoke.
    destruct (world_engine w) as [e|] eqn:He; cbn; rewrite ?He; cbn; auto.
  - intros w. unfold list_cases, wbind, get_engine, wtry, of_outcome.
    destruct (world_engine w) as [e|]; [|cbn; auto].
    destruct (get_cases env host) as [cases|ex]; cbn; auto.
  - intros request w. unfold ingest_documents_handler.
    unfold wbind at 1. cbn [get_engine].
    destruct (world_engine w) as [e|]; [|exact I].
    unfold wtry.
    match goal with
    | |- context [match ?c w with _ => _ end] => destruct (c w) as [[r|ex] w']
    end; [exact I|].
    destruct ex; exact I.
Qed.
(* ================================================================= *)
(** ** The validation of case directories *)

Section Detached.

Lemma detached_wret {A : Type} (a : A) : detached (wret a).
Proof. split; [intros w; repeat split|intros w1 w2; reflexivity]. Qed.

Lemma detached_wraise {A : Type} (e : Exn) : detached (@wraise A e).
Proof. split; [intros w; repeat split|intros w1 w2; reflexivity]. Qed.

Lemma detached_of_outcome {A : Type} (r : Outcome A) : detached (of_outcome r).
Proof. split; [intros w; repeat split|intros w1 w2; reflexivity]. Qed.

Lemma detached_logger (level : Level) (record : LogRecord) :
  detached (logger level record).
Proof. split; [intros w; repeat split|intros w1 w2; reflexivity]. Qed.

Lemma detached_wbind {A B : Type} (c : W A) (k : A -> W B) :
  detached c -> (forall a, detached (k a)) -> detached (wbind c k).
Proof.
  intros [Hc1 Hc2] Hk. split.
  - intros w. unfold wbind. destruct (Hc1 w) as (E & F & C).
    destruct (c w) as [[a|e] w1]; cbn [snd] in *; [|auto].
    destruct (Hk a) as [Hk1 _]. destruct (Hk1 w1) as (E' & F' & C').
    repeat split; congruence.
  - intros w1 w2. unfold wbind. specialize (Hc2 w1 w2).
    destruct (c w1) as [[a1|e1] w1'], (c w2) as [[a2|e2] w2']; cbn [fst] in Hc2;
      try discriminate; injection Hc2 as <-; [|reflexivity].
    destruct (Hk a1) as [_ Hk2]. apply Hk2.
Qed.

Lemma detached_for_each {A : Type} (f : A -> W unit) (l : list A) :
  (forall x, detached (f x)) -> detached (for_each f l).
Proof.
  intros Hf. induction l as [|x l IH]; cbn [for_each].
  - apply detached_wret.
  - apply detached_wbind; [apply Hf|intros _; exact IH].
Qed.

End Detached.

Ltac detached_step :=
  first [ apply detached_wret | apply detached_wraise | apply detached_logger
        | apply detached_of_outcome
        | apply detached_for_each; intros
        | apply detached_wbind; [|intros] ].

Section Validation.

Variable host : Host.

Lemma detached_validate_type (v : string) : detached (validate_type v).
Proof.
  unfold validate_type. apply detached_wbind; [|intros; apply detached_wret].
  destruct (negb _); detached_step.
Qed.

Lemma detached_run_warnings (s : option (option string)) (types : list string)
    (k : option (list string)) :
  detached (run_warnings s types k).
Proof.
  unfold run_warnings, warn_if_no_summary, warn_if_no_findings.
  apply detached_wbind.
  - destruct s as [v|]; [|detached_step].
    apply detached_wbind; [|intros; detached_step].
    apply detached_wbind; [|intros; detached_step].
    destruct (match v with Some _ => _ | None => _ end); detached_step.
  - intros _. apply detached_wbind.
    + apply detached_for_each. intros v.
      apply detached_wbind; [apply detached_validate_type|intros; detached_step].
    + intros _. destruct k as [v|]; [|detached_step].
      apply detached_wbind; [|intros; detached_step].
      apply detached_wbind; [|intros; detached_step].
      destruct (_ =? _)%nat; detached_step.
Qed.

Lemma detached_validate_case_metadata (metadata_file : Path) :
  detached (validate_case_metadata host metadata_file).
Proof.
  unfold validate_case_metadata.
  destruct (negb _); [detached_step|].
  destruct (load_case_metadata host metadata_file); try detached_step.
  - apply detached_run_warnings.
  - detached_step.
  - apply detached_run_warnings.
  - destruct (validate_case_id _); detached_step.
Qed.

Lemma detached_validate_case_directory (case_dir : Path) (case_id : string) :
  detached (validate_case_directory host case_dir case_id).
Proof.
  unfold validate_case_directory.
  destruct (negb (path_exists host case_dir)); [detached_step|].
  destruct (negb (path_is_dir host case_dir)); [detached_step|].
  destruct (negb (path_exists host _)); [detached_step|].
  apply detached_wbind; [apply detached_validate_case_metadata|].
  intros [[is_valid obj] errs]. destruct (negb is_valid); [detached_step|].
  destruct obj as [md|]; [|detached_step].
  apply detached_wbind.
  - apply detached_for_each. intros doc. destruct (negb _); detached_step.
  - intros _. apply detached_wbind; [detached_step|]. intros names.
    apply detached_wbind; [|intros; detached_step].
    destruct (filter _ _); detached_step.
Qed.

(** The warnings never stop a validation. *)
Lemma run_warnings_returns (s : option (option string)) (types : list string)
    (k : option (list string)) (w : World) :
  exists w', run_warnings s types k w = (Return tt, w').
Proof.
  unfold run_warnings, warn_if_no_summary, warn_if_no_findings, validate_type.
  assert (Hfor : forall w0, exists w1,
             for_each (fun v => wbind (wbind (if negb (PyText.mem v allowed_types)
                                              then logger WARNING (NonStandardType v)
                                              else wret tt)
                                             (fun _ => wret v))
                                      (fun _ => wret tt)) types w0
             = (Return tt, w1)).
  { induction types as [|v types IH]; intros w0; cbn [for_each].
    - now exists w0.
    - unfold wbind at 1 2 3.
      destruct (negb (PyText.mem v allowed_types)); cbn; apply IH. }
  unfold wbind at 1.
  assert (H1 : exists w1,
             match s with
             | Some v =>
                 wbind (wbind (if match v with
                                  | Some s0 => negb (PyStr.truthy s0)
                                               || negb (PyStr.truthy (PyStr.strip s0))
                                  | None => true
                                  end
                               then logger WARNING NoSummary else wret tt)
                              (fun _ => wret v)) (fun _ => wret tt)
             | None => wret tt
             end w = (Return tt, w1)).
  { destruct s as [v|]; [|now exists w].
    unfold wbind. destruct (match v with Some _ => _ | None => _ end);
      eexists; reflexivity. }
  destruct H1 as (w1 & ->).
  unfold wbind at 1. destruct (Hfor w1) as (w2 & ->).
  destruct k as [v|]; [|now exists w2].
  unfold wbind. destruct (_ =? _)%nat; eexists; reflexivity.
Qed.

(** What a metadata file that passes has gone through. *)
Lemma validate_case_metadata_true (metadata_file : Path) (w w' : World)
    (obj : option CaseSchema.CaseMetadata) (errors : list string) :
  validate_case_metadata host metadata_file w = (Return (true, obj, errors), w') ->
  errors = [] /\
  exists fields summary_given key_findings_given,
    obj = Some fields /\
    path_exists host metadata_file = true /\
    load_case_metadata host metadata_file
    = CaseSchema.WellTyped fields summary_given key_findings_given /\
    PyStr.startswith (CaseSchema.case_id fields) "case_" = true.
Proof.
  unfold validate_case_metadata. intros H.
  destruct (path_exists host metadata_file) eqn:E; cbn [negb] in H;
    [|discriminate].
  destruct (load_case_metadata host metadata_file)
    as [msg|msg|errs hs ht hk|fields sg kg] eqn:L; try discriminate.
  - apply wbind_Return in H as (u & w1 & _ & H). discriminate.
  - apply wbind_Return in H as (u & w1 & _ & H).
    unfold validate_case_id in H.
    destruct (PyStr.startswith (CaseSchema.case_id fields) "case_") eqn:P;
      cbn [negb] in H; [|discriminate].
    injection H as <- <- _. split; [reflexivity|].
    exists fields, sg, kg. repeat split. exact P.
Qed.

(** What a case directory that passes has gone through. *)
Lemma validate_case_directory_true (case_dir : Path) (case_id : string)
    (w w' : World) (errors : list string) :
  validate_case_directory host case_dir case_id w = (Return (true, errors), w') ->
  errors = [] /\
  path_exists host case_dir = true /\
  path_is_dir host case_dir = true /\
  exists fields summary_given key_findings_given,
    load_case_metadata host (joinpath case_dir "metadata.json")
    = CaseSchema.WellTyped fields summary_given key_findings_given /\
    CaseSchema.case_id fields = case_id /\
    PyStr.startswith case_id "case_" = true.
Proof.
  unfold validate_case_directory. intros H.
  destruct (path_exists host case_dir) eqn:E1; cbn [negb] in H; [|discriminate].
  destruct (path_is_dir host case_dir) eqn:E2; cbn [negb] in H; [|discriminate].
  destruct (path_exists host (joinpath case_dir "metadata.json")) eqn:E3;
    cbn [negb] in H; [|discriminate].
  apply wbind_Return in H as ([[is_valid obj] merrs] & w1 & Hmeta & H).
  cbv beta iota in H.
  destruct is_valid; cbn [negb] in H; [|discriminate].
  apply validate_case_metadata_true in Hmeta
    as (_ & fields & sg & kg & -> & _ & Hload & Hprefix).
  apply wbind_Return in H as (u & w2 & _ & H).
  apply wbind_Return in H as (names & w3 & _ & H).
  apply wbind_Return in H as (u' & w4 & _ & H).
  unfold wret in H.
  destruct (String.eqb (CaseSchema.case_id fields) case_id) eqn:Eid;
    cbn [negb List.length Nat.eqb] in H; [|discriminate].
  injection H as <- _. apply String.eqb_eq in Eid.
  split; [reflexivity|]. split; [reflexivity|]. split; [reflexivity|].
  exists fields, sg, kg. split; [exact Hload|]. split; [exact Eid|].
  now rewrite <- Eid.
Qed.

Lemma for_each_returns {A : Type} (f : A -> W unit) (l : list A) (w : World) :
  (forall x w0, exists w1, f x w0 = (Return tt, w1)) ->
  exists w', for_each f l w = (Return tt, w').
Proof.
  intros Hf. revert w. induction l as [|x l IH]; intros w; cbn [for_each].
  - now exists w.
  - unfold wbind. destruct (Hf x w) as (w1 & ->). apply IH.
Qed.

End Validation.

(** The verdict on a metadata file depends on the file only. *)
Lemma validate_case_metadata_agree (host1 host2 : Host) (metadata_file : Path)
    (w1 w2 : World) :
  path_exists host1 metadata_file = path_exists host2 metadata_file ->
  load_case_metadata host1 metadata_file = load_case_metadata host2 metadata_file ->
  (forall msg, value_error_msg host1 msg = value_error_msg host2 msg) ->
  fst (validate_case_metadata host1 metadata_file w1)
  = fst (validate_case_metadata host2 metadata_file w2).
Proof.
  intros He Hl Hv. unfold validate_case_metadata. rewrite <- He, <- Hl.
  destruct (negb _); [reflexivity|].
  destruct (load_case_metadata host1 metadata_file)
    as [msg|msg|errs hs ht hk|fields sg kg]; try reflexivity.
  - unfold wbind.
    destruct (run_warnings_returns hs ht hk w1) as (w1' & ->).
    destruct (run_warnings_returns hs ht hk w2) as (w2' & ->). reflexivity.
  - unfold wbind.
    destruct (run_warnings_returns
                (if sg then Some (CaseSchema.summary fields) else None)
                (map CaseSchema.type (CaseSchema.documents fields))
                (if kg then Some (CaseSchema.key_findings fields) else None) w1)
      as (w1' & ->).
    destruct (run_warnings_returns
                (if sg then Some (CaseSchema.summary fields) else None)
                (map CaseSchema.type (CaseSchema.documents fields))
                (if kg then Some (CaseSchema.key_findings fields) else None) w2)
      as (w2' & ->).
    destruct (validate_case_id _); cbn; [reflexivity|]. now rewrite Hv.
Qed.

(** X16: a case directory that [validate_case_directory] declares valid
    comes with no error; it exists and is a directory, its [metadata.json]
    has every field of the schema with its type, the [case_id] of the
    metadata is the expected one, and that identifier starts with "case_".
    The validation has written to the console only. *)
Theorem valid_case_directory (host : Host) (case_dir : Path) (case_id : string)
    (w w' : World) (errors : list string) :
  validate_case_directory host case_dir case_id w = (Return (true, errors), w') ->
  errors = [] /\
  path_is_dir host case_dir = true /\
  (exists fields summary_given key_findings_given,
     load_case_metadata host (joinpath case_dir "metadata.json")
     = CaseSchema.WellTyped fields summary_given key_findings_given /\
     CaseSchema.case_id fields = case_id) /\
  PyStr.startswith case_id "case_" = true /\
  world_engine w' = world_engine w /\
  world_files w' = world_files w /\
  world_calls w' = world_calls w.
Proof.
  intros H.
  destruct (detached_validate_case_directory host case_dir case_id) as [Hframe _].
  specialize (Hframe w). rewrite H in Hframe. cbn [snd] in Hframe.
  apply validate_case_directory_true in H
    as (He & _ & Hdir & fields & sg & kg & Hload & Hid & Hprefix).
  split; [exact He|]. split; [exact Hdir|].
  split; [now exists fields, sg, kg|]. split; [exact Hprefix|exact Hframe].
Qed.

Lemma valid_case_directory_witness :
  exists w',
    validate_case_directory Setup.host Sample.case_dir "case_001" blank_world
    = (Return (true, []), w') /\
    PyStr.startswith "case_001" "case_" = true.
Proof.
  eexists. split.
  - vm_compute. reflexivity.
  - refine (proj1 (proj2 (proj2 (proj2
              (@valid_case_directory Setup.host Sample.case_dir "case_001"
                 blank_world _ [] _))))).
    vm_compute. reflexivity.
Defined.

(** X17: the verdict of [validate_case_directory] does not depend on the
    document files.  Two hosts that agree on the case directory, on its
    [metadata.json] and on the wording of pydantic's errors, and in which the
    directory can be listed, get the same verdict and the same errors,
    whatever documents the directory holds and whatever the state: a
    document that the metadata lists and the directory lacks, or one that
    the directory holds and the metadata does not list, gives a warning
    only. *)
Theorem verdict_ignores_document_files (host1 host2 : Host) (case_dir : Path)
    (case_id : string) (names1 names2 : list string) (w1 w2 : World) :
  path_exists host1 case_dir = path_exists host2 case_dir ->
  path_is_dir host1 case_dir = path_is_dir host2 case_dir ->
  path_exists host1 (joinpath case_dir "metadata.json")
  = path_exists host2 (joinpath case_dir "metadata.json") ->
  load_case_metadata host1 (joinpath case_dir "metadata.json")
  = load_case_metadata host2 (joinpath case_dir "metadata.json") ->
  (forall msg, value_error_msg host1 msg = value_error_msg host2 msg) ->
  path_iterdir host1 case_dir = Return names1 ->
  path_iterdir host2 case_dir = Return names2 ->
  fst (validate_case_directory host1 case_dir case_id w1)
  = fst (validate_case_directory host2 case_dir case_id w2).
Proof.
  intros He Hd Hm Hl Hv Hn1 Hn2. unfold validate_case_directory.
  rewrite <- He, <- Hd, <- Hm, Hn1, Hn2.
  destruct (negb (path_exists host1 case_dir)); [reflexivity|].
  destruct (negb (path_is_dir host1 case_dir)); [reflexivity|].
  destruct (negb (path_exists host1 _)); [reflexivity|].
  pose proof (@validate_case_metadata_agree host1 host2
                (joinpath case_dir "metadata.json") w1 w2 Hm Hl Hv) as Hagree.
  unfold wbind at 1 5.
  destruct (validate_case_metadata host1 _ w1) as [[[[v1 o1] errs1]|e1] w1'],
           (validate_case_metadata host2 _ w2) as [[[[v2 o2] errs2]|e2] w2'];
    cbn [fst] in Hagree; try discriminate Hagree.
  - injection Hagree as <- <- <-.
    destruct (negb v1); [reflexivity|]. destruct o1 as [md|]; [|reflexivity].
    unfold wbind at 1 4.
    match goal with
    | |- context [for_each ?f ?l w1'] =>
        destruct (@for_each_returns _ f l w1') as (w1'' & ->)
    end.
    { intros doc w0. destruct (negb _); eexists; reflexivity. }
    match goal with
    | |- context [for_each ?f ?l w2'] =>
        destruct (@for_each_returns _ f l w2') as (w2'' & ->)
    end.
    { intros doc w0. destruct (negb _); eexists; reflexivity. }
    unfold wbind, of_outcome.
    destruct (filter _ (actual_docs host1 case_dir names1));
      destruct (filter _ (actual_docs host2 case_dir names2)); reflexivity.
  - injection Hagree as <-. reflexivity.
Qed.

Lemma verdict_ignores_document_files_witness :
  fst (validate_case_directory Setup.host Sample.case_dir "case_001" blank_world)
  = fst (validate_case_directory Setup.bare_host Sample.case_dir "case_001"
           (Setup.world [] Sample.no_files)) /\
  console (snd (validate_case_directory Setup.host Sample.case_dir "case_001"
                  blank_world))
  = [Logged WARNING (UnlistedDocuments ["testimony.txt"])] /\
  console (snd (validate_case_directory Setup.bare_host Sample.case_dir "case_001"
                  blank_world))
  = [Logged WARNING (MissingDocumentFile "evaluation.txt")].
Proof.
  split; [|split; vm_compute; reflexivity].
  exact (@verdict_ignores_document_files Setup.host Setup.bare_host
           Sample.case_dir "case_001"
           ["metadata.json"; "evaluation.txt"; "testimony.txt"] ["metadata.json"]
           blank_world (Setup.world [] Sample.no_files)
           eq_refl eq_refl eq_refl eq_refl (fun _ => eq_refl) eq_refl eq_refl).
Defined.
(* ================================================================= *)
(** ** The ingestion script *)

Lemma detached_get_case_directories (host : Host) (data_path : Path)
    (case_filter : option string) :
  detached (get_case_directories host data_path case_filter).
Proof.
  unfold get_case_directories.
  destruct case_filter as [[|c f]|]; try (repeat detached_step).
  destruct (negb (path_exists host _)); [repeat detached_step|].
  destruct (negb (path_is_dir host _)); repeat detached_step.
Qed.

Lemma detached_validate_cases_loop (host : Host) (case_dirs valid_cases : list Path) :
  detached (validate_cases_loop host case_dirs valid_cases).
Proof.
  revert valid_cases.
  induction case_dirs as [|d rest IH]; intros acc; cbn [validate_cases_loop].
  - apply detached_wret.
  - apply detached_wbind; [apply detached_logger|intros _].
    apply detached_wbind; [apply detached_validate_case_directory|].
    intros [v errs]. cbn [fst snd]. destruct v.
    + apply detached_wbind; [apply detached_logger|intros _; apply IH].
    + apply detached_wbind; [apply detached_logger|intros _].
      apply detached_wbind; [|intros _; apply IH].
      apply detached_for_each. intros x. apply detached_logger.
Qed.

(** The verdict on a directory is the one of [accepted], whatever the
    state. *)
Lemma validate_case_directory_accepted (host : Host) (case_dir : Path)
    (w w' : World) (checked : bool * list string) :
  validate_case_directory host case_dir (name case_dir) w = (Return checked, w') ->
  accepted host case_dir = fst checked.
Proof.
  intros H. unfold accepted.
  destruct (detached_validate_case_directory host case_dir (name case_dir))
    as [_ Hs].
  rewrite (Hs blank_world w), H. cbn [fst]. now destruct checked as [[] errs].
Qed.

Lemma accepted_true (host : Host) (case_dir : Path) :
  accepted host case_dir = true ->
  path_is_dir host case_dir = true /\
  PyStr.startswith (name case_dir) "case_" = true.
Proof.
  unfold accepted. intros H.
  destruct (validate_case_directory host case_dir (name case_dir) blank_world)
    as [[[[] errs]|e] w'] eqn:Hv; cbn [fst] in H; try discriminate H.
  apply validate_case_directory_true in Hv
    as (_ & _ & Hd & fields & sg & kg & _ & _ & Hp).
  now split.
Qed.

Lemma validate_cases_loop_spec (host : Host) (case_dirs : list Path) :
  forall (valid_cases : list Path) (w w' : World) (valid : list Path),
    validate_cases_loop host case_dirs valid_cases w = (Return valid, w') ->
    valid = (valid_cases ++ filter (accepted host) case_dirs)%list.
Proof.
  induction case_dirs as [|d rest IH]; intros acc w w' valid H;
    cbn [validate_cases_loop filter] in *.
  - unfold wret in H. injection H as <- _. now rewrite app_nil_r.
  - apply wbind_Return in H as (u & w1 & _ & H).
    apply wbind_Return in H as (checked & w2 & Hv & H).
    rewrite (validate_case_directory_accepted _ _ _ Hv).
    destruct (fst checked).
    + apply wbind_Return in H as (u1 & w3 & _ & H).
      apply IH in H. now rewrite <- app_assoc in H.
    + apply wbind_Return in H as (u1 & w3 & _ & H).
      apply wbind_Return in H as (u2 & w4 & _ & H).
      now apply IH in H.
Qed.

(** X18: [validate_cases] returns, in their order, the directories that
    [validate_case_directory] accepts under their own name, and no other;
    each of them is a directory whose name starts with "case_".  It writes
    to the console only: engine, manifest files and calls are as before. *)
Theorem validate_cases_keeps_accepted (host : Host) (case_dirs : list Path)
    (w w' : World) (valid : list Path) :
  validate_cases host case_dirs w = (Return valid, w') ->
  valid = filter (accepted host) case_dirs /\
  Forall (fun case_dir =>
            path_is_dir host case_dir = true /\
            PyStr.startswith (name case_dir) "case_" = true) valid /\
  world_engine w' = world_engine w /\
  world_files w' = world_files w /\
  world_calls w' = world_calls w.
Proof.
  unfold validate_cases. intros H.
  destruct (detached_validate_cases_loop host case_dirs []) as [Hframe _].
  specialize (Hframe w). rewrite H in Hframe. cbn [snd] in Hframe.
  apply validate_cases_loop_spec in H. cbn [app] in H. subst valid.
  split; [reflexivity|]. split; [|exact Hframe].
  apply Forall_forall. intros d Hd. apply filter_In in Hd as [_ Hd].
  now apply accepted_true.
Qed.

Lemma validate_cases_keeps_accepted_witness :
  exists w',
    validate_cases Setup.host
      [Sample.case_dir; joinpath DATA_DIR "README.md"] blank_world
    = (Return [Sample.case_dir], w') /\
    [Sample.case_dir]
    = filter (accepted Setup.host) [Sample.case_dir; joinpath DATA_DIR "README.md"].
Proof.
  eexists. split.
  - vm_compute. reflexivity.
  - refine (proj1 (@validate_cases_keeps_accepted Setup.host
                     [Sample.case_dir; joinpath DATA_DIR "README.md"]
                     blank_world _ [Sample.case_dir] _)).
    vm_compute. reflexivity.
Defined.

(* ----------------------------------------------------------------- *)

Lemma wtry_returns {A : Type} (c : W A) (handler : Exn -> W A) (P : A -> Prop) :
  (forall w a w', c w = (Return a, w') -> P a) ->
  (forall e w, exists a w', handler e w = (Return a, w') /\ P a) ->
  forall w, exists a w', wtry c handler w = (Return a, w') /\ P a.
Proof.
  intros Hc Hh w. unfold wtry. destruct (c w) as [[a|e] w1] eqn:E.
  - exists a, w1. split; [reflexivity|]. eapply Hc, E.
  - apply Hh.
Qed.

(** X19: [ingest_cases] goes through every case directory, whatever happens
    in one of them: the loop always comes to its end, an exception that the
    engine raises on a case is caught and counted, and at the end the
    successful and the failed cases together are the directories in which
    [glob] found documents.  No counter ever goes down. *)
Theorem ingest_cases_loop_accounts (env : Env) (host : Host)
    (case_dirs : list Path) (force_reingest : bool) (t : Tally) (w : World) :
  exists t' w',
    ingest_cases_loop env host case_dirs force_reingest t w = (Return t', w') /\
    (successful_cases t' + failed_cases t'
     = successful_cases t + failed_cases t
       + List.length (filter (has_documents host) case_dirs))%nat /\
    (successful_cases t <= successful_cases t')%nat /\
    (failed_cases t <= failed_cases t')%nat /\
    (total_ingested t <= total_ingested t')%nat /\
    (total_skipped t <= total_skipped t')%nat.
Proof.
  revert t w. induction case_dirs as [|d rest IH]; intros t w;
    cbn [ingest_cases_loop filter].
  - exists t, w. cbn. split; [reflexivity|]. lia.
  - unfold has_documents at 1. unfold wbind at 1.
    destruct (logger INFO (ProcessingCase (name d)) w) as [[u|e] w1] eqn:E;
      [|discriminate E]. clear E.
    destruct (found_documents host d) as [|doc docs] eqn:Hdocs.
    + unfold wbind at 1.
      destruct (logger WARNING (NoDocumentsFound (name d)) w1) as [[u1|e] w2] eqn:E;
        [|discriminate E]. clear E. apply IH.
    + unfold wbind at 1.
      destruct (logger INFO (FoundDocuments (List.length (doc :: docs))) w1)
        as [[u1|e] w2] eqn:E; [|discriminate E]. clear E.
      unfold wbind at 1.
      match goal with
      | |- context [wtry ?c ?h w2] =>
          destruct (@wtry_returns _ c h
                      (fun t1 =>
                         (successful_cases t1 + failed_cases t1
                          = successful_cases t + failed_cases t + 1)%nat /\
                         (successful_cases t <= successful_cases t1)%nat /\
                         (failed_cases t <= failed_cases t1)%nat /\
                         (total_ingested t <= total_ingested t1)%nat /\
                         (total_skipped t <= total_skipped t1)%nat)) with (w := w2)
            as (t1 & w3 & -> & H1 & H2 & H3 & H4 & H5)
      end.
      * intros w0 a w0' H.
        apply wbind_Return in H as (result & w4 & _ & H).
        apply wbind_Return in H as (u2 & w5 & _ & H).
        apply wbind_Return in H as (u3 & w6 & _ & H).
        unfold wret in H. injection H as <- _. cbn. lia.
      * intros e w0. eexists _, _. split; [reflexivity|]. cbn. lia.
      * destruct (IH t1 w3) as (t' & w' & -> & G1 & G2 & G3 & G4 & G5).
        exists t', w'. split; [reflexivity|]. cbn [List.length]. lia.
Qed.

(* ----------------------------------------------------------------- *)

Lemma detached_banner (title : string) : detached (banner title).
Proof. unfold banner. repeat detached_step. Qed.

(** X20: with [--validate-only] the script [main] touches nothing but the
    console: no engine is made, the store is not opened, no manifest is read
    or written and no provider is called, whatever the other arguments
    (even [--clear]).  When it ends, it ends with [sys.exit]: with the code
    0 or the code 1. *)
Theorem validate_only_touches_nothing (env : Env) (host : Host) (args : Args)
    (w : World) :
  args_validate_only args = true ->
  world_engine (snd (main env host args w)) = world_engine w /\
  world_files (snd (main env host args w)) = world_files w /\
  world_calls (snd (main env host args w)) = world_calls w /\
  forall exit, fst (main env host args w) = Return exit ->
               exit = SystemExit 0 \/ exit = SystemExit 1.
Proof.
  intros Hv.
  assert (Hd : detached (main env host args)).
  { unfold main. rewrite Hv.
    do 2 (apply detached_wbind; [apply detached_logger|intros _]).
    destruct (negb (path_exists host DATA_DIR)); [repeat detached_step|].
    apply detached_wbind; [apply detached_get_case_directories|].
    intros [|d dirs]; [repeat detached_step|].
    apply detached_wbind; [apply detached_logger|intros _].
    apply detached_wbind; [apply detached_banner|intros _].
    apply detached_wbind; [apply detached_validate_cases_loop|].
    intros [|v valid]; repeat detached_step. }
  destruct Hd as [Hframe _]. destruct (Hframe w) as (E & F & C).
  split; [exact E|]. split; [exact F|]. split; [exact C|].
  intros exit H. unfold main in H. rewrite Hv in H.
  revert H.
  unfold wbind at 1. cbn [logger emit]. unfold wbind at 1. cbn [logger emit].
  destruct (negb (path_exists host DATA_DIR)).
  { cbn. intros [= <-]. now right. }
  unfold wbind at 1.
  match goal with
  | |- context [get_case_directories host DATA_DIR (args_case args) ?w0] =>
      destruct (get_case_directories host DATA_DIR (args_case args) w0)
        as [[[|d dirs]|e] w1]
  end; [cbn; intros [= <-]; now left| |cbn; discriminate].
  unfold wbind at 1. cbn [logger emit]. unfold wbind at 1.
  match goal with
  | |- context [banner ?s ?w0] =>
      destruct (banner s w0) as [[u|e] w2]
  end; [|cbn; discriminate].
  unfold wbind at 1.
  destruct (validate_cases host (d :: dirs) w2) as [[[|v valid]|e] w3];
    [cbn; intros [= <-]; now right| |cbn; discriminate].
  cbn. intros [= <-]. now left.
Qed.

Lemma validate_only_touches_nothing_witness :
  world_calls (snd (main Sample.env Setup.host
                      {| args_case := None; args_force := true;
                         args_clear := true; args_validate_only := true |}
                      (Setup.world Setup.stored_nodes Sample.no_files)))
  = [] /\
  fst (main Sample.env Setup.host
         {| args_case := None; args_force := true;
            args_clear := true; args_validate_only := true |}
         (Setup.world Setup.stored_nodes Sample.no_files))
  = Return (SystemExit 0).
Proof.
  split; [|vm_compute; reflexivity].
  exact (proj1 (proj2 (proj2
           (@validate_only_touches_nothing Sample.env Setup.host
              {| args_case := None; args_force := true;
                 args_clear := true; args_validate_only := true |}
              (Setup.world Setup.stored_nodes Sample.no_files) eq_refl)))).
Defined.
